(** * real-circuit: the network solver and the component state models

    A shallow embedding of the simulation core of the 3D circuit simulator:
    - [src/simulation/CircuitSolver.ts] (node identification, MNA stamping,
      Gaussian elimination, result extraction),
    - the component classes [Fuse], [Lamp], [Battery], [Capacitor],
      [VoltageSource], [Resistor], [LED], [Inductor], [Diode], [Switch],
      [Potentiometer] and [Ground] ([simulate], [checkErrors] and the
      controls), and the constructors of all twelve component kinds,
    - [ComponentFactory] ([createComponent], [getComponentName],
      [getAvailableComponents], [getComponentCategory]),
    - [stepSimulation] and the editing actions of
      [src/store/circuitStore.ts].

    JavaScript numbers are kept abstract behind the class [JsNumber]; the
    model is instantiated twice: with the primitive binary64 floats (what the
    program computes with, [NaN] and infinities included) and with the real
    numbers (exact arithmetic, used where a statement is about the formula a
    function computes).  The 3D fields of the objects (positions, rotations,
    meshes) play no part in the simulation and are left out. *)

From Stdlib Require Import String ZArith QArith Reals Lra Lia Bool List.
From Stdlib Require PrimFloat Uint63 FloatOps FloatAxioms SpecFloat.
Abbreviation float := PrimFloat.float.
Import ListNotations.
Close Scope Q_scope.
Close Scope R_scope.
Close Scope Z_scope.

Set Implicit Arguments.

(* ================================================================== *)
(** * JavaScript [Map]: a finite map that remembers insertion order    *)
(* ================================================================== *)

Module JsMap.
Section Defs.
Variable V : Type.

Definition t := list (string * V).

Definition empty : t := [].

Fixpoint get (k : string) (m : t) : option V :=
  match m with
  | [] => None
  | (k', v) :: m' => if String.eqb k' k then Some v else get k m'
  end.

Definition has (k : string) (m : t) : bool :=
  match get k m with Some _ => true | None => false end.

(** [set] keeps the position of a key that is already present and appends a
    new key at the end, as [Map.prototype.set] does. *)
Fixpoint set (k : string) (v : V) (m : t) : t :=
  match m with
  | [] => [(k, v)]
  | (k', v') :: m' =>
      if String.eqb k' k then (k', v) :: m' else (k', v') :: set k v m'
  end.

Definition keys (m : t) : list string := map fst m.
Definition values (m : t) : list V := map snd m.
Definition size (m : t) : nat := length m.

End Defs.
Arguments empty {V}.
End JsMap.

(* ================================================================== *)
(** * JavaScript numbers                                               *)
(* ================================================================== *)

(** The operations on [number] that the simulation core uses.  [of_Q] reads
    a numeric literal; [gt a b] is [a > b] and [lt a b] is [a < b];
    [truthy] is the test performed by [x || d] and by [if (x)];
    [mod1 x] is [x % 1]. *)
Class JsNumber (num : Type) : Type := {
  of_Q : Q -> num;
  add : num -> num -> num;
  sub : num -> num -> num;
  mul : num -> num -> num;
  div : num -> num -> num;
  neg : num -> num;
  Math_abs : num -> num;
  Math_max : num -> num -> num;
  Math_min : num -> num -> num;
  Math_sqrt : num -> num;
  gt : num -> num -> bool;
  lt : num -> num -> bool;
  truthy : num -> bool;
  mod1 : num -> num
}.
Arguments of_Q {num _} _%_Q.

Declare Scope js_scope.
Delimit Scope js_scope with js.
Infix "+" := add : js_scope.
Infix "-" := sub : js_scope.
Infix "*" := mul : js_scope.
Infix "/" := div : js_scope.
Notation "- x" := (neg x) : js_scope.
Infix ">" := gt : js_scope.
Infix "<" := lt : js_scope.

(** [o || d] for a numeric property that may be undefined. *)
Definition num_or {num} `{JsNumber num} (o : option num) (d : num) : num :=
  match o with
  | Some x => if truthy x then x else d
  | None => d
  end.

(** ** Binary64 instance *)

Module Float64.

Definition of_Z (z : Z) : float :=
  match z with
  | Z0 => PrimFloat.zero
  | Zpos _ => PrimFloat.of_uint63 (Uint63.of_Z z)
  | Zneg p => PrimFloat.opp (PrimFloat.of_uint63 (Uint63.of_Z (Zpos p)))
  end.

(** A decimal literal denotes the binary64 value nearest to it; for the
    literals of this program numerator and denominator are exact, so one
    correctly rounded division gives that value. *)
Definition of_Q (q : Q) : float :=
  PrimFloat.div (of_Z (Qnum q)) (of_Z (Zpos (Qden q))).

(** [Math.max]: [NaN] if an argument is [NaN]; [+0] is larger than [-0]. *)
Definition max (a b : float) : float :=
  if PrimFloat.is_nan a || PrimFloat.is_nan b then PrimFloat.nan
  else if PrimFloat.ltb a b then b
  else if PrimFloat.ltb b a then a
  else if PrimFloat.is_zero a then (if PrimFloat.get_sign a then b else a)
  else a.

Definition min (a b : float) : float :=
  if PrimFloat.is_nan a || PrimFloat.is_nan b then PrimFloat.nan
  else if PrimFloat.ltb a b then a
  else if PrimFloat.ltb b a then b
  else if PrimFloat.is_zero a then (if PrimFloat.get_sign a then a else b)
  else a.

Definition truthy (x : float) : bool :=
  negb (PrimFloat.eqb x PrimFloat.zero) && negb (PrimFloat.is_nan x).

Definition two52 : float := of_Z 4503599627370496.

(** [x % 1]: the fractional part with the sign of [x]. *)
Definition mod1 (x : float) : float :=
  if PrimFloat.is_nan x || PrimFloat.is_infinity x then PrimFloat.nan
  else
    let a := PrimFloat.abs x in
    let f :=
      if PrimFloat.ltb a two52 then
        let r := PrimFloat.sub (PrimFloat.add a two52) two52 in
        let fl := if PrimFloat.ltb a r then PrimFloat.sub r PrimFloat.one else r in
        PrimFloat.sub a fl
      else PrimFloat.zero in
    if PrimFloat.get_sign x then PrimFloat.opp f else f.

Definition finite (x : float) : bool :=
  negb (PrimFloat.is_nan x) && negb (PrimFloat.is_infinity x).

End Float64.

#[export] Instance float_JsNumber : JsNumber float := {
  of_Q := Float64.of_Q;
  add := PrimFloat.add;
  sub := PrimFloat.sub;
  mul := PrimFloat.mul;
  div := PrimFloat.div;
  neg := PrimFloat.opp;
  Math_abs := PrimFloat.abs;
  Math_max := Float64.max;
  Math_min := Float64.min;
  Math_sqrt := PrimFloat.sqrt;
  gt := fun a b => PrimFloat.ltb b a;
  lt := PrimFloat.ltb;
  truthy := Float64.truthy;
  mod1 := Float64.mod1
}.

(** ** Exact instance: the real numbers *)

Module Exact.

Definition gt (a b : R) : bool := if Rgt_dec a b then true else false.
Definition lt (a b : R) : bool := if Rlt_dec a b then true else false.
Definition truthy (x : R) : bool := if Req_dec_T x 0%R then false else true.
Definition mod1 (x : R) : R :=
  if Rlt_dec x 0%R then Ropp (frac_part (Ropp x)) else frac_part x.

End Exact.

#[export] Instance R_JsNumber : JsNumber R := {
  of_Q := Q2R;
  add := Rplus;
  sub := Rminus;
  mul := Rmult;
  div := Rdiv;
  neg := Ropp;
  Math_abs := Rabs;
  Math_max := Rmax;
  Math_min := Rmin;
  Math_sqrt := sqrt;
  gt := Exact.gt;
  lt := Exact.lt;
  truthy := Exact.truthy;
  mod1 := Exact.mod1
}.

(** ** The comparison [a <= b]

    Only [Resistor.checkErrors] uses it. *)
Class JsNumberLe (num : Type) : Type := {
  lte : num -> num -> bool
}.

#[export] Instance float_JsNumberLe : JsNumberLe float := {
  lte := PrimFloat.leb
}.

#[export] Instance R_JsNumberLe : JsNumberLe R := {
  lte := fun a b => if Rle_dec a b then true else false
}.

(* ================================================================== *)
(** * Data model ([src/types/index.ts])                                *)
(* ================================================================== *)

Module ComponentType.
Inductive t : Set :=
| RESISTOR | CAPACITOR | INDUCTOR | DIODE | ZENER_DIODE | LED | FUSE
| VOLTAGE_SOURCE | CURRENT_SOURCE | BATTERY | GROUND
| MOSFET | BJT | JFET | THYRISTOR | TRANSISTOR | OPTOCOUPLER
| LOGIC_GATE_AND | LOGIC_GATE_OR | LOGIC_GATE_NOT | LOGIC_GATE_NAND
| LOGIC_GATE_XOR | OP_AMP
| SWITCH | POTENTIOMETER | VARISTOR | MCB | RELAY
| LAMP | DC_MOTOR.

Definition eq_dec (a b : t) : {a = b} + {a <> b}.
Proof. decide equality. Defined.

(** [a === b] on component types. *)
Definition eqb (a b : t) : bool := if eq_dec a b then true else false.
End ComponentType.

Module WaveformType.
Inductive t : Set := DC | SINE | SQUARE | PULSE | TRIANGLE.
End WaveformType.

Module ErrorSeverity.
Inductive t : Set := WARNING | ERROR | CRITICAL.
End ErrorSeverity.

Record WaveformConfig (num : Type) : Type := mk_WaveformConfig {
  wf_type : WaveformType.t;
  frequency : num;
  dutyCycle : num;
  phase : num;
  offset : num
}.

Module Terminal.
Record t (num : Type) : Type := mk {
  id : string;
  componentId : string;
  name : string;
  voltage : num;
  current : num
}.
Definition set_voltage {num} (x : num) (tm : t num) : t num :=
  mk (id tm) (componentId tm) (name tm) x (current tm).
Definition set_current {num} (x : num) (tm : t num) : t num :=
  mk (id tm) (componentId tm) (name tm) (voltage tm) x.
End Terminal.

Module Wire.
Record t (num : Type) : Type := mk {
  id : string;
  fromTerminal : string;
  toTerminal : string;
  current : num;
  voltage : num
}.
Definition set_current {num} (x : num) (w : t num) : t num :=
  mk (id w) (fromTerminal w) (toTerminal w) x (voltage w).
Definition set_voltage {num} (x : num) (w : t num) : t num :=
  mk (id w) (fromTerminal w) (toTerminal w) (current w) x.
End Wire.

Record CircuitError (num : Type) : Type := mk_CircuitError {
  err_id : string;
  severity : ErrorSeverity.t;
  message : string;
  componentIds : list string;
  timestamp : num;
  stopSimulation : bool
}.

(* ================================================================== *)
(** * [BaseComponent]                                                  *)
(* ================================================================== *)

(** An instance of a component class: the fields of [BaseComponent] that the
    simulation reads, with the property record [P] of the class. *)
Module BaseComponent.
Record t (P num : Type) : Type := mk {
  id : string;
  type : ComponentType.t;
  terminals : list (Terminal.t num);
  properties : P
}.

Definition set_terminals {P num} (ts : list (Terminal.t num)) (c : t P num) : t P num :=
  mk (id c) (type c) ts (properties c).
Definition set_properties {P num} (p : P) (c : t P num) : t P num :=
  mk (id c) (type c) (terminals c) p.

Section Defs.
Context {num : Type} `{JsNumber num}.

(** [createTerminal(name, localPosition)]. *)
Definition createTerminal (this_id : string) (name : string) : Terminal.t num :=
  Terminal.mk (this_id ++ "-" ++ name) this_id name (of_Q 0) (of_Q 0).

(** [nodeVoltages.get(id) || 0]. *)
Definition voltageAt (nodeVoltages : JsMap.t num) (terminalId : string) : num :=
  num_or (JsMap.get terminalId nodeVoltages) (of_Q 0).

(** The four assignments that end every two-terminal [simulate]:
    [terminals[0].voltage = v1; terminals[1].voltage = v2;
     terminals[0].current = i; terminals[1].current = -i]. *)
Definition writeTerminals (v1 v2 i : num) (ts : list (Terminal.t num))
  : list (Terminal.t num) :=
  match ts with
  | t0 :: t1 :: rest =>
      Terminal.set_current i (Terminal.set_voltage v1 t0)
      :: Terminal.set_current (- i)%js (Terminal.set_voltage v2 t1)
      :: rest
  | _ => ts
  end.

End Defs.
End BaseComponent.

(* ================================================================== *)
(** * The component classes                                            *)
(* ================================================================== *)

(** Each module holds the property record its constructor builds
    ([this.properties = {...}]), setters for the fields that are assigned
    after construction, and the constructor [new].  The five classes whose
    state model is analysed below also have their [simulate].

    Every [simulate] starts with [if (this.terminals.length < 2) return;]:
    that is the last branch of the [match] on the terminals. *)

Module Resistor.
Section Defs.
Context {num : Type} `{JsNumber num}.
Local Open Scope js_scope.

Record properties : Type := mk_properties {
  value : num;
  voltage : num;
  current : num;
  power : num;
  temperature : num
}.

Definition set_voltage (x : num) (p : properties) : properties :=
  mk_properties (value p) x (current p) (power p) (temperature p).
Definition set_current (x : num) (p : properties) : properties :=
  mk_properties (value p) (voltage p) x (power p) (temperature p).
Definition set_power (x : num) (p : properties) : properties :=
  mk_properties (value p) (voltage p) (current p) x (temperature p).

Definition t := BaseComponent.t properties num.

Definition new (id : string) (resistance : num) : t :=
  BaseComponent.mk id ComponentType.RESISTOR
    [BaseComponent.createTerminal id "terminal1";
     BaseComponent.createTerminal id "terminal2"]
    (mk_properties resistance (of_Q 0) (of_Q 0) (of_Q 0) (of_Q 25)).

Definition set_temperature (x : num) (p : properties) : properties :=
  mk_properties (value p) (voltage p) (current p) (power p) x.

Definition simulate (deltaTime : num) (nodeVoltages : JsMap.t num) (this : t) : t :=
  match BaseComponent.terminals this with
  | t0 :: t1 :: _ =>
      let v1 := BaseComponent.voltageAt nodeVoltages (Terminal.id t0) in
      let v2 := BaseComponent.voltageAt nodeVoltages (Terminal.id t1) in
      let p := BaseComponent.properties this in
      (* voltage across the resistor *)
      let p := set_voltage (Math_abs (v1 - v2)) p in
      (* Ohm's law: I = V / R *)
      let p := set_current (voltage p / num_or (Some (value p)) (of_Q 1)) p in
      (* P = I^2 * R; [Math.pow(i, 2)] is the product i * i *)
      let p := set_power
                 ((current p * current p) * num_or (Some (value p)) (of_Q 1)) p in
      (* T = T_ambient + k * P *)
      let thermalResistance := of_Q 50 in
      let p := set_temperature (of_Q 25 + power p * thermalResistance) p in
      let ts := BaseComponent.writeTerminals v1 v2 (current p)
                  (BaseComponent.terminals this) in
      BaseComponent.set_properties p (BaseComponent.set_terminals ts this)
  | _ => this
  end.

(** [checkErrors]; [Number_toFixed x d] is the text [x.toFixed(d)], and
    [Date_now k] the clock reading of the push that follows [k] errors. *)
Definition checkErrors `{JsNumberLe num} (Number_toFixed : num -> nat -> string)
    (Date_now : nat -> num) (this : t) : list (CircuitError num) :=
  let p := BaseComponent.properties this in
  let id := BaseComponent.id this in
  let power0 := num_or (Some (power p)) (of_Q 0) in
  let errors : list (CircuitError num) := [] in
  (* critical power dissipation *)
  let criticalPower := of_Q 10 in
  let errors :=
    if power0 > criticalPower then
      errors ++ [mk_CircuitError (id ++ "-critical-overpower") ErrorSeverity.CRITICAL
                   ("DANGER! Resistor power (" ++ Number_toFixed (power p) 2
                      ++ "W) far exceeds safe limits! Fire hazard!")
                   [id] (Date_now (List.length errors)) true]
    else errors in
  (* excessive power dissipation *)
  let maxPower := of_Q 0.25 in
  let errors :=
    if (power0 > maxPower) && lte power0 criticalPower then
      errors ++ [mk_CircuitError (id ++ "-overpower") ErrorSeverity.WARNING
                   ("Resistor power dissipation (" ++ Number_toFixed (power p) 2
                      ++ "W) exceeds rating (0.25W)")
                   [id] (Date_now (List.length errors)) false]
    else errors in
  (* excessive current *)
  let maxCurrent := of_Q 10 in
  let current0 := Math_abs (num_or (Some (current p)) (of_Q 0)) in
  let errors :=
    if current0 > maxCurrent then
      errors ++ [mk_CircuitError (id ++ "-overcurrent") ErrorSeverity.CRITICAL
                   ("DANGER! Resistor current (" ++ Number_toFixed current0 2
                      ++ "A) far exceeds safe limits! Lead melting hazard!")
                   [id] (Date_now (List.length errors)) true]
    else errors in
  (* excessive temperature *)
  let maxTemp := of_Q 150 in
  let errors :=
    if num_or (Some (temperature p)) (of_Q 0) > maxTemp then
      errors ++ [mk_CircuitError (id ++ "-overtemp") ErrorSeverity.ERROR
                   ("Resistor temperature (" ++ Number_toFixed (temperature p) 1
                      ++ "°C) exceeds maximum (150°C)")
                   [id] (Date_now (List.length errors)) true]
    else errors in
  errors.


End Defs.
Arguments properties : clear implicits.
Arguments t : clear implicits.
End Resistor.

Module Capacitor.
Section Defs.
Context {num : Type} `{JsNumber num}.
Local Open Scope js_scope.

Record properties : Type := mk_properties {
  capacitance : num;
  voltage : num;
  current : num;
  charge : num;
  maxVoltage : num;
  power : num;
  energy : num
}.

Definition set_voltage (x : num) (p : properties) : properties :=
  mk_properties (capacitance p) x (current p) (charge p) (maxVoltage p) (power p) (energy p).
Definition set_current (x : num) (p : properties) : properties :=
  mk_properties (capacitance p) (voltage p) x (charge p) (maxVoltage p) (power p) (energy p).
Definition set_charge (x : num) (p : properties) : properties :=
  mk_properties (capacitance p) (voltage p) (current p) x (maxVoltage p) (power p) (energy p).
Definition set_power (x : num) (p : properties) : properties :=
  mk_properties (capacitance p) (voltage p) (current p) (charge p) (maxVoltage p) x (energy p).
Definition set_energy (x : num) (p : properties) : properties :=
  mk_properties (capacitance p) (voltage p) (current p) (charge p) (maxVoltage p) (power p) x.

Definition t := BaseComponent.t properties num.

Definition new (id : string) (capacitance : num) : t :=
  BaseComponent.mk id ComponentType.CAPACITOR
    [BaseComponent.createTerminal id "positive";
     BaseComponent.createTerminal id "negative"]
    (mk_properties capacitance (of_Q 0) (of_Q 0) (of_Q 0) (of_Q 50) (of_Q 0) (of_Q 0)).

(** [this.properties.capacitance || 100e-6]. *)
Definition capacitanceOrDefault (p : properties) : num :=
  num_or (Some (capacitance p)) (of_Q 0.0001).

Definition simulate (deltaTime : num) (nodeVoltages : JsMap.t num) (this : t) : t :=
  match BaseComponent.terminals this with
  | t0 :: t1 :: _ =>
      let vPos := BaseComponent.voltageAt nodeVoltages (Terminal.id t0) in
      let vNeg := BaseComponent.voltageAt nodeVoltages (Terminal.id t1) in
      let p := BaseComponent.properties this in
      let previousVoltage := num_or (Some (voltage p)) (of_Q 0) in
      let p := set_voltage (vPos - vNeg) p in
      (* I = C * dV/dt *)
      let dV := voltage p - previousVoltage in
      let p := set_current
                 (capacitanceOrDefault p * (dV / Math_max deltaTime (of_Q 0.001))) p in
      (* Q = C * V *)
      let p := set_charge (capacitanceOrDefault p * voltage p) p in
      (* E = 0.5 * C * V^2; [Math.pow(v, 2)] is the product v * v *)
      let p := set_energy
                 (of_Q 0.5 * capacitanceOrDefault p * (voltage p * voltage p)) p in
      let p := set_power (voltage p * current p) p in
      let ts := BaseComponent.writeTerminals vPos vNeg (current p)
                  (BaseComponent.terminals this) in
      BaseComponent.set_properties p (BaseComponent.set_terminals ts this)
  | _ => this
  end.

(** [checkErrors]; [Number_toFixed x d] is the text [x.toFixed(d)],
    [Number_toString x] the text of [x] in a template, and [Date_now k]
    the clock reading of the push that follows [k] errors. *)
Definition checkErrors (Number_toFixed : num -> nat -> string)
    (Number_toString : num -> string)
    (Date_now : nat -> num) (this : t) : list (CircuitError num) :=
  let p := BaseComponent.properties this in
  let id := BaseComponent.id this in
  let errors : list (CircuitError num) := [] in
  (* overvoltage *)
  let voltage0 := num_or (Some (voltage p)) (of_Q 0) in
  let maxVoltage0 := num_or (Some (maxVoltage p)) (of_Q 50) in
  let errors :=
    if Math_abs voltage0 > maxVoltage0 then
      errors ++ [mk_CircuitError (id ++ "-overvoltage") ErrorSeverity.ERROR
                   ("Capacitor overvoltage: " ++ Number_toFixed (Math_abs voltage0) 1
                      ++ "V exceeds maximum " ++ Number_toString maxVoltage0 ++ "V")
                   [id] (Date_now (List.length errors)) true]
    else errors in
  (* reverse polarity on a polarized capacitor *)
  let errors :=
    if voltage0 < of_Q (-1) then
      errors ++ [mk_CircuitError (id ++ "-reverse") ErrorSeverity.WARNING
                   ("Capacitor reverse polarity (" ++ Number_toFixed (voltage p) 1
                      ++ "V) - may damage polarized capacitor")
                   [id] (Date_now (List.length errors)) false]
    else errors in
  errors.


End Defs.
Arguments properties : clear implicits.
Arguments t : clear implicits.
End Capacitor.

Module Inductor.
Section Defs.
Context {num : Type} `{JsNumber num}.

Record properties : Type := mk_properties {
  inductance : num;
  voltage : num;
  current : num;
  maxCurrent : num;
  power : num;
  energy : num;
  flux : num
}.

Definition set_voltage (x : num) (p : properties) : properties :=
  mk_properties (inductance p) x (current p) (maxCurrent p) (power p) (energy p) (flux p).
Definition set_current (x : num) (p : properties) : properties :=
  mk_properties (inductance p) (voltage p) x (maxCurrent p) (power p) (energy p) (flux p).
Definition set_power (x : num) (p : properties) : properties :=
  mk_properties (inductance p) (voltage p) (current p) (maxCurrent p) x (energy p) (flux p).

Definition t := BaseComponent.t properties num.

Definition new (id : string) (inductance : num) : t :=
  BaseComponent.mk id ComponentType.INDUCTOR
    [BaseComponent.createTerminal id "terminal1";
     BaseComponent.createTerminal id "terminal2"]
    (mk_properties inductance (of_Q 0) (of_Q 0) (of_Q 10) (of_Q 0) (of_Q 0) (of_Q 0)).

Local Open Scope js_scope.

Definition set_energy (x : num) (p : properties) : properties :=
  mk_properties (inductance p) (voltage p) (current p) (maxCurrent p) (power p) x (flux p).
Definition set_flux (x : num) (p : properties) : properties :=
  mk_properties (inductance p) (voltage p) (current p) (maxCurrent p) (power p) (energy p) x.

(** [this.properties.inductance || 0.001]. *)
Definition inductanceOrDefault (p : properties) : num :=
  num_or (Some (inductance p)) (of_Q 0.001).

Definition simulate (deltaTime : num) (nodeVoltages : JsMap.t num) (this : t) : t :=
  match BaseComponent.terminals this with
  | t0 :: t1 :: _ =>
      let v1 := BaseComponent.voltageAt nodeVoltages (Terminal.id t0) in
      let v2 := BaseComponent.voltageAt nodeVoltages (Terminal.id t1) in
      let p := BaseComponent.properties this in
      let p := set_voltage (v1 - v2) p in
      (* V = L * dI/dt, so dI = V * dt / L *)
      let dI := (voltage p * Math_max deltaTime (of_Q 0.001)) / inductanceOrDefault p in
      let p := set_current (num_or (Some (current p)) (of_Q 0) + dI) p in
      (* limit the current to realistic values *)
      let p := set_current
                 (Math_max (- maxCurrent p) (Math_min (maxCurrent p) (current p))) p in
      (* E = 0.5 * L * I^2; [Math.pow(i, 2)] is the product i * i *)
      let p := set_energy
                 (of_Q 0.5 * inductanceOrDefault p * (current p * current p)) p in
      (* flux = L * I *)
      let p := set_flux (inductanceOrDefault p * current p) p in
      let p := set_power (voltage p * current p) p in
      let ts := BaseComponent.writeTerminals v1 v2 (current p)
                  (BaseComponent.terminals this) in
      BaseComponent.set_properties p (BaseComponent.set_terminals ts this)
  | _ => this
  end.

(** [checkErrors]; [Number_toString x] is the text of [x] in a template. *)
Definition checkErrors (Number_toFixed : num -> nat -> string)
    (Number_toString : num -> string)
    (Date_now : nat -> num) (this : t) : list (CircuitError num) :=
  let p := BaseComponent.properties this in
  let id := BaseComponent.id this in
  let errors : list (CircuitError num) := [] in
  (* overcurrent (saturation) *)
  let current0 := Math_abs (num_or (Some (current p)) (of_Q 0)) in
  let errors :=
    if current0 > num_or (Some (maxCurrent p)) (of_Q 10) then
      errors ++ [mk_CircuitError (id ++ "-saturation") ErrorSeverity.ERROR
                   ("Inductor core saturation: " ++ Number_toFixed current0 2
                      ++ "A exceeds maximum "
                      ++ Number_toString (num_or (Some (maxCurrent p)) (of_Q 10)) ++ "A")
                   [id] (Date_now (List.length errors)) true]
    else errors in
  (* excessive power dissipation *)
  let errors :=
    if num_or (Some (power p)) (of_Q 0) > of_Q 10 then
      errors ++ [mk_CircuitError (id ++ "-overpower") ErrorSeverity.WARNING
                   ("Inductor high power dissipation (" ++ Number_toFixed (power p) 2
                      ++ "W) may cause overheating")
                   [id] (Date_now (List.length errors)) false]
    else errors in
  errors.


End Defs.
Arguments properties : clear implicits.
Arguments t : clear implicits.
End Inductor.

Module Diode.
Section Defs.
Context {num : Type} `{JsNumber num}.

Record properties : Type := mk_properties {
  forwardVoltage : num;
  reverseBreakdown : num;
  maxCurrent : num;
  voltage : num;
  current : num;
  power : num;
  conducting : bool
}.

Definition set_voltage (x : num) (p : properties) : properties :=
  mk_properties (forwardVoltage p) (reverseBreakdown p) (maxCurrent p) x (current p) (power p) (conducting p).
Definition set_current (x : num) (p : properties) : properties :=
  mk_properties (forwardVoltage p) (reverseBreakdown p) (maxCurrent p) (voltage p) x (power p) (conducting p).
Definition set_power (x : num) (p : properties) : properties :=
  mk_properties (forwardVoltage p) (reverseBreakdown p) (maxCurrent p) (voltage p) (current p) x (conducting p).

Definition t := BaseComponent.t properties num.

Definition new (id : string) (forwardVoltage : num) : t :=
  BaseComponent.mk id ComponentType.DIODE
    [BaseComponent.createTerminal id "anode";
     BaseComponent.createTerminal id "cathode"]
    (mk_properties forwardVoltage (of_Q 50) (of_Q 1) (of_Q 0) (of_Q 0) (of_Q 0) false).

Local Open Scope js_scope.

Definition set_conducting (x : bool) (p : properties) : properties :=
  mk_properties (forwardVoltage p) (reverseBreakdown p) (maxCurrent p) (voltage p) (current p) (power p) x.

Definition simulate (deltaTime : num) (nodeVoltages : JsMap.t num) (this : t) : t :=
  match BaseComponent.terminals this with
  | t0 :: t1 :: _ =>
      let vAnode := BaseComponent.voltageAt nodeVoltages (Terminal.id t0) in
      let vCathode := BaseComponent.voltageAt nodeVoltages (Terminal.id t1) in
      let p := BaseComponent.properties this in
      (* voltage across the diode (anode - cathode) *)
      let p := set_voltage (vAnode - vCathode) p in
      let p :=
        if voltage p > num_or (Some (forwardVoltage p)) (of_Q 0.7) then
          (* forward bias: conducting *)
          let p := set_conducting true p in
          let excessVoltage :=
            voltage p - num_or (Some (forwardVoltage p)) (of_Q 0.7) in
          set_current
            (Math_min (excessVoltage * of_Q 10)
               (num_or (Some (maxCurrent p)) (of_Q 1))) p
        else if voltage p < - num_or (Some (reverseBreakdown p)) (of_Q 50) then
          (* reverse breakdown *)
          let p := set_conducting true p in
          let breakdownVoltage :=
            Math_abs (voltage p) - num_or (Some (reverseBreakdown p)) (of_Q 50) in
          set_current ((- breakdownVoltage) * of_Q 0.1) p
        else
          (* reverse bias or below threshold: blocking *)
          set_current (of_Q 0) (set_conducting false p) in
      let p := set_power (Math_abs (voltage p * current p)) p in
      let ts := BaseComponent.writeTerminals vAnode vCathode (current p)
                  (BaseComponent.terminals this) in
      BaseComponent.set_properties p (BaseComponent.set_terminals ts this)
  | _ => this
  end.


End Defs.
Arguments properties : clear implicits.
Arguments t : clear implicits.
End Diode.

Module LED.
Section Defs.
Context {num : Type} `{JsNumber num}.

Record properties : Type := mk_properties {
  color : string;
  forwardVoltage : num;
  maxCurrent : num;
  voltage : num;
  current : num;
  brightness : num;
  power : num
}.

Definition set_voltage (x : num) (p : properties) : properties :=
  mk_properties (color p) (forwardVoltage p) (maxCurrent p) x (current p) (brightness p) (power p).
Definition set_current (x : num) (p : properties) : properties :=
  mk_properties (color p) (forwardVoltage p) (maxCurrent p) (voltage p) x (brightness p) (power p).
Definition set_power (x : num) (p : properties) : properties :=
  mk_properties (color p) (forwardVoltage p) (maxCurrent p) (voltage p) (current p) (brightness p) x.

Definition t := BaseComponent.t properties num.

Definition new (id : string) (color : string) (forwardVoltage : num) : t :=
  BaseComponent.mk id ComponentType.LED
    [BaseComponent.createTerminal id "anode";
     BaseComponent.createTerminal id "cathode"]
    (mk_properties color forwardVoltage (of_Q 0.02) (of_Q 0) (of_Q 0) (of_Q 0) (of_Q 0)).

Local Open Scope js_scope.

Definition set_brightness (x : num) (p : properties) : properties :=
  mk_properties (color p) (forwardVoltage p) (maxCurrent p) (voltage p) (current p) x (power p).

Definition simulate (deltaTime : num) (nodeVoltages : JsMap.t num) (this : t) : t :=
  match BaseComponent.terminals this with
  | t0 :: t1 :: _ =>
      let vAnode := BaseComponent.voltageAt nodeVoltages (Terminal.id t0) in
      let vCathode := BaseComponent.voltageAt nodeVoltages (Terminal.id t1) in
      let p := BaseComponent.properties this in
      (* voltage across the LED (anode - cathode) *)
      let p := set_voltage (vAnode - vCathode) p in
      let p :=
        (* the LED conducts only in forward bias *)
        if voltage p > num_or (Some (forwardVoltage p)) (of_Q 2) then
          let excessVoltage := voltage p - num_or (Some (forwardVoltage p)) (of_Q 2) in
          let p := set_current
                     (Math_min (excessVoltage * of_Q 0.01)
                        (num_or (Some (maxCurrent p)) (of_Q 0.02))) p in
          (* brightness proportional to current *)
          set_brightness
            (Math_min (current p / num_or (Some (maxCurrent p)) (of_Q 0.02)) (of_Q 1)) p
        else
          set_brightness (of_Q 0) (set_current (of_Q 0) p) in
      let p := set_power (voltage p * current p) p in
      let ts := BaseComponent.writeTerminals vAnode vCathode (current p)
                  (BaseComponent.terminals this) in
      BaseComponent.set_properties p (BaseComponent.set_terminals ts this)
  | _ => this
  end.

(** [checkErrors]; the three properties it reads are always defined, so
    the [?? default] of the source never applies. *)
Definition checkErrors (Number_toFixed : num -> nat -> string)
    (Date_now : nat -> num) (this : t) : list (CircuitError num) :=
  let p := BaseComponent.properties this in
  let id := BaseComponent.id this in
  let errors : list (CircuitError num) := [] in
  (* overcurrent *)
  let errors :=
    if current p > maxCurrent p then
      errors ++ [mk_CircuitError (id ++ "-overcurrent") ErrorSeverity.ERROR
                   ("LED overcurrent: " ++ Number_toFixed (current p * of_Q 1000) 1
                      ++ "mA exceeds maximum "
                      ++ Number_toFixed (maxCurrent p * of_Q 1000) 1 ++ "mA")
                   [id] (Date_now (List.length errors)) true]
    else errors in
  (* reverse voltage *)
  let errors :=
    if voltage p < of_Q (-5) then
      errors ++ [mk_CircuitError (id ++ "-reverse") ErrorSeverity.WARNING
                   ("LED reverse voltage (" ++ Number_toFixed (voltage p) 1
                      ++ "V) may damage component")
                   [id] (Date_now (List.length errors)) false]
    else errors in
  errors.


End Defs.
Arguments properties : clear implicits.
Arguments t : clear implicits.
End LED.

Module Fuse.
Section Defs.
Context {num : Type} `{JsNumber num}.
Local Open Scope js_scope.

Record properties : Type := mk_properties {
  rating : num;
  voltage : num;
  current : num;
  power : num;
  blown : bool;
  resistance : num;
  heatAccumulated : num;
  maxCurrent : num
}.

Definition set_voltage (x : num) (p : properties) : properties :=
  mk_properties (rating p) x (current p) (power p) (blown p) (resistance p) (heatAccumulated p) (maxCurrent p).
Definition set_current (x : num) (p : properties) : properties :=
  mk_properties (rating p) (voltage p) x (power p) (blown p) (resistance p) (heatAccumulated p) (maxCurrent p).
Definition set_power (x : num) (p : properties) : properties :=
  mk_properties (rating p) (voltage p) (current p) x (blown p) (resistance p) (heatAccumulated p) (maxCurrent p).
Definition set_blown (x : bool) (p : properties) : properties :=
  mk_properties (rating p) (voltage p) (current p) (power p) x (resistance p) (heatAccumulated p) (maxCurrent p).
Definition set_resistance (x : num) (p : properties) : properties :=
  mk_properties (rating p) (voltage p) (current p) (power p) (blown p) x (heatAccumulated p) (maxCurrent p).
Definition set_heatAccumulated (x : num) (p : properties) : properties :=
  mk_properties (rating p) (voltage p) (current p) (power p) (blown p) (resistance p) x (maxCurrent p).
Definition set_maxCurrent (x : num) (p : properties) : properties :=
  mk_properties (rating p) (voltage p) (current p) (power p) (blown p) (resistance p) (heatAccumulated p) x.

Definition t := BaseComponent.t properties num.

Definition new (id : string) (rating : num) : t :=
  BaseComponent.mk id ComponentType.FUSE
    [BaseComponent.createTerminal id "in";
     BaseComponent.createTerminal id "out"]
    (mk_properties rating (of_Q 0) (of_Q 0) (of_Q 0) false (of_Q 0.01) (of_Q 0) rating).

Definition blowThreshold : num := of_Q 2.

Definition simulate (deltaTime : num) (nodeVoltages : JsMap.t num) (this : t) : t :=
  match BaseComponent.terminals this with
  | t0 :: t1 :: _ =>
      let v1 := BaseComponent.voltageAt nodeVoltages (Terminal.id t0) in
      let v2 := BaseComponent.voltageAt nodeVoltages (Terminal.id t1) in
      let p := BaseComponent.properties this in
      let p := set_voltage (v1 - v2) p in
      (* Sync maxCurrent with rating *)
      let p := set_maxCurrent (rating p) p in
      let p :=
        if blown p then
          (* blown: open circuit *)
          let p := set_resistance (of_Q 1000000000) p in
          let p := set_current (of_Q 0) p in
          set_power (of_Q 0) p
        else
          let p := set_resistance (of_Q 0.01) p in
          let p := set_current (voltage p / resistance p) p in
          let p := set_power (Math_abs (voltage p * current p)) p in
          (* I^2 t heat accumulation *)
          let currentRatio := Math_abs (current p) / rating p in
          if currentRatio > of_Q 1 then
            let p := set_heatAccumulated
                       (heatAccumulated p + (currentRatio * currentRatio) * deltaTime) p in
            if heatAccumulated p > blowThreshold then set_blown true p else p
          else
            set_heatAccumulated
              (Math_max (of_Q 0) (heatAccumulated p - deltaTime * of_Q 0.5)) p in
      let ts := BaseComponent.writeTerminals v1 v2 (current p)
                  (BaseComponent.terminals this) in
      BaseComponent.set_properties p (BaseComponent.set_terminals ts this)
  | _ => this
  end.

(** [checkErrors]; the text of the rating ([`${rating}`]) and the clock
    reading [Date.now()] come from the host. *)
Definition checkErrors (Number_toString : num -> string) (Date_now : num) (this : t)
  : list (CircuitError num) :=
  if blown (BaseComponent.properties this) then
    [mk_CircuitError
       (BaseComponent.id this ++ "-blown")
       ErrorSeverity.ERROR
       ("Fuse blown! Overcurrent protection activated (rated "
          ++ Number_toString (rating (BaseComponent.properties this)) ++ "A)")
       [BaseComponent.id this]
       Date_now
       true]
  else [].

(** [replace()]: the external reset. *)
Definition replace (this : t) : t :=
  BaseComponent.set_properties
    (set_heatAccumulated (of_Q 0) (set_blown false (BaseComponent.properties this)))
    this.

End Defs.
Arguments properties : clear implicits.
Arguments t : clear implicits.
End Fuse.

Module VoltageSource.
Section Defs.
Context {num : Type} `{JsNumber num}.
Local Open Scope js_scope.

Record properties : Type := mk_properties {
  voltage : num;
  current : num;
  maxCurrent : num;
  waveform : option (WaveformConfig num);
  power : num;
  maxPower : option num
}.

Definition set_voltage (x : num) (p : properties) : properties :=
  mk_properties x (current p) (maxCurrent p) (waveform p) (power p) (maxPower p).
Definition set_current (x : num) (p : properties) : properties :=
  mk_properties (voltage p) x (maxCurrent p) (waveform p) (power p) (maxPower p).
Definition set_power (x : num) (p : properties) : properties :=
  mk_properties (voltage p) (current p) (maxCurrent p) (waveform p) x (maxPower p).
Definition set_maxPower (x : option num) (p : properties) : properties :=
  mk_properties (voltage p) (current p) (maxCurrent p) (waveform p) (power p) x.

Definition t := BaseComponent.t properties num.

Definition new (id : string) : t :=
  BaseComponent.mk id ComponentType.VOLTAGE_SOURCE
    [BaseComponent.createTerminal id "positive";
     BaseComponent.createTerminal id "negative"]
    (mk_properties (of_Q 5) (of_Q 0) (of_Q 1)
       (Some (mk_WaveformConfig WaveformType.DC (of_Q 60) (of_Q 0.5) (of_Q 0) (of_Q 0)))
       (of_Q 0) None).

(** The host's [Math.sin] and [Math.PI], and the value that the call
    [performance.now()] returns during this tick. *)
Variable Math_sin : num -> num.
Variable Math_PI : num.
Variable performance_now : num.

(** The waveform generator: the [switch (waveform.type)] of [simulate]. *)
Definition waveformOutput (time voltage : num) (waveform : WaveformConfig num) : num :=
  match wf_type waveform with
  | WaveformType.DC => voltage
  | WaveformType.SINE =>
      voltage * Math_sin (of_Q 2 * Math_PI * frequency waveform * time + phase waveform)
      + offset waveform
  | WaveformType.SQUARE =>
      let squarePhase :=
        mod1 (frequency waveform * time + phase waveform / (of_Q 2 * Math_PI)) in
      (if squarePhase < dutyCycle waveform then voltage else - voltage)
      + offset waveform
  | WaveformType.PULSE =>
      let pulsePhase :=
        mod1 (frequency waveform * time + phase waveform / (of_Q 2 * Math_PI)) in
      (if pulsePhase < dutyCycle waveform then voltage else of_Q 0)
      + offset waveform
  | WaveformType.TRIANGLE =>
      let triPhase :=
        mod1 (frequency waveform * time + phase waveform / (of_Q 2 * Math_PI)) in
      (if triPhase < of_Q 0.5
       then voltage * (of_Q 4 * triPhase - of_Q 1)
       else voltage * (of_Q 3 - of_Q 4 * triPhase))
      + offset waveform
  end.

Definition simulate (_deltaTime : num) (nodeVoltages : JsMap.t num) (this : t) : t :=
  match BaseComponent.terminals this with
  | t0 :: t1 :: rest =>
      let time := performance_now / of_Q 1000 in
      let p := BaseComponent.properties this in
      let voltage0 := num_or (Some (voltage p)) (of_Q 0) in
      let outputVoltage :=
        match waveform p with
        | Some w => waveformOutput time voltage0 w
        | None => of_Q 0
        end in
      let p := set_voltage outputVoltage p in
      let ts := Terminal.set_voltage outputVoltage t0
                :: Terminal.set_voltage (of_Q 0) t1 :: rest in
      let vPos := BaseComponent.voltageAt nodeVoltages (Terminal.id t0) in
      let vNeg := BaseComponent.voltageAt nodeVoltages (Terminal.id t1) in
      let p := set_current (Math_abs (vPos - vNeg) * of_Q 0.1) p in
      let p := set_maxPower
                 (Some (Math_abs (voltage p) * num_or (Some (maxCurrent p)) (of_Q 1))) p in
      let p := set_power (Math_abs (voltage p * current p)) p in
      BaseComponent.set_properties p (BaseComponent.set_terminals ts this)
  | _ => this
  end.

End Defs.
Arguments properties : clear implicits.
Arguments t : clear implicits.
End VoltageSource.

Module Battery.
Section Defs.
Context {num : Type} `{JsNumber num}.
Local Open Scope js_scope.

Record properties : Type := mk_properties {
  voltage : num;
  capacity : num;
  chargeRemaining : num;
  current : num;
  power : num;
  chargePercent : num;
  internalResistance : num;
  maxCurrent : num;
  maxPower : num
}.

Definition set_voltage (x : num) (p : properties) : properties :=
  mk_properties x (capacity p) (chargeRemaining p) (current p) (power p) (chargePercent p) (internalResistance p) (maxCurrent p) (maxPower p).
Definition set_chargeRemaining (x : num) (p : properties) : properties :=
  mk_properties (voltage p) (capacity p) x (current p) (power p) (chargePercent p) (internalResistance p) (maxCurrent p) (maxPower p).
Definition set_current (x : num) (p : properties) : properties :=
  mk_properties (voltage p) (capacity p) (chargeRemaining p) x (power p) (chargePercent p) (internalResistance p) (maxCurrent p) (maxPower p).
Definition set_power (x : num) (p : properties) : properties :=
  mk_properties (voltage p) (capacity p) (chargeRemaining p) (current p) x (chargePercent p) (internalResistance p) (maxCurrent p) (maxPower p).
Definition set_chargePercent (x : num) (p : properties) : properties :=
  mk_properties (voltage p) (capacity p) (chargeRemaining p) (current p) (power p) x (internalResistance p) (maxCurrent p) (maxPower p).

Definition t := BaseComponent.t properties num.

Definition new (id : string) (voltage capacity : num) : t :=
  BaseComponent.mk id ComponentType.BATTERY
    [BaseComponent.createTerminal id "positive";
     BaseComponent.createTerminal id "negative"]
    (mk_properties voltage capacity capacity (of_Q 0) (of_Q 0) (of_Q 100)
       (of_Q 0.1) (of_Q 5) (of_Q 45)).

Definition simulate (deltaTime : num) (nodeVoltages : JsMap.t num) (this : t) : t :=
  match BaseComponent.terminals this with
  | t0 :: t1 :: _ =>
      let vPos := BaseComponent.voltageAt nodeVoltages (Terminal.id t0) in
      let vNeg := BaseComponent.voltageAt nodeVoltages (Terminal.id t1) in
      let p := BaseComponent.properties this in
      (* voltage source with internal resistance *)
      let p := set_current ((voltage p - (vPos - vNeg)) / internalResistance p) p in
      let p := set_power (Math_abs ((vPos - vNeg) * current p)) p in
      let p :=
        if current p > of_Q 0 then
          (* convert to mAh *)
          let chargeUsed := (current p * deltaTime * of_Q 1000) / of_Q 3600 in
          let p := set_chargeRemaining
                     (Math_max (of_Q 0) (chargeRemaining p - chargeUsed)) p in
          let p := set_chargePercent ((chargeRemaining p / capacity p) * of_Q 100) p in
          (* voltage drops as the battery depletes *)
          let depletionFactor := Math_max (of_Q 0.7) (chargePercent p / of_Q 100) in
          set_voltage (voltage p * depletionFactor) p
        else p in
      let ts := BaseComponent.writeTerminals vPos vNeg (current p)
                  (BaseComponent.terminals this) in
      BaseComponent.set_properties p (BaseComponent.set_terminals ts this)
  | _ => this
  end.

(** [recharge()]: the external reset. *)
Definition recharge (this : t) : t :=
  let p := BaseComponent.properties this in
  BaseComponent.set_properties
    (set_chargePercent (of_Q 100) (set_chargeRemaining (capacity p) p)) this.

(** [checkErrors]; [Number_toFixed x d] is the text [x.toFixed(d)], and
    [Date_now k] the clock reading of the push that follows [k] errors. *)
Definition checkErrors (Number_toFixed : num -> nat -> string)
    (Date_now : nat -> num) (this : t) : list (CircuitError num) :=
  let p := BaseComponent.properties this in
  let id := BaseComponent.id this in
  let errors : list (CircuitError num) := [] in
  (* battery depletion *)
  let errors :=
    if num_or (Some (chargePercent p)) (of_Q 0) < of_Q 5 then
      errors ++ [mk_CircuitError (id ++ "-depleted") ErrorSeverity.ERROR
                   ("Battery depleted (" ++ Number_toFixed (chargePercent p) 1
                      ++ "% remaining)")
                   [id] (Date_now (List.length errors)) true]
    else errors in
  (* overcurrent *)
  let current0 := Math_abs (num_or (Some (current p)) (of_Q 0)) in
  let errors :=
    if current0 > num_or (Some (maxCurrent p)) (of_Q 5) then
      errors ++ [mk_CircuitError (id ++ "-overcurrent") ErrorSeverity.CRITICAL
                   ("DANGER! Battery overcurrent (" ++ Number_toFixed current0 2
                      ++ "A)! Risk of explosion!")
                   [id] (Date_now (List.length errors)) true]
    else errors in
  errors.


End Defs.
Arguments properties : clear implicits.
Arguments t : clear implicits.
End Battery.

Module Ground.
Section Defs.
Context {num : Type} `{JsNumber num}.

(* The constructor sets [voltage] only; [current] and [power] appear when
    the store assigns them. *)
Record properties : Type := mk_properties {
  voltage : num;
  current : option num;
  power : option num
}.

Definition set_voltage (x : num) (p : properties) : properties :=
  mk_properties x (current p) (power p).
Definition set_current (x : option num) (p : properties) : properties :=
  mk_properties (voltage p) x (power p).
Definition set_power (x : option num) (p : properties) : properties :=
  mk_properties (voltage p) (current p) x.

Definition t := BaseComponent.t properties num.

(** A ground reference has a single terminal. *)
Definition new (id : string) : t :=
  BaseComponent.mk id ComponentType.GROUND
    [BaseComponent.createTerminal id "ground"]
    (mk_properties (of_Q 0) None None).

(** Ground is always 0 V. *)
Definition simulate (_deltaTime : num) (_nodeVoltages : JsMap.t num) (this : t) : t :=
  let p := set_voltage (of_Q 0) (BaseComponent.properties this) in
  let ts :=
    match BaseComponent.terminals this with
    | t0 :: rest => Terminal.set_voltage (of_Q 0) t0 :: rest
    | [] => []
    end in
  BaseComponent.set_properties p (BaseComponent.set_terminals ts this).

Definition checkErrors (this : t) : list (CircuitError num) := [].


End Defs.
Arguments properties : clear implicits.
Arguments t : clear implicits.
End Ground.

Module Switch.
Section Defs.
Context {num : Type} `{JsNumber num}.

(* [power] is not set by the constructor; the store assigns it. *)
Record properties : Type := mk_properties {
  closed : bool;
  voltage : num;
  current : num;
  resistance : num;
  maxCurrent : num;
  power : option num
}.

Definition set_voltage (x : num) (p : properties) : properties :=
  mk_properties (closed p) x (current p) (resistance p) (maxCurrent p) (power p).
Definition set_current (x : num) (p : properties) : properties :=
  mk_properties (closed p) (voltage p) x (resistance p) (maxCurrent p) (power p).
Definition set_power (x : option num) (p : properties) : properties :=
  mk_properties (closed p) (voltage p) (current p) (resistance p) (maxCurrent p) x.

Definition t := BaseComponent.t properties num.

Definition new (id : string) (closed : bool) : t :=
  BaseComponent.mk id ComponentType.SWITCH
    [BaseComponent.createTerminal id "in";
     BaseComponent.createTerminal id "out"]
    (mk_properties closed (of_Q 0) (of_Q 0)
       (if closed then of_Q 0.01 else of_Q 1000000000) (of_Q 10) None).

Local Open Scope js_scope.

Definition set_closed (x : bool) (p : properties) : properties :=
  mk_properties x (voltage p) (current p) (resistance p) (maxCurrent p) (power p).
Definition set_resistance (x : num) (p : properties) : properties :=
  mk_properties (closed p) (voltage p) (current p) x (maxCurrent p) (power p).

Definition simulate (_deltaTime : num) (nodeVoltages : JsMap.t num) (this : t) : t :=
  match BaseComponent.terminals this with
  | t0 :: t1 :: _ =>
      let v1 := BaseComponent.voltageAt nodeVoltages (Terminal.id t0) in
      let v2 := BaseComponent.voltageAt nodeVoltages (Terminal.id t1) in
      let p := BaseComponent.properties this in
      let p := set_voltage (v1 - v2) p in
      (* resistance based on the switch state *)
      let resistance := if closed p then of_Q 0.01 else of_Q 1000000000 in
      let p := set_resistance resistance p in
      let p := set_current (voltage p / resistance) p in
      let ts := BaseComponent.writeTerminals v1 v2 (current p)
                  (BaseComponent.terminals this) in
      BaseComponent.set_properties p (BaseComponent.set_terminals ts this)
  | _ => this
  end.

Definition checkErrors (Number_toFixed : num -> nat -> string)
    (Number_toString : num -> string)
    (Date_now : nat -> num) (this : t) : list (CircuitError num) :=
  let p := BaseComponent.properties this in
  let id := BaseComponent.id this in
  let errors : list (CircuitError num) := [] in
  (* overcurrent (arcing/melting) *)
  let current0 := Math_abs (num_or (Some (current p)) (of_Q 0)) in
  let errors :=
    if current0 > num_or (Some (maxCurrent p)) (of_Q 10) then
      errors ++ [mk_CircuitError (id ++ "-overcurrent") ErrorSeverity.CRITICAL
                   ("Switch current (" ++ Number_toFixed current0 2
                      ++ "A) exceeds rating (" ++ Number_toString (maxCurrent p) ++ "A)!")
                   [id] (Date_now (List.length errors)) true]
    else errors in
  errors.

Definition toggle (this : t) : t :=
  let p := BaseComponent.properties this in
  BaseComponent.set_properties (set_closed (negb (closed p)) p) this.


End Defs.
Arguments properties : clear implicits.
Arguments t : clear implicits.
End Switch.

Module Potentiometer.
Section Defs.
Context {num : Type} `{JsNumber num}.
Local Open Scope js_scope.

Record properties : Type := mk_properties {
  maxResistance : num;
  position : num;
  value : num;
  voltage : num;
  current : num;
  power : num;
  temperature : num;
  maxPower : num
}.

Definition set_voltage (x : num) (p : properties) : properties :=
  mk_properties (maxResistance p) (position p) (value p) x (current p) (power p) (temperature p) (maxPower p).
Definition set_current (x : num) (p : properties) : properties :=
  mk_properties (maxResistance p) (position p) (value p) (voltage p) x (power p) (temperature p) (maxPower p).
Definition set_power (x : num) (p : properties) : properties :=
  mk_properties (maxResistance p) (position p) (value p) (voltage p) (current p) x (temperature p) (maxPower p).

Definition t := BaseComponent.t properties num.

Definition new (id : string) (maxResistance position_percent : num) : t :=
  BaseComponent.mk id ComponentType.POTENTIOMETER
    [BaseComponent.createTerminal id "terminal1";
     BaseComponent.createTerminal id "terminal2"]
    (mk_properties maxResistance position_percent
       ((maxResistance * position_percent) / of_Q 100)
       (of_Q 0) (of_Q 0) (of_Q 0) (of_Q 25) (of_Q 0.5)).

Definition set_position (x : num) (p : properties) : properties :=
  mk_properties (maxResistance p) x (value p) (voltage p) (current p) (power p) (temperature p) (maxPower p).
Definition set_value (x : num) (p : properties) : properties :=
  mk_properties (maxResistance p) (position p) x (voltage p) (current p) (power p) (temperature p) (maxPower p).
Definition set_temperature (x : num) (p : properties) : properties :=
  mk_properties (maxResistance p) (position p) (value p) (voltage p) (current p) (power p) x (maxPower p).

Definition simulate (deltaTime : num) (nodeVoltages : JsMap.t num) (this : t) : t :=
  match BaseComponent.terminals this with
  | t0 :: t1 :: _ =>
      let v1 := BaseComponent.voltageAt nodeVoltages (Terminal.id t0) in
      let v2 := BaseComponent.voltageAt nodeVoltages (Terminal.id t1) in
      let p := BaseComponent.properties this in
      let p := set_voltage (v1 - v2) p in
      (* resistance from the wiper position *)
      let p := set_value ((maxResistance p * position p) / of_Q 100) p in
      (* prevent division by zero *)
      let resistance := Math_max (value p) (of_Q 0.01) in
      let p := set_current (voltage p / resistance) p in
      let p := set_power (Math_abs (voltage p * current p)) p in
      (* temperature simulation *)
      let ambientTemp := of_Q 25 in
      let thermalResistance := of_Q 50 in
      let power0 := num_or (Some (power p)) (of_Q 0) in
      let currentTemp := num_or (Some (temperature p)) (of_Q 25) in
      let targetTemp := ambientTemp + power0 * thermalResistance in
      let tempChange := ((targetTemp - currentTemp) * deltaTime) * of_Q 2 in
      let p := set_temperature (currentTemp + tempChange) p in
      let ts := BaseComponent.writeTerminals v1 v2 (current p)
                  (BaseComponent.terminals this) in
      BaseComponent.set_properties p (BaseComponent.set_terminals ts this)
  | _ => this
  end.

Definition checkErrors (Number_toFixed : num -> nat -> string)
    (Number_toString : num -> string)
    (Date_now : nat -> num) (this : t) : list (CircuitError num) :=
  let p := BaseComponent.properties this in
  let id := BaseComponent.id this in
  let errors : list (CircuitError num) := [] in
  (* excessive power *)
  let maxPower := num_or (Some (maxPower p)) (of_Q 0.5) in
  let power0 := num_or (Some (power p)) (of_Q 0) in
  let errors :=
    if power0 > maxPower * of_Q 10 then
      errors ++ [mk_CircuitError (id ++ "-critical-overpower") ErrorSeverity.CRITICAL
                   ("DANGER! Potentiometer power (" ++ Number_toFixed (power p) 2
                      ++ "W) far exceeds safe limits!")
                   [id] (Date_now (List.length errors)) true]
    else if power0 > maxPower then
      errors ++ [mk_CircuitError (id ++ "-overpower") ErrorSeverity.WARNING
                   ("Potentiometer power (" ++ Number_toFixed (power p) 2
                      ++ "W) exceeds rating (" ++ Number_toString maxPower ++ "W)")
                   [id] (Date_now (List.length errors)) false]
    else errors in
  errors.

Definition setPosition (percent : num) (this : t) : t :=
  let p := BaseComponent.properties this in
  BaseComponent.set_properties
    (set_position (Math_max (of_Q 0) (Math_min (of_Q 100) percent)) p) this.


End Defs.
Arguments properties : clear implicits.
Arguments t : clear implicits.
End Potentiometer.

Module Lamp.
Section Defs.
Context {num : Type} `{JsNumber num}.
Local Open Scope js_scope.

Record properties : Type := mk_properties {
  voltageRating : num;
  powerRating : num;
  resistance : num;
  voltage : num;
  current : num;
  power : num;
  brightness : num;
  broken : bool;
  maxPower : num
}.

Definition set_resistance (x : num) (p : properties) : properties :=
  mk_properties (voltageRating p) (powerRating p) x (voltage p) (current p) (power p) (brightness p) (broken p) (maxPower p).
Definition set_voltage (x : num) (p : properties) : properties :=
  mk_properties (voltageRating p) (powerRating p) (resistance p) x (current p) (power p) (brightness p) (broken p) (maxPower p).
Definition set_current (x : num) (p : properties) : properties :=
  mk_properties (voltageRating p) (powerRating p) (resistance p) (voltage p) x (power p) (brightness p) (broken p) (maxPower p).
Definition set_power (x : num) (p : properties) : properties :=
  mk_properties (voltageRating p) (powerRating p) (resistance p) (voltage p) (current p) x (brightness p) (broken p) (maxPower p).
Definition set_brightness (x : num) (p : properties) : properties :=
  mk_properties (voltageRating p) (powerRating p) (resistance p) (voltage p) (current p) (power p) x (broken p) (maxPower p).
Definition set_broken (x : bool) (p : properties) : properties :=
  mk_properties (voltageRating p) (powerRating p) (resistance p) (voltage p) (current p) (power p) (brightness p) x (maxPower p).
Definition set_maxPower (x : num) (p : properties) : properties :=
  mk_properties (voltageRating p) (powerRating p) (resistance p) (voltage p) (current p) (power p) (brightness p) (broken p) x.

Definition t := BaseComponent.t properties num.

Definition new (id : string) (voltageRating powerRating : num) : t :=
  (* R = V^2 / P *)
  let resistance := (voltageRating * voltageRating) / powerRating in
  BaseComponent.mk id ComponentType.LAMP
    [BaseComponent.createTerminal id "t1";
     BaseComponent.createTerminal id "t2"]
    (mk_properties voltageRating powerRating resistance
       (of_Q 0) (of_Q 0) (of_Q 0) (of_Q 0) false
       (powerRating * of_Q 1.5)).

(** Sync resistance with ratings if they changed. *)
Definition syncRatings (p : properties) : properties :=
  let targetR := (voltageRating p * voltageRating p) / powerRating p in
  if Math_abs (resistance p - targetR) > of_Q 0.01 then
    let p := set_resistance targetR p in
    set_maxPower (powerRating p * of_Q 1.5) p
  else p.

Definition simulate (_deltaTime : num) (nodeVoltages : JsMap.t num) (this : t) : t :=
  match BaseComponent.terminals this with
  | t0 :: t1 :: _ =>
      let v1 := BaseComponent.voltageAt nodeVoltages (Terminal.id t0) in
      let v2 := BaseComponent.voltageAt nodeVoltages (Terminal.id t1) in
      let p := BaseComponent.properties this in
      let p := set_voltage (v1 - v2) p in
      let p := syncRatings p in
      let p :=
        if broken p then
          let p := set_resistance (of_Q 1000000000) p in
          let p := set_current (of_Q 0) p in
          let p := set_power (of_Q 0) p in
          set_brightness (of_Q 0) p
        else
          let p := set_current (voltage p / resistance p) p in
          let p := set_power (Math_abs (voltage p * current p)) p in
          let powerRatio := power p / powerRating p in
          let p := set_brightness (Math_min (Math_sqrt powerRatio) (of_Q 1.5)) p in
          (* Burn out check *)
          if power p > maxPower p then set_broken true p else p in
      let ts := BaseComponent.writeTerminals v1 v2 (current p)
                  (BaseComponent.terminals this) in
      BaseComponent.set_properties p (BaseComponent.set_terminals ts this)
  | _ => this
  end.

(** [checkErrors]; [Number_toFixed x d] is the text [x.toFixed(d)]. *)
Definition checkErrors (Number_toFixed : num -> nat -> string)
    (Date_now : nat -> num) (this : t) : list (CircuitError num) :=
  let p := BaseComponent.properties this in
  let id := BaseComponent.id this in
  if broken p then
    [mk_CircuitError (id ++ "-broken") ErrorSeverity.ERROR
       ("Lamp burned out! (Exceeded " ++ Number_toFixed (maxPower p) 1 ++ "W)")
       [id] (Date_now 0) true]
  else [].


End Defs.
Arguments properties : clear implicits.
Arguments t : clear implicits.
End Lamp.

(* ================================================================== *)
(** * The store's [Component] and [ComponentFactory]                   *)
(* ================================================================== *)

Module Component.
Section Defs.
Context {num : Type} `{JsNumber num}.

(** [comp.properties]: the property record of one of the twelve classes. *)
Inductive Properties : Type :=
| PResistor (p : Resistor.properties num)
| PCapacitor (p : Capacitor.properties num)
| PInductor (p : Inductor.properties num)
| PDiode (p : Diode.properties num)
| PLED (p : LED.properties num)
| PFuse (p : Fuse.properties num)
| PVoltageSource (p : VoltageSource.properties num)
| PBattery (p : Battery.properties num)
| PGround (p : Ground.properties num)
| PSwitch (p : Switch.properties num)
| PPotentiometer (p : Potentiometer.properties num)
| PLamp (p : Lamp.properties num).

Definition t := BaseComponent.t Properties num.

(** A class instance seen as a [Component] of the store. *)
Definition of_instance {P : Type} (inj : P -> Properties) (c : BaseComponent.t P num) : t :=
  BaseComponent.mk (BaseComponent.id c) (BaseComponent.type c)
    (BaseComponent.terminals c) (inj (BaseComponent.properties c)).

(** Reads of [comp.properties.<field>]; [None] is [undefined]. *)
Definition value (p : Properties) : option num :=
  match p with
  | PResistor q => Some (Resistor.value q)
  | PPotentiometer q => Some (Potentiometer.value q)
  | _ => None
  end.

Definition closed (p : Properties) : option bool :=
  match p with PSwitch q => Some (Switch.closed q) | _ => None end.

Definition blown (p : Properties) : option bool :=
  match p with PFuse q => Some (Fuse.blown q) | _ => None end.

Definition resistance (p : Properties) : option num :=
  match p with
  | PFuse q => Some (Fuse.resistance q)
  | PSwitch q => Some (Switch.resistance q)
  | PLamp q => Some (Lamp.resistance q)
  | _ => None
  end.

Definition voltage (p : Properties) : option num :=
  match p with
  | PResistor q => Some (Resistor.voltage q)
  | PCapacitor q => Some (Capacitor.voltage q)
  | PInductor q => Some (Inductor.voltage q)
  | PDiode q => Some (Diode.voltage q)
  | PLED q => Some (LED.voltage q)
  | PFuse q => Some (Fuse.voltage q)
  | PVoltageSource q => Some (VoltageSource.voltage q)
  | PBattery q => Some (Battery.voltage q)
  | PGround q => Some (Ground.voltage q)
  | PSwitch q => Some (Switch.voltage q)
  | PPotentiometer q => Some (Potentiometer.voltage q)
  | PLamp q => Some (Lamp.voltage q)
  end.

(** Writes of [comp.properties.voltage], [.current] and [.power]. *)
Definition set_voltage (x : num) (p : Properties) : Properties :=
  match p with
  | PResistor q => PResistor (Resistor.set_voltage x q)
  | PCapacitor q => PCapacitor (Capacitor.set_voltage x q)
  | PInductor q => PInductor (Inductor.set_voltage x q)
  | PDiode q => PDiode (Diode.set_voltage x q)
  | PLED q => PLED (LED.set_voltage x q)
  | PFuse q => PFuse (Fuse.set_voltage x q)
  | PVoltageSource q => PVoltageSource (VoltageSource.set_voltage x q)
  | PBattery q => PBattery (Battery.set_voltage x q)
  | PGround q => PGround (Ground.set_voltage x q)
  | PSwitch q => PSwitch (Switch.set_voltage x q)
  | PPotentiometer q => PPotentiometer (Potentiometer.set_voltage x q)
  | PLamp q => PLamp (Lamp.set_voltage x q)
  end.

Definition set_current (x : num) (p : Properties) : Properties :=
  match p with
  | PResistor q => PResistor (Resistor.set_current x q)
  | PCapacitor q => PCapacitor (Capacitor.set_current x q)
  | PInductor q => PInductor (Inductor.set_current x q)
  | PDiode q => PDiode (Diode.set_current x q)
  | PLED q => PLED (LED.set_current x q)
  | PFuse q => PFuse (Fuse.set_current x q)
  | PVoltageSource q => PVoltageSource (VoltageSource.set_current x q)
  | PBattery q => PBattery (Battery.set_current x q)
  | PGround q => PGround (Ground.set_current (Some x) q)
  | PSwitch q => PSwitch (Switch.set_current x q)
  | PPotentiometer q => PPotentiometer (Potentiometer.set_current x q)
  | PLamp q => PLamp (Lamp.set_current x q)
  end.

Definition set_power (x : num) (p : Properties) : Properties :=
  match p with
  | PResistor q => PResistor (Resistor.set_power x q)
  | PCapacitor q => PCapacitor (Capacitor.set_power x q)
  | PInductor q => PInductor (Inductor.set_power x q)
  | PDiode q => PDiode (Diode.set_power x q)
  | PLED q => PLED (LED.set_power x q)
  | PFuse q => PFuse (Fuse.set_power x q)
  | PVoltageSource q => PVoltageSource (VoltageSource.set_power x q)
  | PBattery q => PBattery (Battery.set_power x q)
  | PGround q => PGround (Ground.set_power (Some x) q)
  | PSwitch q => PSwitch (Switch.set_power (Some x) q)
  | PPotentiometer q => PPotentiometer (Potentiometer.set_power x q)
  | PLamp q => PLamp (Lamp.set_power x q)
  end.

End Defs.
Arguments Properties : clear implicits.
Arguments t : clear implicits.
End Component.

Module ComponentFactory.
Section Defs.
Context {num : Type} `{JsNumber num}.
Import Component.

(** [createComponent(id, type, position)]: [None] is the [null] returned
    for a type that is not implemented. *)
Definition createComponent (id : string) (type : ComponentType.t) : option (Component.t num) :=
  match type with
  | ComponentType.RESISTOR =>
      Some (of_instance PResistor (Resistor.new id (of_Q 1000)))
  | ComponentType.CAPACITOR =>
      Some (of_instance PCapacitor (Capacitor.new id (of_Q 0.0001)))
  | ComponentType.INDUCTOR =>
      Some (of_instance PInductor (Inductor.new id (of_Q 0.001)))
  | ComponentType.DIODE =>
      Some (of_instance PDiode (Diode.new id (of_Q 0.7)))
  | ComponentType.LED =>
      Some (of_instance PLED (LED.new id "#ff0000" (of_Q 2)))
  | ComponentType.FUSE =>
      Some (of_instance PFuse (Fuse.new id (of_Q 1)))
  | ComponentType.VOLTAGE_SOURCE =>
      Some (of_instance PVoltageSource (VoltageSource.new id))
  | ComponentType.BATTERY =>
      Some (of_instance PBattery (Battery.new id (of_Q 9) (of_Q 500)))
  | ComponentType.GROUND =>
      Some (of_instance PGround (Ground.new id))
  | ComponentType.SWITCH =>
      Some (of_instance PSwitch (Switch.new id false))
  | ComponentType.POTENTIOMETER =>
      Some (of_instance PPotentiometer (Potentiometer.new id (of_Q 10000) (of_Q 50)))
  | ComponentType.LAMP =>
      Some (of_instance PLamp (Lamp.new id (of_Q 12) (of_Q 60)))
  | _ => None
  end.

(** [getAvailableComponents()]: the implemented kinds. *)
Definition getAvailableComponents : list ComponentType.t :=
  [ComponentType.RESISTOR; ComponentType.CAPACITOR; ComponentType.INDUCTOR;
   ComponentType.DIODE; ComponentType.LED; ComponentType.LAMP;
   ComponentType.FUSE; ComponentType.VOLTAGE_SOURCE; ComponentType.BATTERY;
   ComponentType.GROUND; ComponentType.SWITCH; ComponentType.POTENTIOMETER].

(** [getComponentName(type)]: the table has an entry for every type, so
    the fallback [|| type] is never taken. *)
Definition getComponentName (type : ComponentType.t) : string :=
  match type with
  | ComponentType.RESISTOR => "Resistor"
  | ComponentType.CAPACITOR => "Capacitor"
  | ComponentType.INDUCTOR => "Inductor"
  | ComponentType.DIODE => "Diode"
  | ComponentType.ZENER_DIODE => "Zener Diode"
  | ComponentType.LED => "LED"
  | ComponentType.FUSE => "Fuse"
  | ComponentType.VOLTAGE_SOURCE => "Voltage Source"
  | ComponentType.CURRENT_SOURCE => "Current Source"
  | ComponentType.BATTERY => "Battery"
  | ComponentType.GROUND => "Ground"
  | ComponentType.SWITCH => "Switch"
  | ComponentType.POTENTIOMETER => "Potentiometer"
  | ComponentType.LAMP => "Lamp"
  | ComponentType.MOSFET => "MOSFET"
  | ComponentType.BJT => "BJT"
  | ComponentType.JFET => "JFET"
  | ComponentType.THYRISTOR => "Thyristor"
  | ComponentType.TRANSISTOR => "Transistor"
  | ComponentType.OPTOCOUPLER => "Optocoupler"
  | ComponentType.LOGIC_GATE_AND => "AND Gate"
  | ComponentType.LOGIC_GATE_OR => "OR Gate"
  | ComponentType.LOGIC_GATE_NOT => "NOT Gate"
  | ComponentType.LOGIC_GATE_NAND => "NAND Gate"
  | ComponentType.LOGIC_GATE_XOR => "XOR Gate"
  | ComponentType.OP_AMP => "Op-Amp"
  | ComponentType.VARISTOR => "Varistor"
  | ComponentType.MCB => "MCB"
  | ComponentType.RELAY => "Relay"
  | ComponentType.DC_MOTOR => "DC Motor"
  end.

(** [list.includes(type)]. *)
Definition includes (l : list ComponentType.t) (type : ComponentType.t) : bool :=
  existsb (ComponentType.eqb type) l.

(** [getComponentCategory(type)]. *)
Definition getComponentCategory (type : ComponentType.t) : string :=
  if includes
       [ComponentType.RESISTOR; ComponentType.CAPACITOR; ComponentType.INDUCTOR;
        ComponentType.DIODE; ComponentType.ZENER_DIODE; ComponentType.LED;
        ComponentType.FUSE] type
  then "Passive Components"
  else if includes [ComponentType.VOLTAGE_SOURCE; ComponentType.CURRENT_SOURCE] type
  then "Power Sources"
  else if includes
            [ComponentType.MOSFET; ComponentType.BJT; ComponentType.JFET;
             ComponentType.THYRISTOR; ComponentType.TRANSISTOR;
             ComponentType.OPTOCOUPLER] type
  then "Active Components"
  else if includes
            [ComponentType.LOGIC_GATE_AND; ComponentType.LOGIC_GATE_OR;
             ComponentType.LOGIC_GATE_NOT; ComponentType.LOGIC_GATE_NAND;
             ComponentType.LOGIC_GATE_XOR; ComponentType.OP_AMP] type
  then "Integrated Circuits"
  else if includes [ComponentType.VARISTOR; ComponentType.MCB; ComponentType.RELAY] type
  then "Protection & Control"
  else if includes [ComponentType.DC_MOTOR] type
  then "Motors & Loads"
  else "Other".

End Defs.
End ComponentFactory.

(* ================================================================== *)
(** * Exceptions                                                       *)
(* ================================================================== *)

Inductive JsError : Set :=
| TypeError   (* reading a property of [undefined] *)
| RangeError. (* call stack exhausted *)

Inductive result (A : Type) : Type :=
| Ok (a : A)
| Throw (e : JsError).
Arguments Ok {A} a.
Arguments Throw {A} e.

Definition bind {A B} (r : result A) (k : A -> result B) : result B :=
  match r with Ok a => k a | Throw e => Throw e end.

Notation "x <- r ;; k" := (bind r (fun x => k))
  (at level 61, r at next level, right associativity).
Notation "' pat <- r ;; k" := (bind r (fun x => match x with pat => k end))
  (at level 61, pat pattern, r at next level, right associativity).

(** [l.forEach(a => ...)] for a body that updates the state [s] and may
    throw. *)
Fixpoint forEachM {A S} (f : S -> A -> result S) (l : list A) (s : S) : result S :=
  match l with
  | [] => Ok s
  | a :: l' => s' <- f s a ;; forEachM f l' s'
  end.

(** [a[i] = v] on an array; an index past the end leaves the list as it is
    (the solver never writes there: every index it computes is below the
    size of the system). *)
Fixpoint upd {A} (i : nat) (v : A) (l : list A) : list A :=
  match l, i with
  | [], _ => []
  | _ :: l', O => v :: l'
  | a :: l', S i' => a :: upd i' v l'
  end.

(* ================================================================== *)
(** * [CircuitSolver]                                                  *)
(* ================================================================== *)

Module CircuitSolver.

(** The result of [solve()]. *)
Record SimulationResult (num : Type) : Type := mk_SimulationResult {
  nodeVoltages : JsMap.t num;
  componentCurrents : JsMap.t num;
  componentVoltages : JsMap.t num;
  wireCurrents : JsMap.t num;
  wireVoltages : JsMap.t num
}.

(** The private maps that [identifyNodes] fills in. *)
Record Nodes : Type := mk_Nodes {
  nodes : JsMap.t (list string);
  terminalToNode : JsMap.t string;
  nodeIndex : JsMap.t Z
}.

(** ** [identifyNodes] *)

(** [find] of the union-find, with its path compression: the updated
    [parent] map is returned beside the root.  The recursion of the source
    is bounded here by [fuel]; [identifyNodes] passes a bound that is never
    reached ([RangeError] stands for the exhausted call stack).  A terminal
    that is not a key of [parent] is never passed in: [union] is guarded by
    [parent.has] and the other calls pass terminals of the components; the
    model answers [TypeError] for such a terminal, and [identifyNodes] is
    proved below never to fail. *)
Fixpoint find (fuel : nat) (parent : JsMap.t string) (i : string)
  : result (string * JsMap.t string) :=
  match fuel with
  | O => Throw RangeError
  | S fuel' =>
      match JsMap.get i parent with
      | Some p =>
          if String.eqb p i then Ok (i, parent)
          else
            '(root, parent') <- find fuel' parent p ;;
            Ok (root, JsMap.set i root parent')
      | None => Throw TypeError
      end
  end.

Definition union (fuel : nat) (parent : JsMap.t string) (i j : string)
  : result (JsMap.t string) :=
  '(rootI, parent) <- find fuel parent i ;;
  '(rootJ, parent) <- find fuel parent j ;;
  Ok (if String.eqb rootI rootJ then parent else JsMap.set rootI rootJ parent).

(** [string] truthiness: [if (s)]. *)
Definition nonEmpty (s : string) : bool := negb (String.eqb s "").

Section Identify.
Context {num : Type}.

(** Initialize all terminals as their own sets. *)
Definition initParent (components : list (Component.t num)) : JsMap.t string :=
  fold_left
    (fun parent c =>
       fold_left
         (fun parent t => JsMap.set (Terminal.id t) (Terminal.id t) parent)
         (BaseComponent.terminals c) parent)
    components JsMap.empty.

(** Union connected terminals via wires. *)
Definition unionWires (fuel : nat) (wires : list (Wire.t num)) (parent : JsMap.t string)
  : result (JsMap.t string) :=
  forEachM
    (fun parent w =>
       if JsMap.has (Wire.fromTerminal w) parent && JsMap.has (Wire.toTerminal w) parent
       then union fuel parent (Wire.fromTerminal w) (Wire.toTerminal w)
       else Ok parent)
    wires parent.

(** Build the [nodes] and [terminalToNode] maps: the body of
    [parent.forEach((_, terminalId) => ...)]. *)
Definition addTerminal (fuel : nat)
    (s : JsMap.t string * JsMap.t (list string) * JsMap.t string) (terminalId : string)
  : result (JsMap.t string * JsMap.t (list string) * JsMap.t string) :=
  let '(parent, nodes, terminalToNode) := s in
  '(root, parent) <- find fuel parent terminalId ;;
  let nodes := if JsMap.has root nodes then nodes else JsMap.set root [] nodes in
  let members := match JsMap.get root nodes with Some l => l | None => [] end in
  let nodes := JsMap.set root (members ++ [terminalId]) nodes in
  Ok (parent, nodes, JsMap.set terminalId root terminalToNode).

(** The first dedicated voltage source, if any:
    [components.find(c => c.type === ComponentType.VOLTAGE_SOURCE)]. *)
Definition firstVoltageSource (components : list (Component.t num))
  : option (Component.t num) :=
  List.find
    (fun c => ComponentType.eqb (BaseComponent.type c) ComponentType.VOLTAGE_SOURCE)
    components.

(** [groundNodeId]: the node of the second terminal of the first voltage
    source. *)
Definition groundOfSource (fuel : nat) (parent : JsMap.t string)
    (components : list (Component.t num)) : result (option string) :=
  match firstVoltageSource components with
  | Some vSource =>
      match nth_error (BaseComponent.terminals vSource) 1 with
      | Some negTerminal =>
          '(root, _) <- find fuel parent (Terminal.id negTerminal) ;;
          Ok (Some root)
      | None => Ok None
      end
  | None => Ok None
  end.

(** The ground gets the index -1: the source's node, or else the first
    node. *)
Definition markGround (groundNodeId : option string) (nodeIds : list string) : JsMap.t Z :=
  match groundNodeId with
  | Some g =>
      if nonEmpty g then JsMap.set g (-1)%Z JsMap.empty
      else match nodeIds with
           | n0 :: _ => JsMap.set n0 (-1)%Z JsMap.empty
           | [] => JsMap.empty
           end
  | None =>
      match nodeIds with
      | n0 :: _ => JsMap.set n0 (-1)%Z JsMap.empty
      | [] => JsMap.empty
      end
  end.

(** The body of
    [nodeIds.forEach(id => { if (nodeIndex.get(id) !== -1) nodeIndex.set(id, index++) })]. *)
Definition assignIndex (s : JsMap.t Z * Z) (id : string) : JsMap.t Z * Z :=
  let '(nodeIndex, index) := s in
  match JsMap.get id nodeIndex with
  | Some (-1)%Z => (nodeIndex, index)
  | _ => (JsMap.set id index nodeIndex, (index + 1)%Z)
  end.

Definition assignIndices (nodeIds : list string) (nodeIndex : JsMap.t Z) : JsMap.t Z :=
  fst (fold_left assignIndex nodeIds (nodeIndex, 0%Z)).

Definition identifyNodes (components : list (Component.t num)) (wires : list (Wire.t num))
  : result Nodes :=
  (* a chain of parents grows by at most one link per wire *)
  let fuel := S (List.length wires) in
  let parent := initParent components in
  parent <- unionWires fuel wires parent ;;
  '(parent, nodes, terminalToNode) <-
     forEachM (addTerminal fuel) (JsMap.keys parent) (parent, JsMap.empty, JsMap.empty) ;;
  groundNodeId <- groundOfSource fuel parent components ;;
  let nodeIds := JsMap.keys nodes in
  let nodeIndex := assignIndices nodeIds (markGround groundNodeId nodeIds) in
  Ok (mk_Nodes nodes terminalToNode nodeIndex).

End Identify.

(** ** [gaussianElimination] *)

Section Gauss.
Context {num : Type} `{JsNumber num}.
Local Open Scope js_scope.

Definition Matrix := list (list num).
Definition Vector := list num.

(** [A[i][j]] and [b[i]].  The systems that [solveMNA] builds are square, so
    every read below is in range. *)
Definition mget (A : Matrix) (i j : nat) : num := nth j (nth i A []) (of_Q 0).
Definition vget (b : Vector) (i : nat) : num := nth i b (of_Q 0).
Definition mset (A : Matrix) (i j : nat) (v : num) : Matrix :=
  upd i (upd j v (nth i A [])) A.

(** [for (let k = lo; k < hi; k++)]. *)
Definition range (lo hi : nat) : list nat := seq lo (hi - lo).

(** Find pivot: the row with the largest magnitude in column [i], from row
    [i] down; the first such row wins. *)
Definition findPivot (A : Matrix) (n i : nat) : nat :=
  snd (fold_left
         (fun (s : num * nat) k =>
            let '(maxEl, maxRow) := s in
            if Math_abs (mget A k i) > maxEl then (Math_abs (mget A k i), k)
            else (maxEl, maxRow))
         (range (S i) n) (Math_abs (mget A i i), i)).

(** Swap rows [maxRow] and [i], from column [i] on, and the entries of [b]. *)
Definition swapRows (A : Matrix) (b : Vector) (n i maxRow : nat) : Matrix * Vector :=
  let A :=
    fold_left
      (fun A k =>
         let tmp := mget A maxRow k in
         let A := mset A maxRow k (mget A i k) in
         mset A i k tmp)
      (range i n) A in
  let tmp := vget b maxRow in
  let b := upd maxRow (vget b i) b in
  (A, upd i tmp b).

(** Make triangular: clear column [i] below the pivot. *)
Definition eliminate (A : Matrix) (b : Vector) (n i : nat) : Matrix * Vector :=
  fold_left
    (fun (s : Matrix * Vector) k =>
       let '(A, b) := s in
       let c := (- mget A k i) / mget A i i in
       let A :=
         fold_left
           (fun A j =>
              if Nat.eqb i j then mset A k j (of_Q 0)
              else mset A k j (mget A k j + c * mget A i j))
           (range i n) A in
       (A, upd k (vget b k + c * vget b i) b))
    (range (S i) n) (A, b).

(** Forward elimination. *)
Definition forwardElimination (n : nat) (A : Matrix) (b : Vector) : Matrix * Vector :=
  fold_left
    (fun (s : Matrix * Vector) i =>
       let '(A, b) := s in
       let maxRow := findPivot A n i in
       let '(A, b) := swapRows A b n i maxRow in
       eliminate A b n i)
    (range 0 n) (A, b).

(** Back substitution: [for (let i = n - 1; i >= 0; i--)], from
    [x = new Array(n).fill(0)]. *)
Definition backSubstitution (n : nat) (A : Matrix) (b : Vector) : Vector :=
  fold_left
    (fun x i =>
       let sum :=
         fold_left (fun sum j => sum + mget A i j * vget x j) (range (S i) n) (of_Q 0) in
       upd i ((vget b i - sum) / mget A i i) x)
    (rev (range 0 n)) (repeat (of_Q 0) n).

Definition gaussianElimination (A : Matrix) (b : Vector) : Vector :=
  let n := List.length A in
  let '(A, b) := forwardElimination n A b in
  backSubstitution n A b.

End Gauss.

(** ** [solveMNA] *)

Section MNA.
Context {num : Type} `{JsNumber num}.
Local Open Scope js_scope.

(** [comp.terminals[k].id]; reading [.id] of a missing terminal throws. *)
Definition terminalId (comp : Component.t num) (k : nat) : result string :=
  match nth_error (BaseComponent.terminals comp) k with
  | Some t => Ok (Terminal.id t)
  | None => Throw TypeError
  end.

(** [c.type] is one of [VOLTAGE_SOURCE], [BATTERY], [GROUND]. *)
Definition isVoltageSource (c : Component.t num) : bool :=
  ComponentType.eqb (BaseComponent.type c) ComponentType.VOLTAGE_SOURCE
  || ComponentType.eqb (BaseComponent.type c) ComponentType.BATTERY
  || ComponentType.eqb (BaseComponent.type c) ComponentType.GROUND.

(** [this.nodeIndex.get(this.terminalToNode.get(n)!)]. *)
Definition indexOfTerminal (st : Nodes) (n : string) : option Z :=
  match JsMap.get n (terminalToNode st) with
  | Some node => JsMap.get node (nodeIndex st)
  | None => None
  end.

(** The test [i !== undefined && i !== -1]; the row is then [i]. *)
Definition rowOf (i : option Z) : option nat :=
  match i with
  | Some z => if Z.eqb z (-1) then None else Some (Z.to_nat z)
  | None => None
  end.

(** Helper to add conductance. *)
Definition addG (st : Nodes) (G : Matrix) (n1 n2 : string) (conductance : num) : Matrix :=
  let i := rowOf (indexOfTerminal st n1) in
  let j := rowOf (indexOfTerminal st n2) in
  let G :=
    match i with
    | Some i =>
        let G := mset G i i (mget G i i + conductance) in
        match j with
        | Some j => mset G i j (mget G i j - conductance)
        | None => G
        end
    | None => G
    end in
  match j with
  | Some j =>
      let G := mset G j j (mget G j j + conductance) in
      match i with
      | Some i => mset G j i (mget G j i - conductance)
      | None => G
      end
  | None => G
  end.

(** The instantaneous resistance of a resistive kind, [None] for the kinds
    that stamp no conductance. *)
Definition resistanceOf (comp : Component.t num) : option num :=
  let props := BaseComponent.properties comp in
  match BaseComponent.type comp with
  | ComponentType.RESISTOR => Some (num_or (Component.value props) (of_Q 1000))
  | ComponentType.LED => Some (of_Q 50)
  | ComponentType.DIODE => Some (of_Q 100)
  | ComponentType.CAPACITOR => Some (of_Q 1000000000)
  | ComponentType.INDUCTOR => Some (of_Q 0.01)
  | ComponentType.POTENTIOMETER =>
      Some (Math_max (num_or (Component.value props) (of_Q 1000)) (of_Q 0.01))
  | ComponentType.SWITCH =>
      Some (match Component.closed props with
            | Some true => of_Q 0.01
            | _ => of_Q 1000000000
            end)
  | ComponentType.FUSE =>
      Some (match Component.blown props with
            | Some true => of_Q 1000000000
            | _ => of_Q 0.01
            end)
  | ComponentType.LAMP =>
      Some (Math_max (num_or (Component.resistance props) (of_Q 100)) (of_Q 0.01))
  | _ => None
  end.

(** Stamp components. *)
Definition stampComponent (st : Nodes) (G : Matrix) (comp : Component.t num)
  : result Matrix :=
  match resistanceOf comp with
  | Some r =>
      let g := of_Q 1 / r in
      n1 <- terminalId comp 0 ;;
      n2 <- terminalId comp 1 ;;
      Ok (addG st G n1 n2 g)
  | None => Ok G
  end.

(** Stamp voltage sources: the body of [voltageSources.forEach((vs, idx) => ...)];
    [I_] is the right-hand side [I]. *)
Definition stampVoltageSource (st : Nodes) (numNodes : nat)
    (s : Matrix * Vector * nat) (vs : Component.t num) : result (Matrix * Vector * nat) :=
  let '(G, I_, idx) := s in
  let vIndex := (numNodes + idx)%nat in
  let voltage := num_or (Component.voltage (BaseComponent.properties vs)) (of_Q 5) in
  t0 <- terminalId vs 0 ;;
  t1 <- terminalId vs 1 ;;
  let posIdx := rowOf (indexOfTerminal st t0) in
  let negIdx := rowOf (indexOfTerminal st t1) in
  (* B matrix (connections) *)
  let G :=
    match posIdx with
    | Some posIdx => mset (mset G posIdx vIndex (of_Q 1)) vIndex posIdx (of_Q 1)
    | None => G
    end in
  let G :=
    match negIdx with
    | Some negIdx => mset (mset G negIdx vIndex (of_Q (-1))) vIndex negIdx (of_Q (-1))
    | None => G
    end in
  (* C matrix (known voltages) *)
  Ok (G, upd vIndex voltage I_, S idx).

(** [voltageSources.findIndex(v => v.id === id)]. *)
Fixpoint findIndex (voltageSources : list (Component.t num)) (id : string) : option nat :=
  match voltageSources with
  | [] => None
  | v :: rest =>
      if String.eqb (BaseComponent.id v) id then Some O
      else match findIndex rest id with Some k => Some (S k) | None => None end
  end.

(** Calculate component values: the body of the second
    [components.forEach]. *)
Definition extractComponent (st : Nodes) (numNodes : nat)
    (voltageSources : list (Component.t num)) (x : Vector) (nodeVoltages : JsMap.t num)
    (s : JsMap.t num * JsMap.t num) (comp : Component.t num)
  : result (JsMap.t num * JsMap.t num) :=
  let '(componentCurrents, componentVoltages) := s in
  t0 <- terminalId comp 0 ;;
  t1 <- terminalId comp 1 ;;
  let voltageOfNode (t : string) : num :=
    match JsMap.get t (terminalToNode st) with
    | Some n => num_or (JsMap.get n nodeVoltages) (of_Q 0)
    | None => of_Q 0
    end in
  let v1 := voltageOfNode t0 in
  let v2 := voltageOfNode t1 in
  let vDrop := v1 - v2 in
  let componentVoltages := JsMap.set (BaseComponent.id comp) vDrop componentVoltages in
  match resistanceOf comp with
  | Some r =>
      Ok (JsMap.set (BaseComponent.id comp) (vDrop / r) componentCurrents,
          componentVoltages)
  | None =>
      if isVoltageSource comp then
        (* the current through a source is in the solution vector *)
        match findIndex voltageSources (BaseComponent.id comp) with
        | Some vsIdx =>
            Ok (JsMap.set (BaseComponent.id comp) (vget x (numNodes + vsIdx))
                  componentCurrents,
                componentVoltages)
        | None => Ok (componentCurrents, componentVoltages)
        end
      else Ok (componentCurrents, componentVoltages)
  end.

(** Calculate wire currents and voltages: the body of [wires.forEach]. *)
Definition extractWire (st : Nodes) (components : list (Component.t num))
    (nodeVoltages componentCurrents : JsMap.t num)
    (s : JsMap.t num * JsMap.t num) (wire : Wire.t num) : JsMap.t num * JsMap.t num :=
  let '(wireCurrents, wireVoltages) := s in
  match JsMap.get (Wire.fromTerminal wire) (terminalToNode st),
        JsMap.get (Wire.toTerminal wire) (terminalToNode st) with
  | Some fromNode, Some toNode =>
      if nonEmpty fromNode && nonEmpty toNode then
        let vFrom := num_or (JsMap.get fromNode nodeVoltages) (of_Q 0) in
        let vTo := num_or (JsMap.get toNode nodeVoltages) (of_Q 0) in
        let wireVoltages := JsMap.set (Wire.id wire) ((vFrom + vTo) / of_Q 2) wireVoltages in
        (* the current of the last component terminal that is the wire's
           [fromTerminal] *)
        let wireCurrent :=
          fold_left
            (fun wireCurrent comp =>
               fold_left
                 (fun wireCurrent terminal =>
                    if String.eqb (Terminal.id terminal) (Wire.fromTerminal wire)
                    then num_or (JsMap.get (BaseComponent.id comp) componentCurrents) (of_Q 0)
                    else wireCurrent)
                 (BaseComponent.terminals comp) wireCurrent)
            components (of_Q 0) in
        (JsMap.set (Wire.id wire) (Math_abs wireCurrent) wireCurrents, wireVoltages)
      else s
  | _, _ => s
  end.

Definition solveMNA (st : Nodes) (components : list (Component.t num))
    (wires : list (Wire.t num)) : result (SimulationResult num) :=
  let numNodes :=
    (JsMap.size (nodeIndex st)
     - (if existsb (Z.eqb (-1)) (JsMap.values (nodeIndex st)) then 1 else 0))%nat in
  (* Count voltage sources for extra rows/cols (includes Battery and Ground) *)
  let voltageSources := filter isVoltageSource components in
  let numVSources := List.length voltageSources in
  let size := (numNodes + numVSources)%nat in
  let G : Matrix := repeat (repeat (of_Q 0) size) size in
  let I_ : Vector := repeat (of_Q 0) size in
  G <- forEachM (stampComponent st) components G ;;
  '(G, I_, _) <- forEachM (stampVoltageSource st numNodes) voltageSources (G, I_, O) ;;
  (* Solve G * x = I *)
  let x := gaussianElimination G I_ in
  (* Set ground node voltage *)
  let nodeVoltages :=
    fold_left
      (fun nodeVoltages (e : string * Z) =>
         let '(nodeId, idx) := e in
         if Z.eqb idx (-1) then JsMap.set nodeId (of_Q 0) nodeVoltages
         else JsMap.set nodeId (vget x (Z.to_nat idx)) nodeVoltages)
      (nodeIndex st) JsMap.empty in
  '(componentCurrents, componentVoltages) <-
     forEachM (extractComponent st numNodes voltageSources x nodeVoltages)
       components (JsMap.empty, JsMap.empty) ;;
  let '(wireCurrents, wireVoltages) :=
    fold_left (extractWire st components nodeVoltages componentCurrents)
      wires (JsMap.empty, JsMap.empty) in
  Ok (mk_SimulationResult nodeVoltages componentCurrents componentVoltages
        wireCurrents wireVoltages).

(** [solve()]. *)
Definition solve (components : list (Component.t num)) (wires : list (Wire.t num))
  : result (SimulationResult num) :=
  st <- identifyNodes components wires ;;
  solveMNA st components wires.

End MNA.
End CircuitSolver.

(* ================================================================== *)
(** * The store: [stepSimulation]                                      *)
(* ================================================================== *)

Module Store.

Record SimulationState (num : Type) : Type := mk_SimulationState {
  running : bool;
  time : num;      (* simulation time in seconds *)
  timeStep : num;
  speed : num;
  errors : list (CircuitError num)
}.

(** The part of the store that a tick reads and writes. *)
Record CircuitStore (num : Type) : Type := mk_CircuitStore {
  components : list (Component.t num);
  wires : list (Wire.t num);
  simulation : SimulationState num
}.

Section Step.
Context {num : Type} `{JsNumber num}.
Local Open Scope js_scope.

(** The methods that [stepSimulation] finds on a component instance
    ([compInstance.simulate], [compInstance.checkErrors]).  An instance
    without the method is one whose [simulate] changes nothing and whose
    [checkErrors] reports nothing: the calls are guarded by
    [if (compInstance.simulate)] and [if (compInstance.checkErrors)]. *)
Variable simulate : num -> JsMap.t num -> Component.t num -> Component.t num.
Variable checkErrors : Component.t num -> list (CircuitError num).

(** What the host supplies to the [catch] branch: [uuidv4()], [Date.now()]
    and the message of the caught exception. *)
Variable uuidv4 : string.
Variable Date_now : num.
Variable errorMessage : JsError -> string.

(** Update component states from the solver's result. *)
Definition updateComponent (result : CircuitSolver.SimulationResult num)
    (comp : Component.t num) : Component.t num :=
  let voltage := JsMap.get (BaseComponent.id comp) (CircuitSolver.componentVoltages result) in
  let current := JsMap.get (BaseComponent.id comp) (CircuitSolver.componentCurrents result) in
  let p := BaseComponent.properties comp in
  let p := match voltage with Some v => Component.set_voltage v p | None => p end in
  let p := match current with Some c => Component.set_current c p | None => p end in
  let p :=
    match voltage, current with
    | Some v, Some c => Component.set_power (Math_abs (v * c)) p
    | _, _ => p
    end in
  BaseComponent.set_properties p comp.

(** Update wire states. *)
Definition updateWire (result : CircuitSolver.SimulationResult num) (wire : Wire.t num)
  : Wire.t num :=
  let current := JsMap.get (Wire.id wire) (CircuitSolver.wireCurrents result) in
  let voltage := JsMap.get (Wire.id wire) (CircuitSolver.wireVoltages result) in
  let wire := match current with Some c => Wire.set_current c wire | None => wire end in
  match voltage with Some v => Wire.set_voltage v wire | None => wire end.

(** The body of [errors.forEach]: add the error unless one with the same
    message or id is known, and remember a halting one either way. *)
Definition reportError (s : list (CircuitError num) * bool) (error : CircuitError num)
  : list (CircuitError num) * bool :=
  let '(errors, hasStoppingError) := s in
  let exists_ :=
    existsb
      (fun e => String.eqb (message e) (message error) || String.eqb (err_id e) (err_id error))
      errors in
  let errors := if exists_ then errors else errors ++ [error] in
  (errors, if stopSimulation error then true else hasStoppingError).

(** The body of the loop "Check for component errors": [simulate], then
    [checkErrors], for one component.  The state is the components already
    visited, the error list and [hasStoppingError]. *)
Definition checkComponent (dt : num) (nodeVoltages : JsMap.t num)
    (s : list (Component.t num) * list (CircuitError num) * bool) (comp : Component.t num)
  : list (Component.t num) * list (CircuitError num) * bool :=
  let '(visited, errors, hasStoppingError) := s in
  let comp := simulate dt nodeVoltages comp in
  let '(errors, hasStoppingError) :=
    fold_left reportError (checkErrors comp) (errors, hasStoppingError) in
  (visited ++ [comp], errors, hasStoppingError).

Definition set_running (b : bool) (s : SimulationState num) : SimulationState num :=
  mk_SimulationState b (time s) (timeStep s) (speed s) (errors s).
Definition set_time (x : num) (s : SimulationState num) : SimulationState num :=
  mk_SimulationState (running s) x (timeStep s) (speed s) (errors s).
Definition set_errors (l : list (CircuitError num)) (s : SimulationState num)
  : SimulationState num :=
  mk_SimulationState (running s) (time s) (timeStep s) (speed s) l.

Definition stepSimulation (deltaTime : num) (state : CircuitStore num) : CircuitStore num :=
  if running (simulation state) then
    let sim := simulation state in
    let sim := set_time (time sim + deltaTime * speed sim) sim in
    match CircuitSolver.solve (components state) (wires state) with
    | Ok result =>
        let comps := map (updateComponent result) (components state) in
        let ws := map (updateWire result) (wires state) in
        let '(comps, errs, hasStoppingError) :=
          fold_left
            (checkComponent (deltaTime * speed sim) (CircuitSolver.nodeVoltages result))
            comps ([], errors sim, false) in
        let sim := set_errors errs sim in
        (* Stop simulation if critical error detected *)
        let sim := if hasStoppingError then set_running false sim else sim in
        (* keep only the halting errors when the run goes on *)
        let sim :=
          if negb hasStoppingError && (0 <? List.length (errors sim))%nat
          then set_errors (filter (fun e => stopSimulation e) (errors sim)) sim
          else sim in
        mk_CircuitStore comps ws sim
    | Throw e =>
        (* catch: one synthetic error, unless errors are already present *)
        let sim :=
          if (List.length (errors sim) =? 0)%nat then
            set_running false
              (set_errors
                 (errors sim
                  ++ [mk_CircuitError uuidv4 ErrorSeverity.ERROR
                        ("Simulation failed: " ++ errorMessage e) [] Date_now true])
                 sim)
          else sim in
        mk_CircuitStore (components state) (wires state) sim
    end
  else state.

End Step.

(** ** The editing actions

    The store holds, beside the circuit that a tick works on, the state of
    the editor.  The 3D data (positions, rotations, way points) and the
    display flags that the actions set on the components ([selected],
    [error], [errorMessage]) are not part of the model: no action and no
    tick reads them. *)

Inductive Mode : Set := SELECT | DRAG | ROTATE | WIRE.

(** [wireDrawing], without its 3D points. *)
Record WireDrawing : Type := mk_WireDrawing {
  active : bool;
  fromTerminalId : option string
}.

Record Editor (num : Type) : Type := mk_Editor {
  circuit : CircuitStore num;
  mode : Mode;
  selectedComponentIds : list string;
  hoveredComponentId : option string;
  wireDrawing : WireDrawing
}.

Section Actions.
Context {num : Type} `{JsNumber num}.

Definition set_components (l : list (Component.t num)) (c : CircuitStore num)
  : CircuitStore num :=
  mk_CircuitStore l (wires c) (simulation c).
Definition set_wires (l : list (Wire.t num)) (c : CircuitStore num) : CircuitStore num :=
  mk_CircuitStore (components c) l (simulation c).
Definition set_simulation (sim : SimulationState num) (c : CircuitStore num)
  : CircuitStore num :=
  mk_CircuitStore (components c) (wires c) sim.
Definition set_circuit (c : CircuitStore num) (s : Editor num) : Editor num :=
  mk_Editor c (mode s) (selectedComponentIds s) (hoveredComponentId s) (wireDrawing s).
Definition set_selectedComponentIds (l : list string) (s : Editor num) : Editor num :=
  mk_Editor (circuit s) (mode s) l (hoveredComponentId s) (wireDrawing s).
Definition set_wireDrawing (w : WireDrawing) (s : Editor num) : Editor num :=
  mk_Editor (circuit s) (mode s) (selectedComponentIds s) (hoveredComponentId s) w.

(** The reset value of [wireDrawing]. *)
Definition noWireDrawing : WireDrawing := mk_WireDrawing false None.

(** The initial state of the store. *)
Definition initialState : Editor num :=
  mk_Editor
    (mk_CircuitStore [] []
       (mk_SimulationState false (of_Q 0) (of_Q 0.001) (of_Q 1) []))
    SELECT [] None noWireDrawing.

(** [addComponent(type, position)].  [tempId] is the id that [uuidv4()]
    gives to the temporary instance and [newId] the one that it gives to
    the new component; the ids that the terminals get in between are
    overwritten by the loop "Update componentId in all terminals". *)
Definition addComponent (tempId newId : string) (type : ComponentType.t) (s : Editor num)
  : Editor num :=
  match ComponentFactory.createComponent tempId type with
  | None => s
  | Some tempInstance =>
      let newComponent : Component.t num :=
        BaseComponent.mk newId type
          (map (fun t =>
                  Terminal.mk (newId ++ "-" ++ Terminal.name t) newId (Terminal.name t)
                    (Terminal.voltage t) (Terminal.current t))
             (BaseComponent.terminals tempInstance))
          (BaseComponent.properties tempInstance) in
      let c := circuit s in
      (* auto-select the new component *)
      set_selectedComponentIds [newId]
        (set_circuit (set_components (components c ++ [newComponent]) c) s)
  end.

(** [state.components.flatMap(c => c.terminals).find(t => t.id === id)]. *)
Definition findTerminal (components : list (Component.t num)) (id : string)
  : option (Terminal.t num) :=
  List.find (fun t => String.eqb (Terminal.id t) id)
    (flat_map (fun c => BaseComponent.terminals c) components).

(** [terminal?.componentId !== id]. *)
Definition notOwnedBy (id : string) (terminal : option (Terminal.t num)) : bool :=
  match terminal with
  | Some t => negb (String.eqb (Terminal.componentId t) id)
  | None => true
  end.

(** [removeComponent(id)].  The wires are filtered after the component has
    been removed: the terminals are looked up among the components that
    remain. *)
Definition removeComponent (id : string) (s : Editor num) : Editor num :=
  let c := circuit s in
  let comps := filter (fun c => negb (String.eqb (BaseComponent.id c) id)) (components c) in
  let ws :=
    filter
      (fun w =>
         let fromTerminal := findTerminal comps (Wire.fromTerminal w) in
         let toTerminal := findTerminal comps (Wire.toTerminal w) in
         notOwnedBy id fromTerminal && notOwnedBy id toTerminal)
      (wires c) in
  set_selectedComponentIds
    (filter (fun cid => negb (String.eqb cid id)) (selectedComponentIds s))
    (set_circuit (set_wires ws (set_components comps c)) s).

(** [selectedComponentIds.includes(id)]. *)
Definition isSelected (id : string) (s : Editor num) : bool :=
  existsb (String.eqb id) (selectedComponentIds s).

(** [selectComponent(id, multiSelect)]. *)
Definition selectComponent (id : string) (multiSelect : bool) (s : Editor num)
  : Editor num :=
  if multiSelect then
    if isSelected id s then
      set_selectedComponentIds
        (filter (fun cid => negb (String.eqb cid id)) (selectedComponentIds s)) s
    else set_selectedComponentIds (selectedComponentIds s ++ [id]) s
  else set_selectedComponentIds [id] s.

Definition deselectAll (s : Editor num) : Editor num :=
  set_selectedComponentIds [] s.

(** [setMode(mode)]: leaving the wire mode resets the wire being drawn. *)
Definition setMode (m : Mode) (s : Editor num) : Editor num :=
  let s := mk_Editor (circuit s) m (selectedComponentIds s) (hoveredComponentId s)
             (wireDrawing s) in
  match m with
  | WIRE => s
  | _ => set_wireDrawing noWireDrawing s
  end.

(** [addWire(fromTerminalId, toTerminalId)]; [uuid] is the reading of
    [uuidv4()]. *)
Definition addWire (uuid : string) (fromTerminalId toTerminalId : string) (s : Editor num)
  : Editor num :=
  let c := circuit s in
  match findTerminal (components c) fromTerminalId,
        findTerminal (components c) toTerminalId with
  | Some _, Some _ =>
      let newWire := Wire.mk uuid fromTerminalId toTerminalId (of_Q 0) (of_Q 0) in
      (* reset the wire drawing state *)
      set_wireDrawing noWireDrawing
        (set_circuit (set_wires (wires c ++ [newWire]) c) s)
  | _, _ => s
  end.

Definition removeWire (id : string) (s : Editor num) : Editor num :=
  let c := circuit s in
  set_circuit
    (set_wires (filter (fun w => negb (String.eqb (Wire.id w) id)) (wires c)) c) s.

Definition startSimulation (s : Editor num) : Editor num :=
  let c := circuit s in
  let sim := simulation c in
  set_circuit
    (set_simulation (set_errors [] (set_time (of_Q 0) (set_running true sim))) c) s.

Definition stopSimulation_ (s : Editor num) : Editor num :=
  let c := circuit s in
  set_circuit (set_simulation (set_running false (simulation c)) c) s.

(** [addError(error)]: the error is pushed without any test for
    duplicates, and a critical one stops the run. *)
Definition addError (error : CircuitError num) (s : Editor num) : Editor num :=
  let c := circuit s in
  let sim := simulation c in
  let sim := set_errors (errors sim ++ [error]) sim in
  let sim := if stopSimulation error then set_running false sim else sim in
  set_circuit (set_simulation sim c) s.

Definition clearErrors (s : Editor num) : Editor num :=
  let c := circuit s in
  set_circuit (set_simulation (set_errors [] (simulation c)) c) s.

Definition setHoveredComponent (id : option string) (s : Editor num) : Editor num :=
  mk_Editor (circuit s) (mode s) (selectedComponentIds s) id (wireDrawing s).

(** [handleRunStop] of the simulation controls: the Run/Stop button. *)
Definition handleRunStop (s : Editor num) : Editor num :=
  if running (simulation (circuit s)) then stopSimulation_ s
  else startSimulation (clearErrors s).

(** A tick, on the whole store. *)
Definition tick (simulate : num -> JsMap.t num -> Component.t num -> Component.t num)
    (checkErrors : Component.t num -> list (CircuitError num))
    (uuidv4 : string) (Date_now : num) (errorMessage : JsError -> string)
    (deltaTime : num) (s : Editor num) : Editor num :=
  set_circuit
    (stepSimulation simulate checkErrors uuidv4 Date_now errorMessage deltaTime (circuit s))
    s.

End Actions.
End Store.

(* ================================================================== *)
(** * Vocabulary of the statements                                     *)
(* ================================================================== *)

Unset Implicit Arguments.

(** A run of ticks: [simulate] is called once per tick with that tick's
    [deltaTime] and node voltages. *)
Definition runTicks {num C : Type} (simulate : num -> JsMap.t num -> C -> C)
    (ticks : list (num * JsMap.t num)) (this : C) : C :=
  fold_left (fun c tick => simulate (fst tick) (snd tick) c) ticks this.

Section StateModelVocabulary.
Context {num : Type} `{JsNumber num}.
Local Open Scope js_scope.

(** The burn-out limit that the constructor sets and that every
    re-synchronisation of the ratings restores: 1.5 × the rated power. *)
Definition Lamp_limit_in_sync (p : Lamp.properties num) : Prop :=
  Lamp.maxPower p = Lamp.powerRating p * of_Q 1.5.

(** The waveform is the constant one ([DC], the constructor's default), or
    there is none. *)
Definition VoltageSource_is_DC (p : VoltageSource.properties num) : Prop :=
  match VoltageSource.waveform p with
  | Some w => wf_type w = WaveformType.DC
  | None => True
  end.

(** Some error of the list carries the halt flag. *)
Definition anyHalting (errs : list (CircuitError num)) : bool :=
  existsb (fun e => stopSimulation e) errs.

End StateModelVocabulary.

Section Circuits.
Context {num : Type} `{JsNumber num}.

(** A dedicated DC source set to [V] volts. *)
Definition voltageSourceOf (id : string) (V : num) : Component.t num :=
  let vs := VoltageSource.new id in
  Component.of_instance Component.PVoltageSource
    (BaseComponent.set_properties
       (VoltageSource.set_voltage V (BaseComponent.properties vs)) vs).

Definition resistorOf (id : string) (R : num) : Component.t num :=
  Component.of_instance Component.PResistor (Resistor.new id R).

Definition wireOf (id from to : string) : Wire.t num :=
  Wire.mk id from to (of_Q 0) (of_Q 0).

(** The source [V1], the resistor [R1], a wire from the source's positive
    terminal to the resistor's first terminal and a wire from the
    resistor's second terminal back to the source's negative terminal. *)
Definition sourceAcrossResistor (V R : num) : list (Component.t num) :=
  [voltageSourceOf "V1" V; resistorOf "R1" R].

Definition loopWires : list (Wire.t num) :=
  [wireOf "w1" "V1-positive" "R1-terminal1";
   wireOf "w2" "R1-terminal2" "V1-negative"].

End Circuits.

Section NodeVocabulary.
Import CircuitSolver.
Implicit Types (p : JsMap.t string) (i j r : string).

(** [RootOf p i r]: following the [parent] links from [i] ends at the
    root [r]. *)
Inductive RootOf p : string -> string -> Prop :=
| RootOf_self r : JsMap.get r p = Some r -> RootOf p r r
| RootOf_step i j r :
    JsMap.get i p = Some j -> j <> i -> RootOf p j r -> RootOf p i r.

(** The [parent] map is a forest: every value is a key, and a height [h],
    bounded by [m], grows strictly along every link that is not a self
    link. *)
Definition Forest (h : string -> nat) (m : nat) p : Prop :=
  (forall k v, JsMap.get k p = Some v ->
     JsMap.get v p <> None /\ (v <> k -> h k < h v))
  /\ (forall k, h k <= m).

(** The invariant of the loop that builds [nodes] and [terminalToNode]. *)
Definition NodesInv (h : string -> nat) (m : nat) (p0 : JsMap.t string)
    (s : JsMap.t string * JsMap.t (list string) * JsMap.t string) : Prop :=
  let '(parent, nodes, terminalToNode) := s in
  Forest h m parent
  /\ (forall k, JsMap.get k parent <> None <-> JsMap.get k p0 <> None)
  /\ (forall t r, JsMap.get t terminalToNode = Some r ->
        RootOf parent t r /\ JsMap.get r nodes <> None)
  /\ NoDup (JsMap.keys nodes).

End NodeVocabulary.

Section GroundVocabulary.
Context {num : Type}.
Import CircuitSolver BaseComponent.

(** The ground selection policy, as [identifyNodes] has it: the node that
    holds the second terminal of the first dedicated voltage source (type
    [VOLTAGE_SOURCE]; batteries and ground references are not looked at),
    when there is such a terminal and its node id is a non-empty string;
    otherwise the first node in discovery order; no ground when there is no
    node at all. *)
Definition sourceNode (components : list (Component.t num)) (st : Nodes) : option string :=
  match firstVoltageSource components with
  | Some vSource =>
      match nth_error (terminals vSource) 1 with
      | Some negTerminal => JsMap.get (Terminal.id negTerminal) (terminalToNode st)
      | None => None
      end
  | None => None
  end.

Definition groundChoice (groundNodeId : option string) (nodeIds : list string)
  : option string :=
  match groundNodeId with
  | Some g => if nonEmpty g then Some g else hd_error nodeIds
  | None => hd_error nodeIds
  end.

Definition chosenGround (components : list (Component.t num)) (st : Nodes) : option string :=
  groundChoice (sourceNode components st) (JsMap.keys (nodes st)).

End GroundVocabulary.

(** Proof tools for a solve over the reals: the operations on real numbers
    stay folded while the rest of the solver is evaluated. *)
Ltac lazyR :=
  lazy -[Rplus Rminus Rmult Rdiv Rabs Rmax Rmin Rgt_dec Rlt_dec Req_dec_T Q2R Ropp Rinv IZR].

Ltac lazyS :=
  with_strategy opaque
    [Rdiv Rminus Rabs Rmax Rmin Q2R IZR sqrt
     Exact.mod1 Exact.gt Exact.lt Exact.truthy
     CircuitSolver.gaussianElimination CircuitSolver.vget] lazy.

(* ================================================================== *)
(** * Vocabulary of the further statements                             *)
(* ================================================================== *)

Section CircuitVocabulary.
Context {num : Type}.
Import CircuitSolver BaseComponent.

(** The terminal [id] belongs to one of the components. *)
Definition isTerminalOf (components : list (Component.t num)) (id : string) : Prop :=
  exists c t, In c components /\ In t (terminals c) /\ Terminal.id t = id.

(** Two terminals are connected by a chain of wires, followed in either
    direction. *)
Inductive Connected (wires : list (Wire.t num)) : string -> string -> Prop :=
| Connected_refl a : Connected wires a a
| Connected_wire w :
    In w wires -> Connected wires (Wire.fromTerminal w) (Wire.toTerminal w)
| Connected_sym a b : Connected wires a b -> Connected wires b a
| Connected_trans a b c :
    Connected wires a b -> Connected wires b c -> Connected wires a c.

(** Every terminal names the component that holds it: the shape in which
    [addComponent] stores a component. *)
Definition terminalsOwned (components : list (Component.t num)) : Prop :=
  forall c t, In c components -> In t (terminals c) -> Terminal.componentId t = id c.

End CircuitVocabulary.

Section TickVocabulary.
Context {num : Type} `{JsNumber num}.
Local Open Scope js_scope.
Import BaseComponent.

(** No two errors of the list share an id or a message. *)
Definition ErrorsDistinct (errs : list (CircuitError num)) : Prop :=
  NoDup (map (fun e => err_id e) errs) /\ NoDup (map (fun e => message e) errs).

(** The current ratio |I| / rating that a tick of an intact fuse computes
    from the node voltages. *)
Definition Fuse_currentRatio (rating : num) (id0 id1 : string) (nv : JsMap.t num) : num :=
  Math_abs ((voltageAt nv id0 - voltageAt nv id1) / of_Q 0.01) / rating.

End TickVocabulary.

Section RealVocabulary.
Import CircuitSolver.
Local Open Scope R_scope.
Implicit Types (A : Matrix (num := R)) (b x : Vector (num := R)).

(** What a battery state must satisfy for the tick to make sense. *)
Definition Battery_charge_in_range (p : Battery.properties R) : Prop :=
  0 < Battery.capacity p
  /\ 0 <= Battery.chargeRemaining p <= Battery.capacity p
  /\ 0 <= Battery.voltage p.

(** The sum of [f j] over [lo <= j < lo + len], as the loops compute it. *)
Definition bigsum (f : nat -> R) (lo len : nat) : R :=
  fold_left (fun s j => s + f j) (seq lo len) 0.

(** Row [i] of [A] times [x]. *)
Definition rowTimes (n : nat) A x (i : nat) : R :=
  bigsum (fun j => mget A i j * vget x j) 0 n.

(** [x] solves the system [A x = b]. *)
Definition Solves (n : nat) A b x : Prop :=
  forall i, (i < n)%nat -> rowTimes n A x i = vget b i.

End RealVocabulary.

(* ================================================================== *)
(** * Facts about [JsMap]                                              *)
(* ================================================================== *)

Section JsMapFacts.
Context {V : Type}.
Implicit Types (m : JsMap.t V) (k : string) (v : V).

Lemma JsMap_get_set_same k v m : JsMap.get k (JsMap.set k v m) = Some v.
Proof.
  induction m as [|[k' v'] m IH]; cbn.
  - now rewrite String.eqb_refl.
  - destruct (String.eqb k' k) eqn:E; cbn; rewrite E; auto.
Qed.

Lemma JsMap_get_set_other k k' v m :
  k <> k' -> JsMap.get k' (JsMap.set k v m) = JsMap.get k' m.
Proof.
  intros Hne. induction m as [|[k0 v0] m IH]; cbn.
  - destruct (String.eqb k k') eqn:E; [apply String.eqb_eq in E; contradiction|reflexivity].
  - destruct (String.eqb k0 k) eqn:E; cbn.
    + apply String.eqb_eq in E. subst k0.
      destruct (String.eqb k k') eqn:E'; [apply String.eqb_eq in E'; contradiction|reflexivity].
    + now rewrite IH.
Qed.

Lemma JsMap_get_set k k' v m :
  JsMap.get k' (JsMap.set k v m) = if String.eqb k k' then Some v else JsMap.get k' m.
Proof.
  destruct (String.eqb k k') eqn:E.
  - apply String.eqb_eq in E. subst. apply JsMap_get_set_same.
  - apply String.eqb_neq in E. now apply JsMap_get_set_other.
Qed.

Lemma JsMap_get_In_keys k m : JsMap.get k m <> None <-> In k (JsMap.keys m).
Proof.
  unfold JsMap.keys. induction m as [|[k' v'] m IH]; cbn.
  - split; [congruence|tauto].
  - destruct (String.eqb k' k) eqn:E.
    + apply String.eqb_eq in E. split; [auto|congruence].
    + apply String.eqb_neq in E. rewrite IH. split; [auto|intros [?|?]; [contradiction|auto]].
Qed.

Lemma JsMap_keys_set_present k v m :
  JsMap.get k m <> None -> JsMap.keys (JsMap.set k v m) = JsMap.keys m.
Proof.
  unfold JsMap.keys. induction m as [|[k' v'] m IH]; cbn; [congruence|].
  destruct (String.eqb k' k) eqn:E; cbn; [reflexivity|].
  intros Hg. now rewrite IH.
Qed.

Lemma JsMap_keys_set_absent k v m :
  JsMap.get k m = None -> JsMap.keys (JsMap.set k v m) = JsMap.keys m ++ [k].
Proof.
  unfold JsMap.keys. induction m as [|[k' v'] m IH]; cbn; [reflexivity|].
  destruct (String.eqb k' k) eqn:E; cbn; [congruence|].
  intros Hg. now rewrite IH.
Qed.

Lemma JsMap_keys_set_NoDup k v m :
  NoDup (JsMap.keys m) -> NoDup (JsMap.keys (JsMap.set k v m)).
Proof.
  intros Hnd. destruct (JsMap.get k m) eqn:E.
  - rewrite JsMap_keys_set_present; [exact Hnd|congruence].
  - rewrite JsMap_keys_set_absent by exact E.
    apply NoDup_app; [exact Hnd|repeat constructor; cbn; tauto|].
    intros x Hx [<-|[]]. apply JsMap_get_In_keys in Hx. contradiction.
Qed.

Lemma JsMap_has_true k m : JsMap.has k m = true <-> JsMap.get k m <> None.
Proof.
  unfold JsMap.has. destruct (JsMap.get k m); split; congruence.
Qed.

End JsMapFacts.

(* ================================================================== *)
(** * Facts about the component state models                           *)
(* ================================================================== *)



Lemma runTicks_app {num C : Type} (simulate : num -> JsMap.t num -> C -> C) l1 l2 c :
  runTicks simulate (l1 ++ l2) c = runTicks simulate l2 (runTicks simulate l1 c).
Proof. unfold runTicks. apply fold_left_app. Qed.

Section FuseFacts.
Context {num : Type} `{JsNumber num}.
Local Open Scope js_scope.
Import BaseComponent.

Lemma Fuse_simulate_terminals dt nv (this : Fuse.t num) t0 t1 rest :
  terminals this = t0 :: t1 :: rest ->
  exists t0' t1', terminals (Fuse.simulate dt nv this) = t0' :: t1' :: rest.
Proof.
  intros Ht. unfold Fuse.simulate. rewrite Ht. cbn. eauto.
Qed.

(** A blown fuse stays blown and is an open circuit after every tick. *)
Lemma Fuse_blown_tick dt nv (this : Fuse.t num) t0 t1 rest :
  terminals this = t0 :: t1 :: rest ->
  Fuse.blown (properties this) = true ->
  let p' := properties (Fuse.simulate dt nv this) in
  Fuse.blown p' = true /\ Fuse.resistance p' = of_Q 1000000000 /\ Fuse.current p' = of_Q 0.
Proof.
  intros Ht Hb. unfold Fuse.simulate. rewrite Ht. cbn. rewrite Hb. cbn. auto.
Qed.

Lemma Fuse_blown_run ticks : forall (this : Fuse.t num) t0 t1 rest,
  terminals this = t0 :: t1 :: rest ->
  Fuse.blown (properties this) = true ->
  ticks <> [] ->
  let p' := properties (runTicks Fuse.simulate ticks this) in
  Fuse.blown p' = true /\ Fuse.resistance p' = of_Q 1000000000 /\ Fuse.current p' = of_Q 0.
Proof.
  induction ticks as [|[dt nv] ticks IH]; intros this t0 t1 rest Ht Hb Hne; [congruence|].
  cbn. destruct (Fuse_simulate_terminals dt nv this t0 t1 rest Ht) as (t0' & t1' & Ht').
  destruct (Fuse_blown_tick dt nv this t0 t1 rest Ht Hb) as (Hb' & Hr & Hc).
  destruct ticks as [|tick ticks].
  - cbn. auto.
  - apply (IH _ t0' t1' rest Ht' Hb'). discriminate.
Qed.

(** C5.  One tick of an intact fuse whose current ratio |I|/rating exceeds 1
    (for a 1 A fuse carrying 3 A the ratio is 3) adds ratio² × deltaTime to
    the accumulated heat, and the fuse is blown at the end of exactly that
    tick if the new heat exceeds the threshold 2.  From a blown fuse, after
    every later tick (whatever the time steps and node voltages, as long as
    [replace] is not called) the fuse is still blown, its resistance is 1e9,
    its current is 0, and the solver stamps it with the resistance 1e9. *)
Theorem Fuse_heat_accumulates_then_blown_is_terminal
    (dt : num) (nv : JsMap.t num) (this : Fuse.t num) t0 t1 rest :
  terminals this = t0 :: t1 :: rest ->
  type this = ComponentType.FUSE ->
  let p := properties this in
  let p' := properties (Fuse.simulate dt nv this) in
  let current' := (voltageAt nv (Terminal.id t0) - voltageAt nv (Terminal.id t1)) / of_Q 0.01 in
  let currentRatio := Math_abs current' / Fuse.rating p in
  (Fuse.blown p = false -> (currentRatio > of_Q 1) = true ->
     Fuse.heatAccumulated p'
       = Fuse.heatAccumulated p + (currentRatio * currentRatio) * dt
     /\ Fuse.blown p' = (Fuse.heatAccumulated p' > of_Q 2)
     /\ Fuse.current p' = current')
  /\ (Fuse.blown p = true ->
      forall ticks, ticks <> [] ->
        let q := runTicks Fuse.simulate ticks this in
        Fuse.blown (properties q) = true
        /\ Fuse.resistance (properties q) = of_Q 1000000000
        /\ Fuse.current (properties q) = of_Q 0
        /\ CircuitSolver.resistanceOf (Component.of_instance Component.PFuse q)
           = Some (of_Q 1000000000)).
Proof.
  intros Ht Hty0 p p' current' currentRatio. split.
  - intros Hb Hr. subst p'. unfold Fuse.simulate. rewrite Ht. cbn.
    fold p. rewrite Hb. cbn. fold current'. fold currentRatio. rewrite Hr. cbn.
    unfold Fuse.blowThreshold.
    destruct (Fuse.heatAccumulated p + currentRatio * currentRatio * dt > of_Q 2) eqn:E;
      cbn; rewrite ?Hb; auto.
  - intros Hb ticks Hne q.
    destruct (Fuse_blown_run ticks this t0 t1 rest Ht Hb Hne) as (Hb' & Hr' & Hc').
    fold q in Hb', Hr', Hc'. repeat split; auto.
    unfold CircuitSolver.resistanceOf, Component.of_instance. cbn.
    assert (Hty : type q = type this).
    { subst q. clear. revert this. induction ticks as [|[d n] l IH]; intros this; [reflexivity|].
      cbn. unfold runTicks in IH. rewrite IH. unfold Fuse.simulate.
      destruct (terminals this) as [|a [|b r]]; reflexivity. }
    rewrite Hty, Hty0, Hb'. reflexivity.
Qed.

End FuseFacts.

Section LampFacts.
Context {num : Type} `{JsNumber num}.
Local Open Scope js_scope.
Import BaseComponent.

Lemma Lamp_simulate_terminals dt nv (this : Lamp.t num) t0 t1 rest :
  terminals this = t0 :: t1 :: rest ->
  exists t0' t1', terminals (Lamp.simulate dt nv this) = t0' :: t1' :: rest.
Proof.
  intros Ht. unfold Lamp.simulate. rewrite Ht. cbn. eauto.
Qed.

(** Re-synchronising the ratings touches [resistance] and [maxPower] only. *)
Lemma Lamp_syncRatings_frame (p : Lamp.properties num) :
  Lamp.broken (Lamp.syncRatings p) = Lamp.broken p
  /\ Lamp.voltage (Lamp.syncRatings p) = Lamp.voltage p
  /\ Lamp.powerRating (Lamp.syncRatings p) = Lamp.powerRating p.
Proof.
  unfold Lamp.syncRatings.
  destruct (Math_abs _ > of_Q 0.01); cbn; auto.
Qed.

(** A broken lamp stays broken, dark and open after a tick. *)
Lemma Lamp_broken_tick dt nv (this : Lamp.t num) t0 t1 rest :
  terminals this = t0 :: t1 :: rest ->
  Lamp.broken (properties this) = true ->
  let p' := properties (Lamp.simulate dt nv this) in
  Lamp.broken p' = true /\ Lamp.brightness p' = of_Q 0
  /\ Lamp.current p' = of_Q 0 /\ Lamp.resistance p' = of_Q 1000000000.
Proof.
  intros Ht Hb. unfold Lamp.simulate. rewrite Ht. cbn -[Lamp.syncRatings].
  destruct (Lamp_syncRatings_frame
              (Lamp.set_voltage
                 (voltageAt nv (Terminal.id t0) - voltageAt nv (Terminal.id t1))
                 (properties this))) as (Eb & _).
  cbn -[Lamp.syncRatings] in Eb. rewrite Eb, Hb. cbn -[Lamp.syncRatings].
  rewrite Eb, Hb. auto.
Qed.

Lemma Lamp_broken_run ticks : forall (this : Lamp.t num) t0 t1 rest,
  terminals this = t0 :: t1 :: rest ->
  Lamp.broken (properties this) = true ->
  ticks <> [] ->
  let p' := properties (runTicks Lamp.simulate ticks this) in
  Lamp.broken p' = true /\ Lamp.brightness p' = of_Q 0
  /\ Lamp.current p' = of_Q 0 /\ Lamp.resistance p' = of_Q 1000000000.
Proof.
  induction ticks as [|[dt nv] ticks IH]; intros this t0 t1 rest Ht Hb Hne; [congruence|].
  cbn. destruct (Lamp_simulate_terminals dt nv this t0 t1 rest Ht) as (t0' & t1' & Ht').
  destruct (Lamp_broken_tick dt nv this t0 t1 rest Ht Hb) as (Hb' & Hr).
  destruct ticks as [|tick ticks].
  - cbn. auto.
  - apply (IH _ t0' t1' rest Ht' Hb'). discriminate.
Qed.


Lemma Lamp_new_limit_in_sync id voltageRating powerRating :
  Lamp_limit_in_sync (properties (Lamp.new id voltageRating powerRating)).
Proof. reflexivity. Qed.

Lemma Lamp_syncRatings_limit_in_sync (p : Lamp.properties num) :
  Lamp_limit_in_sync p -> Lamp_limit_in_sync (Lamp.syncRatings p).
Proof.
  unfold Lamp_limit_in_sync, Lamp.syncRatings. intros Hs.
  destruct (Math_abs _ > of_Q 0.01); cbn; auto.
Qed.

Lemma Lamp_simulate_limit_in_sync dt nv (this : Lamp.t num) :
  Lamp_limit_in_sync (properties this) ->
  Lamp_limit_in_sync (properties (Lamp.simulate dt nv this)).
Proof.
  intros Hs. unfold Lamp.simulate.
  destruct (terminals this) as [|a [|b r]]; auto. cbn -[Lamp.syncRatings].
  set (v := voltageAt nv (Terminal.id a) - voltageAt nv (Terminal.id b)).
  assert (Hs' : Lamp_limit_in_sync (Lamp.syncRatings (Lamp.set_voltage v (properties this)))).
  { apply Lamp_syncRatings_limit_in_sync. exact Hs. }
  revert Hs'. generalize (Lamp.syncRatings (Lamp.set_voltage v (properties this))).
  intros q Hq. unfold Lamp_limit_in_sync in *.
  destruct (Lamp.broken q); cbn; auto.
  match goal with |- context [if ?c then _ else _] => destruct c end; cbn; auto.
Qed.

(** C6, for a lamp whose burn-out limit is in sync with its rating.  A
    tick of an intact lamp sets the brightness to
    min(√(power/powerRating), 1.5), and the lamp is broken at the end of the
    tick exactly when the tick's power exceeds the burn-out limit
    [maxPower]; that limit is 1.5 × powerRating whenever it was so before
    the tick (the constructor sets it so and every tick keeps it so; an
    edit of [powerRating] that moves V²/P by at most 0.01 leaves the old
    limit in place, as the run of the derated lamp shows).  From
    a broken lamp, after every later tick the lamp is still broken (no tick
    resets the flag, so the transition happens once) and reports brightness
    0, current 0 and the resistance 1e9. *)
Theorem Lamp_breaks_once_and_stays_dark
    (dt : num) (nv : JsMap.t num) (this : Lamp.t num) t0 t1 rest :
  terminals this = t0 :: t1 :: rest ->
  let p := properties this in
  let p' := properties (Lamp.simulate dt nv this) in
  (Lamp.broken p = false ->
     Lamp.brightness p'
       = Math_min (Math_sqrt (Lamp.power p' / Lamp.powerRating p)) (of_Q 1.5)
     /\ Lamp.power p' = Math_abs (Lamp.voltage p' * (Lamp.voltage p' / Lamp.resistance p'))
     /\ Lamp.voltage p'
        = voltageAt nv (Terminal.id t0) - voltageAt nv (Terminal.id t1)
     /\ Lamp.broken p' = (Lamp.power p' > Lamp.maxPower p')
     /\ (Lamp_limit_in_sync p ->
         Lamp.maxPower p' = Lamp.powerRating p * of_Q 1.5
         /\ Lamp.broken p' = (Lamp.power p' > Lamp.powerRating p * of_Q 1.5)))
  /\ (Lamp.broken p = true ->
      forall ticks, ticks <> [] ->
        let q := properties (runTicks Lamp.simulate ticks this) in
        Lamp.broken q = true /\ Lamp.brightness q = of_Q 0
        /\ Lamp.current q = of_Q 0 /\ Lamp.resistance q = of_Q 1000000000).
Proof.
  intros Ht p p'. split.
  - intros Hb.
    assert (Hsync : Lamp_limit_in_sync p ->
                    Lamp.maxPower p' = Lamp.powerRating p * of_Q 1.5).
    { intros Hs. pose proof (Lamp_simulate_limit_in_sync dt nv this Hs) as Hs'.
      fold p' in Hs'. unfold Lamp_limit_in_sync in Hs'. rewrite Hs'.
      subst p'. unfold Lamp.simulate. rewrite Ht. cbn -[Lamp.syncRatings]. fold p.
      set (v := voltageAt nv (Terminal.id t0) - voltageAt nv (Terminal.id t1)).
      destruct (Lamp_syncRatings_frame (Lamp.set_voltage v p)) as (_ & _ & Ep).
      cbn -[Lamp.syncRatings] in Ep. revert Ep.
      generalize (Lamp.syncRatings (Lamp.set_voltage v p)). intros q Ep.
      destruct (Lamp.broken q); cbn; [now rewrite Ep|].
      match goal with |- context [if ?c then _ else _] => destruct c end;
        cbn; now rewrite Ep. }
    assert (Hmain :
      Lamp.brightness p'
        = Math_min (Math_sqrt (Lamp.power p' / Lamp.powerRating p)) (of_Q 1.5)
      /\ Lamp.power p' = Math_abs (Lamp.voltage p' * (Lamp.voltage p' / Lamp.resistance p'))
      /\ Lamp.voltage p'
         = voltageAt nv (Terminal.id t0) - voltageAt nv (Terminal.id t1)
      /\ Lamp.broken p' = (Lamp.power p' > Lamp.maxPower p')).
    { subst p'. unfold Lamp.simulate. rewrite Ht. cbn -[Lamp.syncRatings]. fold p.
      set (v := voltageAt nv (Terminal.id t0) - voltageAt nv (Terminal.id t1)).
      destruct (Lamp_syncRatings_frame (Lamp.set_voltage v p)) as (Eb & Ev & Ep).
      cbn -[Lamp.syncRatings] in Eb, Ev, Ep.
      revert Eb Ev Ep. generalize (Lamp.syncRatings (Lamp.set_voltage v p)).
      intros q Eb Ev Ep. rewrite Eb, Hb. cbn.
      match goal with |- context [if ?c then _ else _] => destruct c eqn:E end;
        cbn; rewrite ?Ep in *; rewrite ?E, ?Eb, ?Hb; auto. }
    destruct Hmain as (H1 & H2 & H3 & H4).
    split; [exact H1|]. split; [exact H2|]. split; [exact H3|]. split; [exact H4|].
    intros Hs. split; [exact (Hsync Hs)|]. rewrite H4, (Hsync Hs). reflexivity.
  - intros Hb ticks Hne. apply (Lamp_broken_run ticks this t0 t1 rest Ht Hb Hne).
Qed.

End LampFacts.

Section BatteryFacts.
Context {num : Type} `{JsNumber num}.
Local Open Scope js_scope.
Import BaseComponent.

(** C7, as the code has it.  On a tick with discharge current > 0 the
    remaining charge becomes max(0, chargeRemaining − current·deltaTime·1000/3600)
    and the nominal voltage is multiplied by max(0.7, remaining fraction):
    the voltage follows the remaining fraction on every discharging tick,
    and 0.7 bounds the factor of one tick from below.  On a tick without
    discharge current neither changes. *)
Theorem Battery_discharge_scales_voltage_every_tick
    (dt : num) (nv : JsMap.t num) (this : Battery.t num) t0 t1 rest :
  terminals this = t0 :: t1 :: rest ->
  let p := properties this in
  let p' := properties (Battery.simulate dt nv this) in
  let current' :=
    (Battery.voltage p
     - (voltageAt nv (Terminal.id t0) - voltageAt nv (Terminal.id t1)))
    / Battery.internalResistance p in
  Battery.current p' = current'
  /\ ((current' > of_Q 0) = true ->
      Battery.chargeRemaining p'
        = Math_max (of_Q 0)
            (Battery.chargeRemaining p - (current' * dt * of_Q 1000) / of_Q 3600)
      /\ Battery.chargePercent p'
         = (Battery.chargeRemaining p' / Battery.capacity p) * of_Q 100
      /\ Battery.voltage p'
         = Battery.voltage p * Math_max (of_Q 0.7) (Battery.chargePercent p' / of_Q 100))
  /\ ((current' > of_Q 0) = false ->
      Battery.chargeRemaining p' = Battery.chargeRemaining p
      /\ Battery.voltage p' = Battery.voltage p).
Proof.
  intros Ht p p' current'. subst p'. unfold Battery.simulate. rewrite Ht. cbn.
  fold p. fold current'.
  destruct (current' > of_Q 0) eqn:E; cbn; repeat split; auto; discriminate.
Qed.

End BatteryFacts.

Section VoltageSourceFacts.
Context {num : Type} `{JsNumber num}.
Local Open Scope js_scope.
Import BaseComponent.


(** C4, as the code has it.  [simulate] never looks at [deltaTime]; its
    output is a function of the source's state, the node voltages and the
    wall-clock reading [performance.now()].  With the DC waveform the clock
    reading is not used either, so two ticks from the same state give the
    same output whatever the clock says. *)
Theorem VoltageSource_output_is_clock_driven
    (Math_sin : num -> num) (Math_PI : num) (nv : JsMap.t num)
    (this : VoltageSource.t num) :
  (forall now dt1 dt2,
     VoltageSource.simulate Math_sin Math_PI now dt1 nv this
     = VoltageSource.simulate Math_sin Math_PI now dt2 nv this)
  /\ (VoltageSource_is_DC (properties this) ->
      forall now1 now2 dt1 dt2,
        VoltageSource.simulate Math_sin Math_PI now1 dt1 nv this
        = VoltageSource.simulate Math_sin Math_PI now2 dt2 nv this).
Proof.
  split; [reflexivity|].
  unfold VoltageSource_is_DC. intros Hdc now1 now2 dt1 dt2.
  unfold VoltageSource.simulate.
  destruct (terminals this) as [|a [|b r]]; auto.
  destruct (VoltageSource.waveform (properties this)) as [w|]; [|reflexivity].
  unfold VoltageSource.waveformOutput. rewrite Hdc. reflexivity.
Qed.

End VoltageSourceFacts.

Section Float64Facts.
Import SpecFloat FloatOps.

Lemma SFleb_of_not_SFltb (x : spec_float) (m : positive) (e : Z) :
  SFeqb x x = true ->
  SFltb x (S754_finite false m e) = false ->
  SFleb (S754_finite false m e) x = true.
Proof.
  destruct x as [s|s| |s m' e']; cbn; try congruence.
  - destruct s; cbn; congruence.
  - destruct s; cbn; try congruence. intros _.
    unfold SFltb, SFleb. cbn.
    rewrite (Z.compare_antisym e' e).
    destruct (e' ?= e)%Z; cbn; try congruence.
    pose proof (Pos.compare_cont_antisym m' m Eq) as Ha. cbn [CompOpp] in Ha.
    rewrite <- Ha.
    destruct (Pos.compare_cont Eq m' m); cbn; congruence.
Qed.

Lemma SFeqb_zero_of_SFleb (x : spec_float) (m : positive) (e : Z) :
  SFleb (S754_finite false m e) x = true ->
  SFeqb x (S754_zero false) = false.
Proof.
  destruct x as [s|s| |s m' e']; cbn; try congruence.
  - destruct s; reflexivity.
  - destruct s; reflexivity.
Qed.

(** [Math.max(x, c)] for a positive constant [c] and a number [x] (any
    binary64 value but NaN, the infinities and both zeros included) is at
    least [c], and it is not zero. *)
Lemma Float64_max_lower_bound (x c : float) (m : positive) (e : Z) :
  FloatOps.Prim2SF c = S754_finite false m e ->
  PrimFloat.is_nan x = false ->
  PrimFloat.leb c (Float64.max x c) = true
  /\ PrimFloat.eqb (Float64.max x c) PrimFloat.zero = false.
Proof.
  intros Hc Hn.
  assert (Hcc : PrimFloat.leb c c = true).
  { rewrite FloatAxioms.leb_spec, Hc. unfold SFleb. cbn.
    rewrite Z.compare_refl, Pos.compare_cont_refl. reflexivity. }
  assert (Hnc : PrimFloat.is_nan c = false).
  { unfold PrimFloat.is_nan. rewrite FloatAxioms.eqb_spec, Hc. unfold SFeqb. cbn.
    rewrite Z.compare_refl, Pos.compare_cont_refl. reflexivity. }
  assert (Hle : PrimFloat.leb c (Float64.max x c) = true).
  { unfold Float64.max. rewrite Hn, Hnc. cbn [orb].
    destruct (PrimFloat.ltb x c) eqn:E1; [exact Hcc|].
    assert (Hle : PrimFloat.leb c x = true).
    { rewrite FloatAxioms.leb_spec, Hc. rewrite FloatAxioms.ltb_spec, Hc in E1.
      apply SFleb_of_not_SFltb; [|exact E1].
      unfold PrimFloat.is_nan in Hn. rewrite FloatAxioms.eqb_spec in Hn.
      destruct (SFeqb _ _); [reflexivity|discriminate]. }
    destruct (PrimFloat.ltb c x); [exact Hle|].
    destruct (PrimFloat.is_zero x); [destruct (PrimFloat.get_sign x)|]; assumption. }
  split; [exact Hle|].
  rewrite FloatAxioms.leb_spec, Hc in Hle. rewrite FloatAxioms.eqb_spec.
  apply (SFeqb_zero_of_SFleb _ m e Hle).
Qed.

(** The literal [0.001] as a binary64 number. *)
Lemma Prim2SF_milli :
  FloatOps.Prim2SF (Float64.of_Q 0.001)
  = S754_finite false 4611686018427388 (-62).
Proof. vm_compute. reflexivity. Qed.

(** A binary64 value that is a number (not NaN), and one that is finite. *)
Definition SFnumber (x : spec_float) : bool :=
  match x with S754_nan => false | _ => true end.

Definition SFfin (x : spec_float) : bool :=
  match x with S754_zero _ | S754_finite _ _ _ => true | _ => false end.

Lemma SFeqb_self (x : spec_float) : SFeqb x x = SFnumber x.
Proof.
  destruct x as [s|s| |s m e]; cbn; try reflexivity.
  - destruct s; reflexivity.
  - unfold SFeqb. cbn. rewrite Z.compare_refl, Pos.compare_cont_refl.
    destruct s; reflexivity.
Qed.

Lemma is_nan_spec (x : float) :
  PrimFloat.is_nan x = negb (SFnumber (Prim2SF x)).
Proof.
  unfold PrimFloat.is_nan. now rewrite FloatAxioms.eqb_spec, SFeqb_self.
Qed.

Lemma is_infinity_spec (x : float) :
  PrimFloat.is_infinity x
  = match Prim2SF x with S754_infinity _ => true | _ => false end.
Proof.
  unfold PrimFloat.is_infinity.
  rewrite FloatAxioms.eqb_spec, FloatAxioms.abs_spec.
  assert (E : Prim2SF PrimFloat.infinity = S754_infinity false)
    by (vm_compute; reflexivity).
  rewrite E. destruct (Prim2SF x) as [s|s| |s m e]; reflexivity.
Qed.

Lemma finite_spec (x : float) : Float64.finite x = SFfin (Prim2SF x).
Proof.
  unfold Float64.finite. rewrite is_nan_spec, is_infinity_spec.
  destruct (Prim2SF x); reflexivity.
Qed.

(** Rounding never makes a NaN out of a non-negative mantissa: the result
    is a zero, a finite number or, by overflow, an infinity. *)
Lemma shr_1_nonneg (mrs : shr_record) :
  (0 <= shr_m mrs)%Z -> (0 <= shr_m (shr_1 mrs))%Z.
Proof.
  destruct mrs as [m r s]. destruct m as [|p|p]; cbn; try lia;
    destruct p; cbn; lia.
Qed.

Lemma iter_pos_keeps {A : Type} (P : A -> Prop) (f : A -> A) :
  (forall x, P x -> P (f x)) -> forall n x, P x -> P (iter_pos f n x).
Proof.
  intros Hf. induction n as [n IH|n IH|]; intros x Hx; cbn; auto.
Qed.

Lemma shr_fexp_nonneg (m e : Z) (l : location) :
  (0 <= m)%Z -> (0 <= shr_m (fst (shr_fexp prec emax m e l)))%Z.
Proof.
  intros Hm. unfold shr_fexp, shr.
  assert (H0 : (0 <= shr_m (shr_record_of_loc m l))%Z).
  { destruct l as [|[| |]]; exact Hm. }
  destruct (fexp prec emax (Zdigits2 m + e) - e)%Z; cbn [fst]; try exact H0.
  apply (iter_pos_keeps (fun r => (0 <= shr_m r)%Z)); [apply shr_1_nonneg|exact H0].
Qed.

Lemma round_nearest_even_nonneg (m : Z) (l : location) :
  (0 <= m)%Z -> (0 <= round_nearest_even m l)%Z.
Proof.
  intros Hm. destruct l as [|[| |]]; cbn; try lia. destruct (Z.even m); lia.
Qed.

Lemma binary_round_aux_number (s : bool) (m e : Z) (l : location) :
  (0 <= m)%Z -> SFnumber (binary_round_aux prec emax s m e l) = true.
Proof.
  intros Hm. unfold binary_round_aux.
  pose proof (shr_fexp_nonneg m e l Hm) as H1.
  destruct (shr_fexp prec emax m e l) as [mrs' e']. cbn [fst] in H1.
  pose proof (shr_fexp_nonneg _ e' loc_Exact
                (round_nearest_even_nonneg _ (loc_of_shr_record mrs') H1)) as H2.
  destruct (shr_fexp prec emax _ e' loc_Exact) as [mrs'' e'']. cbn [fst] in H2.
  destruct (shr_m mrs'') as [|q|q]; [reflexivity| |lia].
  destruct (e'' <=? emax - prec)%Z; reflexivity.
Qed.

(** A finite number divided by a number that is neither zero nor NaN is a
    number. *)
Lemma SFdiv_number (x y : spec_float) :
  SFfin x = true ->
  match y with S754_finite _ _ _ | S754_infinity _ => True | _ => False end ->
  SFnumber (SFdiv prec emax x y) = true.
Proof.
  destruct x as [sx|sx| |sx mx ex]; try discriminate;
    destruct y as [sy|sy| |sy my ey]; intros _ Hy; try contradiction; try reflexivity.
  cbn [SFdiv]. unfold SFdiv_core_binary.
  set (m' := match (ex - ey - _)%Z with
             | Zpos _ => _ | Z0 => _ | Zneg _ => _ end).
  assert (Hm' : (0 <= m')%Z).
  { subst m'. destruct (ex - ey - _)%Z; try lia. apply Z.shiftl_nonneg. lia. }
  pose proof (Z.div_pos m' (Zpos my) Hm' ltac:(lia)) as Hq.
  unfold Z.div in Hq. destruct (Z.div_eucl m' (Zpos my)) as [q r].
  now apply binary_round_aux_number.
Qed.

(** A finite number that is not zero times a number is a number. *)
Lemma SFmul_number (s : bool) (m : positive) (e : Z) (y : spec_float) :
  SFnumber y = true ->
  SFnumber (SFmul prec emax (S754_finite s m e) y) = true.
Proof.
  destruct y as [sy|sy| |sy my ey]; intros Hy; try discriminate; try reflexivity.
  cbn [SFmul]. apply binary_round_aux_number. lia.
Qed.

(** A finite number that is truthy is not a zero. *)
Lemma truthy_finite (x : float) :
  Float64.finite x = true -> Float64.truthy x = true ->
  exists s m e, Prim2SF x = S754_finite s m e.
Proof.
  rewrite finite_spec. unfold Float64.truthy.
  rewrite FloatAxioms.eqb_spec.
  assert (E : Prim2SF PrimFloat.zero = S754_zero false) by (vm_compute; reflexivity).
  rewrite E. destruct (Prim2SF x) as [s|s| |s m e]; try discriminate; eauto.
Qed.

End Float64Facts.

Section CapacitorFacts.
Import BaseComponent SpecFloat FloatOps.
Local Open Scope js_scope.

(** The current written by a tick, for every number instance. *)
Lemma Capacitor_simulate_current {num : Type} `{JsNumber num}
    (deltaTime : num) (nv : JsMap.t num) (this : Capacitor.t num) t0 t1 rest :
  terminals this = t0 :: t1 :: rest ->
  let p := properties this in
  let dV := (voltageAt nv (Terminal.id t0) - voltageAt nv (Terminal.id t1))
            - num_or (Some (Capacitor.voltage p)) (of_Q 0) in
  Capacitor.current (properties (Capacitor.simulate deltaTime nv this))
  = Capacitor.capacitanceOrDefault p * (dV / Math_max deltaTime (of_Q 0.001)).
Proof.
  intros Ht p dV. unfold Capacitor.simulate. rewrite Ht. reflexivity.
Qed.

(** On binary64 the tick of a capacitor never makes a NaN by a division
    by zero: when [deltaTime] is a number and the capacitance and the
    voltage change are finite, the current is a number (finite or, when the
    quotient overflows, an infinity). *)
Lemma Capacitor_current_is_a_number
    (deltaTime : float) (nv : JsMap.t float) (this : Capacitor.t float) t0 t1 rest :
  terminals this = t0 :: t1 :: rest ->
  let p := properties this in
  let dV := (voltageAt nv (Terminal.id t0) - voltageAt nv (Terminal.id t1))
            - num_or (Some (Capacitor.voltage p)) (of_Q 0) in
  PrimFloat.is_nan deltaTime = false ->
  Float64.finite (Capacitor.capacitance p) = true ->
  Float64.finite dV = true ->
  PrimFloat.is_nan
    (Capacitor.current (properties (Capacitor.simulate deltaTime nv this))) = false.
Proof.
  intros Ht p dV Hdt Hc HdV.
  rewrite (Capacitor_simulate_current deltaTime nv this t0 t1 rest Ht).
  fold p. fold dV.
  change (@mul float _) with PrimFloat.mul. change (@div float _) with PrimFloat.div.
  rewrite is_nan_spec, FloatAxioms.mul_spec, FloatAxioms.div_spec.
  (* the capacitance in use is finite and not zero *)
  assert (HC : exists s m e,
             Prim2SF (Capacitor.capacitanceOrDefault p) = S754_finite s m e).
  { unfold Capacitor.capacitanceOrDefault, num_or.
    change (@truthy float _) with Float64.truthy.
    destruct (Float64.truthy (Capacitor.capacitance p)) eqn:Et.
    - now apply truthy_finite.
    - eexists. eexists. eexists. vm_compute. reflexivity. }
  destruct HC as (s & m & e & HC). rewrite HC.
  (* the divisor is at least 0.001 *)
  destruct (Float64_max_lower_bound deltaTime (Float64.of_Q 0.001) _ _ Prim2SF_milli Hdt)
    as [Hle _].
  rewrite FloatAxioms.leb_spec, Prim2SF_milli in Hle.
  change (@Math_max float _) with Float64.max. change (@of_Q float _) with Float64.of_Q.
  rewrite finite_spec in HdV.
  unfold FloatAxioms.SF64mul, FloatAxioms.SF64div.
  rewrite SFmul_number; [reflexivity|].
  apply SFdiv_number; [exact HdV|].
  destruct (Prim2SF (Float64.max deltaTime (Float64.of_Q 0.001))) as [sd|sd| |sd md ed];
    try exact I; cbn in Hle; discriminate.
Qed.

(** C10, as the code has it.  Whatever the number instance, the divisor of
    I = C·ΔV/Δt in a tick is max(deltaTime, 0.001) and the current written
    by the tick is the quotient by it.  Over the real numbers that divisor
    is at least 0.001 and so never zero, whatever [deltaTime] is (zero and
    negative values included).  On binary64 the same holds for every
    [deltaTime] that is a number (not NaN): the divisor is at least 0.001
    and is not zero.  So the tick never divides by zero: in exact
    arithmetic the current is the number whose product with the divisor is
    C·ΔV, and on binary64, when [deltaTime] is a number and the capacitance
    and the voltage change are finite, the current is a number too (never
    NaN): it is finite unless the quotient overflows to an infinity. *)
Theorem Capacitor_divisor_is_clamped :
  (forall (num : Type) (N : JsNumber num) (deltaTime : num) (nv : JsMap.t num)
          (this : Capacitor.t num) t0 t1 rest,
      terminals this = t0 :: t1 :: rest ->
      let p := properties this in
      let dV := (voltageAt nv (Terminal.id t0) - voltageAt nv (Terminal.id t1))
                - num_or (Some (Capacitor.voltage p)) (of_Q 0) in
      Capacitor.current (properties (Capacitor.simulate deltaTime nv this))
      = Capacitor.capacitanceOrDefault p * (dV / Math_max deltaTime (of_Q 0.001)))
  /\ (forall deltaTime : R,
        (Math_max deltaTime (of_Q 0.001) >= 0.001)%R
        /\ Math_max deltaTime (of_Q 0.001) <> 0%R)
  /\ (forall deltaTime : float,
        PrimFloat.is_nan deltaTime = false ->
        PrimFloat.leb (of_Q 0.001) (Math_max deltaTime (of_Q 0.001)) = true
        /\ PrimFloat.eqb (Math_max deltaTime (of_Q 0.001)) PrimFloat.zero = false)
  /\ (forall (deltaTime : R) (nv : JsMap.t R) (this : Capacitor.t R) t0 t1 rest,
        terminals this = t0 :: t1 :: rest ->
        let p := properties this in
        let dV := (voltageAt nv (Terminal.id t0) - voltageAt nv (Terminal.id t1))
                  - num_or (Some (Capacitor.voltage p)) (of_Q 0) in
        (Capacitor.current (properties (Capacitor.simulate deltaTime nv this))
         * Math_max deltaTime (of_Q 0.001)
         = Capacitor.capacitanceOrDefault p * dV)%R)
  /\ (forall (deltaTime : float) (nv : JsMap.t float) (this : Capacitor.t float)
             t0 t1 rest,
        terminals this = t0 :: t1 :: rest ->
        let p := properties this in
        let dV := (voltageAt nv (Terminal.id t0) - voltageAt nv (Terminal.id t1))
                  - num_or (Some (Capacitor.voltage p)) (of_Q 0) in
        PrimFloat.is_nan deltaTime = false ->
        Float64.finite (Capacitor.capacitance p) = true ->
        Float64.finite dV = true ->
        PrimFloat.is_nan
          (Capacitor.current (properties (Capacitor.simulate deltaTime nv this)))
        = false).
Proof.
  assert (Hreal : forall deltaTime : R,
             (Math_max deltaTime (of_Q 0.001) >= 0.001)%R
             /\ Math_max deltaTime (of_Q 0.001) <> 0%R).
  { intros deltaTime.
    assert (Hd : (Math_max deltaTime (of_Q 0.001) >= 0.001)%R).
    { cbn. unfold Q2R. cbn.
      pose proof (Rmax_r deltaTime (1 * / 1000)%R). lra. }
    split; [exact Hd|lra]. }
  split; [|split; [exact Hreal|split; [|split]]].
  - intros num N deltaTime nv this t0 t1 rest Ht.
    apply (Capacitor_simulate_current deltaTime nv this t0 t1 rest Ht).
  - intros deltaTime Hn.
    apply (Float64_max_lower_bound deltaTime (Float64.of_Q 0.001) _ _ Prim2SF_milli Hn).
  - intros deltaTime nv this t0 t1 rest Ht p dV.
    rewrite (Capacitor_simulate_current deltaTime nv this t0 t1 rest Ht).
    fold p. fold dV. destruct (Hreal deltaTime) as [_ Hne].
    change (@mul R _) with Rmult. change (@div R _) with Rdiv.
    field. exact Hne.
  - intros deltaTime nv this t0 t1 rest Ht.
    apply (Capacitor_current_is_a_number deltaTime nv this t0 t1 rest Ht).
Qed.

End CapacitorFacts.

(* ================================================================== *)
(** * Facts about the factory and the terminals                        *)
(* ================================================================== *)

Section FactoryFacts.
Context {num : Type} `{JsNumber num}.
Import BaseComponent.

(** C8, as the code has it.  Every kind that the factory implements is
    created with a fixed list of terminals: one terminal for a ground
    reference and two for each of the other eleven kinds; in particular a
    voltage source and a battery have the second terminal that the solver
    reads. *)
Theorem createComponent_terminal_count
    (id : string) (ty : ComponentType.t) (c : Component.t num) :
  ComponentFactory.createComponent id ty = Some c ->
  type c = ty
  /\ In ty ComponentFactory.getAvailableComponents
  /\ List.length (terminals c)
     = (if ComponentType.eqb ty ComponentType.GROUND then 1 else 2)
  /\ (ty = ComponentType.VOLTAGE_SOURCE \/ ty = ComponentType.BATTERY ->
      exists negTerminal, nth_error (terminals c) 1 = Some negTerminal).
Proof.
  intros Hc.
  destruct ty; cbn in Hc; try discriminate; injection Hc as <-; cbn;
    (split; [reflexivity|]); (split; [tauto|]); (split; [reflexivity|]);
    intros [E|E]; try discriminate E; eauto.
Qed.

End FactoryFacts.

(* ================================================================== *)
(** * Facts about the linear solver                                    *)
(* ================================================================== *)

Section GaussFacts.
Context {num : Type} `{JsNumber num}.
Import CircuitSolver.

Lemma upd_length {A : Type} (i : nat) (v : A) (l : list A) :
  List.length (upd i v l) = List.length l.
Proof.
  revert i; induction l as [|a l IH]; intros [|i]; cbn; auto.
Qed.

Lemma backSubstitution_length (n : nat) (A : Matrix) (b : Vector) :
  List.length (backSubstitution n A b) = n.
Proof.
  unfold backSubstitution.
  assert (G : forall (l : list nat) (x : Vector),
             List.length
               (fold_left
                  (fun x i =>
                     upd i
                       (div
                          (sub (vget b i)
                             (fold_left (fun sum j => add sum (mul (mget A i j) (vget x j)))
                                (range (S i) n) (of_Q 0)))
                          (mget A i i)) x) l x)
             = List.length x).
  { induction l as [|i l IH]; intros x; cbn; [reflexivity|].
    rewrite IH. apply upd_length. }
  rewrite G. apply repeat_length.
Qed.

End GaussFacts.

(* ================================================================== *)
(** * Facts about the step coordinator                                 *)
(* ================================================================== *)

Section StoreFacts.
Context {num : Type} `{JsNumber num}.
Variable simulate : num -> JsMap.t num -> Component.t num -> Component.t num.
Variable checkErrors : Component.t num -> list (CircuitError num).
Variable uuidv4 : string.
Variable Date_now : num.
Variable errorMessage : JsError -> string.
Import Store.


Lemma reportError_fold (errs0 : list (CircuitError num)) : forall errors h,
  snd (fold_left reportError errs0 (errors, h)) = h || anyHalting errs0.
Proof.
  induction errs0 as [|e l IH]; intros errors h; cbn.
  - now rewrite orb_false_r.
  - match goal with |- context [fold_left _ _ (?a, ?b)] => rewrite (IH a b) end.
    destruct (stopSimulation e), h; reflexivity.
Qed.

(** The loop over the components visits all of them, in order, whatever
    the errors are: there is no early exit. *)
Lemma checkComponent_fold dt nv comps : forall visited errors h,
  let r := fold_left (checkComponent simulate checkErrors dt nv) comps (visited, errors, h) in
  fst (fst r) = visited ++ map (simulate dt nv) comps
  /\ snd r = h || existsb (fun c => anyHalting (checkErrors (simulate dt nv c))) comps.
Proof.
  induction comps as [|c l IH]; intros visited errors h; cbn.
  - now rewrite app_nil_r, orb_false_r.
  - pose proof (reportError_fold (checkErrors (simulate dt nv c)) errors h) as E.
    destruct (fold_left reportError (checkErrors (simulate dt nv c)) (errors, h))
      as [errors' h'] eqn:F.
    cbn in E. subst h'.
    destruct (IH (visited ++ [simulate dt nv c]) errors'
                (h || anyHalting (checkErrors (simulate dt nv c)))) as [IH1 IH2].
    cbn in IH1, IH2. rewrite IH1, IH2. rewrite <- app_assoc. cbn.
    split; [reflexivity|]. now rewrite orb_assoc.
Qed.

(** C9.  In a tick whose solve succeeds, the components of the resulting
    state are all the components, each with the solver's values written and
    its own [simulate] applied; if one of them reports a fault with the halt
    flag (new or already in the error list), the resulting state is stopped,
    and otherwise it is still running.  The stop is decided after the loop
    over the components, so the stopped state holds the full update of the
    tick. *)
Theorem stepSimulation_halts_after_all_updates
    (deltaTime : num) (state : CircuitStore num)
    (result : CircuitSolver.SimulationResult num) :
  running (simulation state) = true ->
  CircuitSolver.solve (components state) (wires state) = Ok result ->
  let dt := mul deltaTime (speed (simulation state)) in
  let updated :=
    map (fun c => simulate dt (CircuitSolver.nodeVoltages result) (updateComponent result c))
      (components state) in
  let state' :=
    stepSimulation simulate checkErrors uuidv4 Date_now errorMessage deltaTime state in
  components state' = updated
  /\ ((exists c e, In c updated /\ In e (checkErrors c) /\ stopSimulation e = true) ->
      running (simulation state') = false)
  /\ ((forall c e, In c updated -> In e (checkErrors c) -> stopSimulation e = false) ->
      running (simulation state') = true).
Proof.
  intros Hrun Hsolve dt updated state'.
  subst state'. unfold stepSimulation. rewrite Hrun, Hsolve. cbn.
  fold dt.
  pose proof (checkComponent_fold dt (CircuitSolver.nodeVoltages result)
                (map (updateComponent result) (components state))
                [] (errors (simulation state)) false) as E.
  cbv zeta in E.
  destruct (fold_left _ (map (updateComponent result) (components state)) _)
    as [[comps errs] h] eqn:F.
  cbn in E. destruct E as [E1 E2]. rewrite map_map in E1. fold updated in E1.
  rewrite existsb_map in E2 || idtac.
  assert (Hh : h = existsb (fun c => anyHalting (checkErrors c)) updated).
  { rewrite E2. subst updated. clear.
    induction (components state) as [|c l IH]; cbn; [reflexivity|]. now rewrite IH. }
  split; [|split].
  - destruct h; cbn;
      repeat match goal with |- context [if ?c then _ else _] => destruct c; cbn end;
      exact E1.
  - intros (c & e & Hc & He & Hstop).
    assert (h = true) as ->.
    { rewrite Hh. apply existsb_exists. exists c. split; [exact Hc|].
      apply existsb_exists. exists e. auto. }
    reflexivity.
  - intros Hnone.
    assert (h = false) as ->.
    { rewrite Hh. apply not_true_is_false. intros Hex.
      apply existsb_exists in Hex. destruct Hex as (c & Hc & Hex).
      apply existsb_exists in Hex. destruct Hex as (e & He & Hstop).
      rewrite (Hnone c e Hc He) in Hstop. discriminate. }
    cbn. destruct (List.length errs); cbn; exact Hrun.
Qed.

(** The [catch] branch: when the solve throws, no component is updated; the
    tick reports one synthetic halting error and stops the run, unless
    errors are already listed, and then the run goes on as it is. *)
Lemma stepSimulation_solver_failure
    (deltaTime : num) (state : CircuitStore num) (e : JsError) :
  running (simulation state) = true ->
  CircuitSolver.solve (components state) (wires state) = Throw e ->
  let state' :=
    stepSimulation simulate checkErrors uuidv4 Date_now errorMessage deltaTime state in
  components state' = components state
  /\ (errors (simulation state) = [] ->
      running (simulation state') = false
      /\ exists err, errors (simulation state') = [err] /\ stopSimulation err = true)
  /\ (errors (simulation state) <> [] ->
      running (simulation state') = true
      /\ errors (simulation state') = errors (simulation state)).
Proof.
  intros Hrun Hsolve. cbv zeta. unfold stepSimulation. rewrite Hrun, Hsolve. cbn.
  split; [reflexivity|]. split.
  - intros ->. cbn. split; [reflexivity|]. eexists. split; reflexivity.
  - intros Hne. destruct (errors (simulation state)) as [|e0 l] eqn:E; [congruence|].
    cbn. rewrite E. split; [exact Hrun|reflexivity].
Qed.

End StoreFacts.

(* ================================================================== *)
(** * Facts about a resistor across a voltage source                   *)
(* ================================================================== *)

Section ResistorLoopFacts.
Local Open Scope string_scope.
Local Open Scope R_scope.
Import CircuitSolver.

Lemma Q2R_zero : Q2R 0 = 0.
Proof. unfold Q2R; cbn; lra. Qed.

Lemma Q2R_one : Q2R 1 = 1.
Proof. unfold Q2R; cbn; lra. Qed.

Lemma truthy_nonzero (x : R) : x <> 0 -> Exact.truthy x = true.
Proof.
  intros Hx. unfold Exact.truthy.
  destruct (Req_dec_T x 0); [contradiction|reflexivity].
Qed.

Lemma truthy_zero : Exact.truthy 0 = false.
Proof.
  unfold Exact.truthy. destruct (Req_dec_T 0 0); [reflexivity|contradiction].
Qed.

(** Two nodes: the one that holds the source's negative terminal is the
    ground, the other one is row 0. *)
Lemma identifyNodes_loop (V R : R) :
  identifyNodes (sourceAcrossResistor V R) loopWires
  = Ok (mk_Nodes
          [("R1-terminal1", ["V1-positive"; "R1-terminal1"]);
           ("V1-negative", ["V1-negative"; "R1-terminal2"])]
          [("V1-positive", "R1-terminal1"); ("V1-negative", "V1-negative");
           ("R1-terminal1", "R1-terminal1"); ("R1-terminal2", "V1-negative")]
          [("V1-negative", (-1)%Z); ("R1-terminal1", 0%Z)]).
Proof. lazy. reflexivity. Qed.

Lemma findPivot_loop (a : R) :
  findPivot [[a; 1]; [1; 0]] 2 0 = if Rgt_dec (Rabs 1) (Rabs a) then 1%nat else 0%nat.
Proof. lazyR. destruct (Rgt_dec (Rabs 1) (Rabs a)); reflexivity. Qed.

(** The system of the loop, [a] being the conductance of the resistor: with
    or without the row swap the solution is the same. *)
Lemma gauss_loop (a V : R) :
  gaussianElimination [[a; 1]; [1; 0]] [0; V] = [V; - (a * V)].
Proof.
  unfold gaussianElimination, forwardElimination.
  cbn [List.length range seq Nat.sub fold_left].
  rewrite findPivot_loop.
  destruct (Rgt_dec (Rabs 1) (Rabs a)) as [Hgt|Hle].
  - lazyR. rewrite Q2R_zero. f_equal; [|f_equal]; field.
  - assert (Ha : a <> 0).
    { intros ->. apply Hle. rewrite Rabs_R0, Rabs_R1. lra. }
    lazyR. rewrite Q2R_zero. f_equal; [|f_equal]; field; auto.
Qed.

(** C3 where the stamp does not fall back on a default, over the real
    numbers.  For a source of V volts
    and a resistor of R ohms, both different from 0, wired in a loop with
    the resistor's first terminal on the source's positive terminal, the
    solve succeeds and returns for the resistor the current V/R and the
    voltage drop V. *)
Theorem solve_resistor_across_source (V R : R) :
  V <> 0 -> R <> 0 ->
  exists res,
    solve (sourceAcrossResistor V R) loopWires = Ok res
    /\ JsMap.get "R1" (componentCurrents res) = Some (V / R)
    /\ JsMap.get "R1" (componentVoltages res) = Some V.
Proof.
  intros HV HR. unfold solve. rewrite identifyNodes_loop.
  lazyS.
  rewrite !(truthy_nonzero V HV), !(truthy_nonzero R HR).
  rewrite !Q2R_zero, !Q2R_one, gauss_loop.
  cbn [vget nth].
  rewrite !(truthy_nonzero V HV), truthy_zero.
  eexists. split; [reflexivity|].
  split; f_equal; lra.
Qed.

End ResistorLoopFacts.

(* ================================================================== *)
(** * Facts about node identification                                  *)
(* ================================================================== *)

Section UnionFindFacts.
Import CircuitSolver.
Implicit Types (p : JsMap.t string) (i j r : string).


Lemma RootOf_root p i r : RootOf p i r -> JsMap.get r p = Some r.
Proof. induction 1; auto. Qed.

Lemma RootOf_det p i r r' : RootOf p i r -> RootOf p i r' -> r = r'.
Proof.
  intros H1. revert r'. induction H1 as [r Hr|i j r Hi Hne _ IH]; intros r' H2.
  - inversion H2 as [? Hr'|? j ? Hi' Hne' _]; subst; [reflexivity|].
    rewrite Hr in Hi'. injection Hi' as <-. contradiction.
  - inversion H2 as [? Hr'|? j' ? Hi' Hne' Hj']; subst.
    + rewrite Hi in Hr'. injection Hr' as <-. contradiction.
    + rewrite Hi in Hi'. injection Hi' as <-. auto.
Qed.

(** Path compression keeps every root. *)
Lemma RootOf_compress p i r x rx :
  RootOf p i r -> RootOf p x rx -> RootOf (JsMap.set i r p) x rx.
Proof.
  intros Hi Hx. induction Hx as [x Hx|x j rx Hxj Hne Hj IH].
  - apply RootOf_self. rewrite JsMap_get_set.
    destruct (String.eqb i x) eqn:E; [|exact Hx].
    apply String.eqb_eq in E. subst x.
    f_equal. apply (RootOf_det p i); [exact Hi|now apply RootOf_self].
  - destruct (String.eqb i x) eqn:E.
    + apply String.eqb_eq in E. subst x.
      assert (rx = r) as ->.
      { apply (RootOf_det p i); [eapply RootOf_step; eauto|exact Hi]. }
      assert (Hri : r <> i).
      { intros ->. pose proof (RootOf_root _ _ _ Hi) as Hs.
        rewrite Hxj in Hs. injection Hs as <-. contradiction. }
      eapply RootOf_step; [apply JsMap_get_set_same|exact Hri|].
      apply RootOf_self. rewrite JsMap_get_set_other by auto.
      apply (RootOf_root _ _ _ Hi).
    + apply String.eqb_neq in E.
      eapply RootOf_step; [|exact Hne|exact IH].
      now rewrite JsMap_get_set_other.
Qed.


Lemma Forest_weaken h m m' p : m <= m' -> Forest h m p -> Forest h m' p.
Proof.
  intros Hle [Hs Hb]. split; [exact Hs|]. intros k. specialize (Hb k). lia.
Qed.

(** [find] returns the root within the fuel, and its path compression
    keeps the forest, the keys and every root. *)
Lemma find_ok h m : forall fuel p i,
  Forest h m p -> JsMap.get i p <> None -> m < fuel + h i ->
  exists r p',
    find fuel p i = Ok (r, p')
    /\ Forest h m p'
    /\ JsMap.get r p' = Some r
    /\ h i <= h r
    /\ (forall k, JsMap.get k p' <> None <-> JsMap.get k p <> None)
    /\ JsMap.keys p' = JsMap.keys p
    /\ RootOf p i r
    /\ (forall x rx, RootOf p x rx -> RootOf p' x rx).
Proof.
  induction fuel as [|fuel IH]; intros p i Hinv Hi Hfuel.
  - destruct Hinv as [_ Hb]. specialize (Hb i). lia.
  - cbn [find]. destruct (JsMap.get i p) as [q|] eqn:Eq; [|congruence].
    destruct (String.eqb q i) eqn:E.
    + apply String.eqb_eq in E. subst q. exists i, p.
      split; [reflexivity|]. split; [exact Hinv|]. split; [exact Eq|].
      split; [lia|]. split; [tauto|]. split; [reflexivity|].
      split; [now apply RootOf_self|auto].
    + apply String.eqb_neq in E. pose proof Hinv as [Hs Hb].
      destruct (Hs i q Eq) as [Hq Hlt]. specialize (Hlt E).
      destruct (IH p q Hinv Hq ltac:(lia))
        as (r & p1 & Hf & Hinv1 & Hr & Hh & Hdom & Hkeys & Hroot & Hpres).
      rewrite Hf. cbn [bind]. exists r, (JsMap.set i r p1).
      assert (Hi1 : JsMap.get i p1 <> None) by (apply Hdom; congruence).
      assert (Hroot_i : RootOf p i r) by (eapply RootOf_step; eauto).
      assert (Hkeep : forall k, JsMap.get k p1 <> None ->
                                JsMap.get k (JsMap.set i r p1) <> None).
      { intros k Hk. rewrite JsMap_get_set. destruct (String.eqb i k); congruence. }
      split; [reflexivity|]. split; [|split; [|split; [|split; [|split; [|split]]]]].
      * destruct Hinv1 as [Hs1 Hb1]. split; [|exact Hb1].
        intros k v Hkv. rewrite JsMap_get_set in Hkv.
        destruct (String.eqb i k) eqn:Eik.
        -- apply String.eqb_eq in Eik. subst k. injection Hkv as <-.
           split; [apply Hkeep; congruence|]. intros _. lia.
        -- destruct (Hs1 k v Hkv) as [Hv Hhv]. split; [now apply Hkeep|exact Hhv].
      * rewrite JsMap_get_set. destruct (String.eqb i r); [reflexivity|exact Hr].
      * lia.
      * intros k. rewrite <- Hdom. rewrite JsMap_get_set.
        destruct (String.eqb i k) eqn:Eik; [|tauto].
        apply String.eqb_eq in Eik. subst k. split; congruence.
      * rewrite JsMap_keys_set_present by exact Hi1. exact Hkeys.
      * exact Hroot_i.
      * intros x rx Hx. apply RootOf_compress; auto.
Qed.

(** [union] keeps the forest; the height bound grows by at most one. *)
Lemma union_ok h m fuel p i j :
  Forest h m p -> JsMap.get i p <> None -> JsMap.get j p <> None -> m < fuel ->
  exists p' h',
    union fuel p i j = Ok p'
    /\ Forest h' (S m) p'
    /\ (forall k, JsMap.get k p' <> None <-> JsMap.get k p <> None)
    /\ JsMap.keys p' = JsMap.keys p.
Proof.
  intros Hinv Hi Hj Hfuel. unfold union.
  destruct (find_ok h m fuel p i Hinv Hi ltac:(lia))
    as (rI & p1 & Hf1 & Hinv1 & HrI & _ & Hdom1 & Hkeys1 & _ & _).
  rewrite Hf1. cbn [bind].
  destruct (find_ok h m fuel p1 j Hinv1 ltac:(apply Hdom1; exact Hj) ltac:(lia))
    as (rJ & p2 & Hf2 & Hinv2 & HrJ & _ & Hdom2 & Hkeys2 & _ & Hpres2).
  rewrite Hf2. cbn [bind].
  assert (HrI2 : JsMap.get rI p2 = Some rI).
  { apply (RootOf_root p2 rI). apply Hpres2. now apply RootOf_self. }
  destruct (String.eqb rI rJ) eqn:E.
  - exists p2, h. split; [reflexivity|]. split; [eapply Forest_weaken; [|exact Hinv2]; lia|].
    split; [intros k; rewrite Hdom2; apply Hdom1|congruence].
  - apply String.eqb_neq in E.
    exists (JsMap.set rI rJ p2),
           (fun k => if String.eqb k rJ then Nat.max (h rJ) (S (h rI)) else h k).
    destruct Hinv2 as [Hs2 Hb2].
    assert (Hkeep : forall k, JsMap.get k p2 <> None ->
                              JsMap.get k (JsMap.set rI rJ p2) <> None).
    { intros k Hk. rewrite JsMap_get_set. destruct (String.eqb rI k); congruence. }
    split; [reflexivity|]. split; [split|split].
    + intros k v Hkv. rewrite JsMap_get_set in Hkv.
      destruct (String.eqb rI k) eqn:Eik.
      * apply String.eqb_eq in Eik. subst k. injection Hkv as <-.
        split; [apply Hkeep; congruence|]. intros _.
        rewrite String.eqb_refl.
        destruct (String.eqb rI rJ) eqn:E'; [apply String.eqb_eq in E'; contradiction|]. lia.
      * apply String.eqb_neq in Eik.
        destruct (Hs2 k v Hkv) as [Hv Hhv]. split; [now apply Hkeep|].
        intros Hvk. specialize (Hhv Hvk).
        destruct (String.eqb k rJ) eqn:EkJ.
        -- apply String.eqb_eq in EkJ. subst k. rewrite HrJ in Hkv.
           injection Hkv as <-. contradiction.
        -- destruct (String.eqb v rJ) eqn:EvJ; [|lia].
           apply String.eqb_eq in EvJ. subst v. lia.
    + intros k. pose proof (Hb2 rI). pose proof (Hb2 rJ). pose proof (Hb2 k).
      destruct (String.eqb k rJ); lia.
    + intros k. rewrite <- Hdom1, <- Hdom2. rewrite JsMap_get_set.
      destruct (String.eqb rI k) eqn:Eik; [|tauto].
      apply String.eqb_eq in Eik. subst k. split; congruence.
    + rewrite JsMap_keys_set_present by congruence. congruence.
Qed.

End UnionFindFacts.

Section IdentifyFacts.
Context {num : Type}.
Import CircuitSolver BaseComponent.
Implicit Types (p : JsMap.t string).

(** Every entry of the initial [parent] map is a self link, and every
    terminal of every component is a key. *)
Lemma initParent_spec (components : list (Component.t num)) :
  (forall k v, JsMap.get k (initParent components) = Some v -> v = k)
  /\ (forall c t, In c components -> In t (terminals c) ->
        JsMap.get (Terminal.id t) (initParent components) <> None).
Proof.
  unfold initParent.
  set (inner := fun parent (t : Terminal.t num) =>
                  JsMap.set (Terminal.id t) (Terminal.id t) parent).
  assert (Hin : forall ts p,
            (forall k v, JsMap.get k p = Some v -> v = k) ->
            (forall k v, JsMap.get k (fold_left inner ts p) = Some v -> v = k)
            /\ (forall k, JsMap.get k p <> None -> JsMap.get k (fold_left inner ts p) <> None)
            /\ (forall t, In t ts -> JsMap.get (Terminal.id t) (fold_left inner ts p) <> None)).
  { induction ts as [|t ts IH]; intros p Hp; cbn.
    - repeat split; auto; intros t [].
    - assert (Hp' : forall k v, JsMap.get k (inner p t) = Some v -> v = k).
      { intros k v. unfold inner. rewrite JsMap_get_set.
        destruct (String.eqb (Terminal.id t) k) eqn:E; [|apply Hp].
        apply String.eqb_eq in E. congruence. }
      destruct (IH (inner p t) Hp') as (H1 & H2 & H3).
      split; [exact H1|]. split.
      + intros k Hk. apply H2. unfold inner. rewrite JsMap_get_set.
        destruct (String.eqb (Terminal.id t) k); congruence.
      + intros t' [<-|Ht']; [|now apply H3].
        apply H2. unfold inner. rewrite JsMap_get_set_same. congruence. }
  assert (Hout : forall (cs : list (Component.t num)) p,
            (forall k v, JsMap.get k p = Some v -> v = k) ->
            let p' := fold_left (fun parent c => fold_left inner (terminals c) parent) cs p in
            (forall k v, JsMap.get k p' = Some v -> v = k)
            /\ (forall k, JsMap.get k p <> None -> JsMap.get k p' <> None)
            /\ (forall c t, In c cs -> In t (terminals c) ->
                  JsMap.get (Terminal.id t) p' <> None)).
  { induction cs as [|c cs IH]; intros p Hp; cbn.
    - repeat split; auto; intros c t [].
    - destruct (Hin (terminals c) p Hp) as (H1 & H2 & H3).
      destruct (IH _ H1) as (G1 & G2 & G3). cbv zeta in G1, G2, G3.
      split; [exact G1|]. split; [intros k Hk; apply G2, H2, Hk|].
      intros c' t [<-|Hc'] Ht; [apply G2, H3, Ht|eapply G3; eauto]. }
  destruct (Hout components JsMap.empty) as (H1 & _ & H3).
  { intros k v Hk. discriminate Hk. }
  split; [exact H1|exact H3].
Qed.

Lemma unionWires_ok fuel : forall (wires : list (Wire.t num)) p h m,
  Forest h m p -> m + List.length wires < fuel ->
  exists p' h' m',
    unionWires fuel wires p = Ok p'
    /\ Forest h' m' p' /\ m' < fuel
    /\ (forall k, JsMap.get k p' <> None <-> JsMap.get k p <> None)
    /\ JsMap.keys p' = JsMap.keys p.
Proof.
  unfold unionWires.
  induction wires as [|w wires IH]; intros p h m Hinv Hfuel; cbn in *.
  - exists p, h, m. split; [reflexivity|]. split; [exact Hinv|]. split; [lia|].
    split; [tauto|reflexivity].
  - destruct (JsMap.has (Wire.fromTerminal w) p && JsMap.has (Wire.toTerminal w) p) eqn:E.
    + apply andb_true_iff in E. destruct E as [E1 E2].
      apply JsMap_has_true in E1. apply JsMap_has_true in E2.
      destruct (union_ok h m fuel p _ _ Hinv E1 E2 ltac:(lia))
        as (p1 & h1 & Hu & Hinv1 & Hdom1 & Hkeys1).
      rewrite Hu. cbn [bind].
      destruct (IH p1 h1 (S m) Hinv1 ltac:(lia))
        as (p' & h' & m' & Hf & Hinv' & Hm' & Hdom' & Hkeys').
      exists p', h', m'. rewrite Hf.
      split; [reflexivity|]. split; [exact Hinv'|]. split; [exact Hm'|].
      split; [intros k; rewrite Hdom'; apply Hdom1|congruence].
    + cbn [bind].
      destruct (IH p h m Hinv ltac:(lia))
        as (p' & h' & m' & Hf & Hinv' & Hm' & Hdom' & Hkeys').
      exists p', h', m'. rewrite Hf. split; [reflexivity|]. split; [exact Hinv'|].
      split; [exact Hm'|]. split; [exact Hdom'|exact Hkeys'].
Qed.


Lemma addTerminal_ok h m fuel p0 s t :
  m < fuel -> NodesInv h m p0 s -> JsMap.get t p0 <> None ->
  exists s',
    addTerminal fuel s t = Ok s'
    /\ NodesInv h m p0 s'
    /\ JsMap.get t (snd s') <> None
    /\ (forall t', JsMap.get t' (snd s) <> None -> JsMap.get t' (snd s') <> None).
Proof.
  intros Hfuel Hinv Ht. destruct s as [[parent nodes] t2n].
  destruct Hinv as (Hf & Hdom & Ht2n & Hnd).
  unfold addTerminal.
  destruct (find_ok h m fuel parent t Hf ltac:(apply Hdom; exact Ht) ltac:(lia))
    as (r & p1 & Hfind & Hf1 & Hr & _ & Hdom1 & _ & Hroot & Hpres).
  rewrite Hfind. cbn [bind].
  set (nodes1 := if JsMap.has r nodes then nodes else JsMap.set r [] nodes).
  set (members := match JsMap.get r nodes1 with Some l => l | None => [] end).
  eexists. split; [reflexivity|]. cbn [snd].
  assert (Hkeep : forall k, JsMap.get k nodes <> None ->
                    JsMap.get k (JsMap.set r (members ++ [t]) nodes1) <> None).
  { intros k Hk. rewrite JsMap_get_set. destruct (String.eqb r k); [congruence|].
    subst nodes1. destruct (JsMap.has r nodes); [exact Hk|].
    rewrite JsMap_get_set. destruct (String.eqb r k); congruence. }
  split; [|split].
  - split; [exact Hf1|]. split; [intros k; rewrite Hdom1; apply Hdom|]. split.
    + intros t' r' Hg. rewrite JsMap_get_set in Hg.
      destruct (String.eqb t t') eqn:E.
      * apply String.eqb_eq in E. subst t'. injection Hg as <-.
        split; [apply Hpres, Hroot|]. rewrite JsMap_get_set_same. congruence.
      * destruct (Ht2n t' r' Hg) as [H1 H2]. split; [apply Hpres, H1|apply Hkeep, H2].
    + apply JsMap_keys_set_NoDup. subst nodes1.
      destruct (JsMap.has r nodes); [exact Hnd|now apply JsMap_keys_set_NoDup].
  - rewrite JsMap_get_set_same. congruence.
  - intros t' Hg. rewrite JsMap_get_set. destruct (String.eqb t t'); congruence.
Qed.

Lemma addTerminal_fold h m fuel p0 : forall l s,
  m < fuel -> NodesInv h m p0 s -> (forall t, In t l -> JsMap.get t p0 <> None) ->
  exists s',
    forEachM (addTerminal fuel) l s = Ok s'
    /\ NodesInv h m p0 s'
    /\ (forall t, In t l -> JsMap.get t (snd s') <> None).
Proof.
  assert (G : forall l s,
    m < fuel -> NodesInv h m p0 s -> (forall t, In t l -> JsMap.get t p0 <> None) ->
    exists s',
      forEachM (addTerminal fuel) l s = Ok s'
      /\ NodesInv h m p0 s'
      /\ (forall t, In t l -> JsMap.get t (snd s') <> None)
      /\ (forall t, JsMap.get t (snd s) <> None -> JsMap.get t (snd s') <> None)).
  { induction l as [|t l IH]; intros s Hfuel Hinv Hl; cbn.
    - exists s. repeat split; auto; intros t [].
    - destruct (addTerminal_ok h m fuel p0 s t Hfuel Hinv ltac:(apply Hl; now left))
        as (s1 & Ha & Hinv1 & Ht1 & Hmono1).
      rewrite Ha. cbn [bind].
      destruct (IH s1 Hfuel Hinv1 ltac:(intros; apply Hl; now right))
        as (s' & Hf & Hinv' & Hall & Hmono).
      exists s'. split; [exact Hf|]. split; [exact Hinv'|]. split.
      + intros t' [<-|Ht']; [apply Hmono, Ht1|apply Hall, Ht'].
      + intros t' Hg. apply Hmono, Hmono1, Hg. }
  intros l s Hfuel Hinv Hl. destruct (G l s Hfuel Hinv Hl) as (s' & H1 & H2 & H3 & _).
  exists s'. auto.
Qed.

End IdentifyFacts.

Section GroundFacts.
Context {num : Type}.
Import CircuitSolver BaseComponent.


Lemma sourceNode_terminalToNode (components : list (Component.t num)) (st st' : Nodes) :
  terminalToNode st = terminalToNode st' ->
  sourceNode components st = sourceNode components st'.
Proof. unfold sourceNode. now intros ->. Qed.

Lemma markGround_groundChoice (groundNodeId : option string) (nodeIds : list string) :
  markGround groundNodeId nodeIds
  = match groundChoice groundNodeId nodeIds with
    | Some g => JsMap.set g (-1)%Z JsMap.empty
    | None => JsMap.empty
    end.
Proof.
  unfold markGround, groundChoice.
  destruct groundNodeId as [g|]; [destruct (nonEmpty g)|]; destruct nodeIds; reflexivity.
Qed.

(** The index loop: the ground keeps -1 and the other nodes are numbered
    from [idx] on, in the order of the list. *)
Lemma assignIndex_fold (g : string) : forall (l : list string) (ni : JsMap.t Z) (idx : Z),
  NoDup l ->
  JsMap.get g ni = Some (-1)%Z ->
  (forall id, In id l -> id <> g -> JsMap.get id ni = None) ->
  let ni' := fst (fold_left assignIndex l (ni, idx)) in
  JsMap.get g ni' = Some (-1)%Z
  /\ (forall k id,
        nth_error (filter (fun id => negb (String.eqb id g)) l) k = Some id ->
        JsMap.get id ni' = Some (idx + Z.of_nat k)%Z)
  /\ (forall id, ~ In id l -> JsMap.get id ni' = JsMap.get id ni).
Proof.
  induction l as [|a l IH]; intros ni idx Hnd Hg Hfresh; cbn [fold_left filter].
  - cbn. repeat split; auto. intros [|k] id Hk; discriminate Hk.
  - inversion Hnd as [|? ? Ha Hnd']; subst.
    destruct (String.eqb a g) eqn:E.
    + apply String.eqb_eq in E. subst a.
      cbn [assignIndex]. rewrite Hg. cbn [negb].
      destruct (IH ni idx Hnd' Hg ltac:(intros; apply Hfresh; [now right|assumption]))
        as (H1 & H2 & H3).
      split; [exact H1|]. split; [exact H2|].
      intros id Hid. apply H3. intros Hin. apply Hid. now right.
    + apply String.eqb_neq in E.
      cbn [assignIndex]. rewrite (Hfresh a ltac:(now left) E). cbn [negb].
      destruct (IH (JsMap.set a idx ni) (idx + 1)%Z Hnd') as (H1 & H2 & H3).
      * rewrite JsMap_get_set_other by exact E. exact Hg.
      * intros id Hid Hne. rewrite JsMap_get_set_other.
        -- apply Hfresh; [now right|exact Hne].
        -- intros ->. contradiction.
      * split; [exact H1|]. split.
        -- intros [|k] id Hk; cbn in Hk.
           ++ injection Hk as <-. rewrite (H3 a Ha), JsMap_get_set_same.
              f_equal. lia.
           ++ rewrite (H2 k id Hk). f_equal. lia.
        -- intros id Hid. rewrite H3 by (intros Hin; apply Hid; now right).
           apply JsMap_get_set_other. intros ->. apply Hid. now left.
Qed.

Lemma assignIndices_spec (g : string) (nodeIds : list string) :
  NoDup nodeIds ->
  let nodeIndex := assignIndices nodeIds (JsMap.set g (-1)%Z JsMap.empty) in
  JsMap.get g nodeIndex = Some (-1)%Z
  /\ (forall k id,
        nth_error (filter (fun id => negb (String.eqb id g)) nodeIds) k = Some id ->
        JsMap.get id nodeIndex = Some (Z.of_nat k)).
Proof.
  intros Hnd. unfold assignIndices.
  destruct (assignIndex_fold g nodeIds (JsMap.set g (-1)%Z JsMap.empty) 0%Z Hnd)
    as (H1 & H2 & _).
  - apply JsMap_get_set_same.
  - intros id _ Hne. rewrite JsMap_get_set_other by auto. reflexivity.
  - split; [exact H1|]. intros k id Hk. rewrite (H2 k id Hk). reflexivity.
Qed.

(** [identifyNodes] never fails: the union-find terminates within its bound
    and is only asked about terminals of the components.  The node ids are
    distinct, every terminal is mapped to a node id, and the index map is
    the numbering that starts from the marked ground. *)
Lemma identifyNodes_run (components : list (Component.t num)) (wires : list (Wire.t num)) :
  exists nds t2n,
    identifyNodes components wires
    = Ok (mk_Nodes nds t2n
            (assignIndices (JsMap.keys nds)
               (markGround (sourceNode components (mk_Nodes nds t2n []))
                  (JsMap.keys nds))))
    /\ NoDup (JsMap.keys nds)
    /\ (forall t r, JsMap.get t t2n = Some r -> In r (JsMap.keys nds)).
Proof.
  unfold identifyNodes.
  set (fuel := S (List.length wires)).
  destruct (initParent_spec components) as [Hself Hterm].
  assert (Hinit : Forest (fun _ => 0) 0 (initParent components)).
  { split; [|auto]. intros k v Hkv. rewrite (Hself k v Hkv) in *.
    split; [congruence|intros Hne; contradiction]. }
  destruct (unionWires_ok fuel wires _ _ 0 Hinit ltac:(subst fuel; lia))
    as (p1 & h & m & Hu & Hf1 & Hm & Hdom1 & Hkeys1).
  rewrite Hu. cbn [bind].
  destruct (addTerminal_fold h m fuel p1 (JsMap.keys p1) (p1, JsMap.empty, JsMap.empty) Hm)
    as ([[pf nds] t2n] & Hfold & Hinv & Hall).
  { split; [exact Hf1|]. split; [tauto|]. split; [|constructor].
    intros t r Hg. discriminate Hg. }
  { intros t Ht. now apply JsMap_get_In_keys. }
  rewrite Hfold. cbn [bind]. cbn [snd] in Hall.
  destruct Hinv as (Hff & Hdomf & Ht2n & Hnd).
  (* the ground of the source *)
  assert (Hgnd : groundOfSource fuel pf components
                 = Ok (sourceNode components (mk_Nodes nds t2n []))).
  { unfold groundOfSource, sourceNode. cbn [terminalToNode].
    destruct (firstVoltageSource components) as [vs|] eqn:Evs; [|reflexivity].
    destruct (nth_error (terminals vs) 1) as [neg|] eqn:Eneg; [|reflexivity].
    assert (Hkey : JsMap.get (Terminal.id neg) p1 <> None).
    { apply Hdom1. apply (Hterm vs neg).
      - unfold firstVoltageSource in Evs. apply find_some in Evs. tauto.
      - eapply nth_error_In; eauto. }
    destruct (find_ok h m fuel pf (Terminal.id neg) Hff ltac:(apply Hdomf; exact Hkey)
                ltac:(lia))
      as (r & p' & Hfind & _ & _ & _ & _ & _ & Hroot & _).
    rewrite Hfind. cbn [bind].
    assert (Hin : JsMap.get (Terminal.id neg) t2n <> None).
    { apply Hall. apply JsMap_get_In_keys. exact Hkey. }
    destruct (JsMap.get (Terminal.id neg) t2n) as [r0|] eqn:Er0; [|congruence].
    destruct (Ht2n _ _ Er0) as [Hroot0 _].
    now rewrite (RootOf_det _ _ _ _ Hroot Hroot0). }
  rewrite Hgnd. cbn [bind].
  exists nds, t2n. split; [reflexivity|]. split; [exact Hnd|].
  intros t r Hg. destruct (Ht2n _ _ Hg) as [_ Hn]. now apply JsMap_get_In_keys.
Qed.

(** C2, as the code has it.  [identifyNodes] always returns.  The ground is
    the node that holds the second terminal of the first component of type
    [VOLTAGE_SOURCE] (a battery or a ground reference does not select the
    ground), and else the first node discovered; the ground gets the index
    -1 and the other nodes get 0, 1, 2, ... in discovery order. *)
Theorem identifyNodes_ground_selection
    (components : list (Component.t num)) (wires : list (Wire.t num)) :
  exists st,
    identifyNodes components wires = Ok st
    /\ match chosenGround components st with
       | Some g =>
           In g (JsMap.keys (nodes st))
           /\ JsMap.get g (nodeIndex st) = Some (-1)%Z
           /\ (forall k id,
                 nth_error
                   (filter (fun id => negb (String.eqb id g)) (JsMap.keys (nodes st))) k
                 = Some id ->
                 JsMap.get id (nodeIndex st) = Some (Z.of_nat k))
       | None => JsMap.keys (nodes st) = [] /\ nodeIndex st = []
       end.
Proof.
  destruct (identifyNodes_run components wires) as (nds & t2n & Hrun & Hnd & Ht2n).
  rewrite Hrun. eexists. split; [reflexivity|].
  unfold chosenGround. cbn [nodes nodeIndex].
  rewrite (sourceNode_terminalToNode components _ (mk_Nodes nds t2n [])) by reflexivity.
  rewrite markGround_groundChoice.
  set (src := sourceNode components (mk_Nodes nds t2n [])).
  assert (Hsrc : forall g, src = Some g -> In g (JsMap.keys nds)).
  { intros g Hg. subst src. unfold sourceNode in Hg. cbn [terminalToNode] in Hg.
    destruct (firstVoltageSource components) as [vs|]; [|discriminate].
    destruct (nth_error (terminals vs) 1); [|discriminate].
    exact (Ht2n _ _ Hg). }
  destruct (groundChoice src (JsMap.keys nds)) as [g|] eqn:Eg.
  - assert (Hin : In g (JsMap.keys nds)).
    { unfold groundChoice in Eg. destruct src as [g0|].
      - destruct (nonEmpty g0).
        + injection Eg as <-. now apply Hsrc.
        + destruct (JsMap.keys nds); [discriminate|]. injection Eg as <-. now left.
      - destruct (JsMap.keys nds); [discriminate|]. injection Eg as <-. now left. }
    split; [exact Hin|]. apply assignIndices_spec. exact Hnd.
  - assert (Hnil : JsMap.keys nds = []).
    { unfold groundChoice in Eg. destruct src as [g0|]; [destruct (nonEmpty g0)|];
        try discriminate; destruct (JsMap.keys nds); [reflexivity|discriminate| |];
        try reflexivity; discriminate. }
    split; [exact Hnil|]. rewrite Hnil. reflexivity.
Qed.

End GroundFacts.

(* ================================================================== *)
(** * Facts about the solve as a whole                                 *)
(* ================================================================== *)

Section SolveFacts.
Context {num : Type} `{JsNumber num}.
Import CircuitSolver BaseComponent.

Lemma forEachM_Ok {A S : Type} (f : S -> A -> result S) (l : list A) :
  (forall a, In a l -> forall s, exists s', f s a = Ok s') ->
  forall s, exists s', forEachM f l s = Ok s'.
Proof.
  induction l as [|a l IH]; intros Hf s; cbn.
  - eauto.
  - destruct (Hf a (or_introl eq_refl) s) as [s1 E1]. rewrite E1. cbn.
    apply IH. intros b Hb. apply Hf. now right.
Qed.

Lemma forEachM_Ok_inv {A S : Type} (f : S -> A -> result S) (l : list A) :
  forall s s', forEachM f l s = Ok s' ->
  forall a, In a l -> exists s1 s2, f s1 a = Ok s2.
Proof.
  induction l as [|a l IH]; intros s s' E b Hb; [destruct Hb|].
  cbn in E. destruct (f s a) as [s1|e] eqn:E1; [|discriminate E].
  destruct Hb as [<-|Hb]; [eauto|]. cbn in E. eapply IH; eauto.
Qed.

Lemma terminalId_Ok (comp : Component.t num) (k : nat) :
  k < List.length (terminals comp) ->
  exists n, terminalId comp k = Ok n.
Proof.
  intros Hk. unfold terminalId.
  destruct (nth_error (terminals comp) k) as [t|] eqn:E; [eauto|].
  apply nth_error_None in E. lia.
Qed.

Lemma terminalId_Ok_inv (comp : Component.t num) (k : nat) (n : string) :
  terminalId comp k = Ok n -> k < List.length (terminals comp).
Proof.
  unfold terminalId. intros E.
  destruct (nth_error (terminals comp) k) as [t|] eqn:Et; [|discriminate].
  apply nth_error_Some. congruence.
Qed.

(** The matrix phase and the read-out phase fail only on a missing
    terminal. *)
Lemma solveMNA_Ok (st : Nodes) (components : list (Component.t num))
    (wires : list (Wire.t num)) :
  (forall c, In c components -> 2 <= List.length (terminals c)) ->
  exists res, solveMNA st components wires = Ok res.
Proof.
  intros Hts. unfold solveMNA.
  match goal with
  | |- context [forEachM (stampComponent st) components ?G0] =>
      destruct (forEachM_Ok (stampComponent st) components) with (s := G0) as [G E]
  end.
  { intros c Hc G. unfold stampComponent.
    destruct (resistanceOf c); [|eauto].
    destruct (terminalId_Ok c 0) as [n1 ->]; [specialize (Hts c Hc); lia|].
    destruct (terminalId_Ok c 1) as [n2 ->]; [specialize (Hts c Hc); lia|].
    cbn. eauto. }
  rewrite E. cbn [bind].
  match goal with
  | |- context [forEachM ?f ?l ?s0] =>
      destruct (forEachM_Ok f l) with (s := s0) as [[[G' I'] k] E']
  end.
  { intros c Hc [[G1 I1] k]. apply filter_In in Hc. destruct Hc as [Hc _].
    unfold stampVoltageSource.
    destruct (terminalId_Ok c 0) as [n1 ->]; [specialize (Hts c Hc); lia|].
    destruct (terminalId_Ok c 1) as [n2 ->]; [specialize (Hts c Hc); lia|].
    cbn. eauto. }
  rewrite E'. cbn [bind].
  match goal with
  | |- context [forEachM ?f components ?s0] =>
      destruct (forEachM_Ok f components) with (s := s0) as [[cc cv] E'']
  end.
  { intros c Hc [cc cv]. unfold extractComponent.
    destruct (terminalId_Ok c 0) as [n1 ->]; [specialize (Hts c Hc); lia|].
    destruct (terminalId_Ok c 1) as [n2 ->]; [specialize (Hts c Hc); lia|].
    cbn [bind].
    destruct (resistanceOf c); [eauto|].
    destruct (isVoltageSource c); [|eauto].
    destruct (findIndex _ _); eauto. }
  rewrite E''. cbn [bind].
  destruct (fold_left _ wires _). eauto.
Qed.

Lemma solveMNA_Ok_inv (st : Nodes) (components : list (Component.t num))
    (wires : list (Wire.t num)) (res : SimulationResult num) :
  solveMNA st components wires = Ok res ->
  forall c, In c components -> 2 <= List.length (terminals c).
Proof.
  unfold solveMNA. intros E c Hc.
  destruct (forEachM (stampComponent st) components _) as [G|]; [|discriminate E].
  cbn [bind] in E.
  destruct (forEachM (stampVoltageSource st _) _ _) as [[[G' I'] k]|]; [|discriminate E].
  cbn [bind] in E.
  destruct (forEachM (extractComponent st _ _ _ _) components _) as [[cc cv]|] eqn:Ex;
    [|discriminate E].
  destruct (forEachM_Ok_inv _ _ _ _ Ex c Hc) as ([cc1 cv1] & s2 & Ec).
  unfold extractComponent in Ec.
  destruct (terminalId c 0) as [n1|] eqn:E0; [|discriminate Ec]. cbn [bind] in Ec.
  destruct (terminalId c 1) as [n2|] eqn:E1; [|discriminate Ec].
  apply terminalId_Ok_inv in E1. lia.
Qed.

(** [solve] returns a result exactly for the circuits in which every
    component has the two terminals that the solver reads: the only failure
    of a solve is the [TypeError] of a missing terminal. *)
Lemma solve_Ok_iff (components : list (Component.t num)) (wires : list (Wire.t num)) :
  (exists res, solve components wires = Ok res)
  <-> (forall c, In c components -> 2 <= List.length (terminals c)).
Proof.
  unfold solve.
  destruct (identifyNodes_run components wires) as (nds & t2n & -> & _). cbn [bind].
  split.
  - intros [res E]. eapply solveMNA_Ok_inv; eauto.
  - apply solveMNA_Ok.
Qed.

(** C1, as the code has it.  The linear solver has no pivot test and no
    failure path: for every system it runs the elimination and the back
    substitution to the end and returns a vector with one entry per row,
    whether the matrix is singular or not.  The solve as a whole returns a
    result for every circuit whose components have their two terminals;
    no system makes it fail. *)
Theorem gaussianElimination_always_returns :
  (forall (A : Matrix) (b : Vector),
      List.length (gaussianElimination A b) = List.length A)
  /\ (forall (components : list (Component.t num)) (wires : list (Wire.t num)),
        (exists res, solve components wires = Ok res)
        <-> (forall c, In c components -> 2 <= List.length (terminals c))).
Proof.
  split.
  - intros A b. unfold gaussianElimination.
    destruct (forwardElimination (List.length A) A b) as [A' b'].
    apply backSubstitution_length.
  - apply solve_Ok_iff.
Qed.

End SolveFacts.

(* ================================================================== *)
(** * More facts about node identification                             *)
(* ================================================================== *)

Section NodeJoinFacts.
Import CircuitSolver.
Implicit Types (p : JsMap.t string) (i j r : string).

(** Two terminals are in the same set of the union-find. *)
Definition SameRoot p (a b : string) : Prop :=
  exists r, RootOf p a r /\ RootOf p b r.

(** What a call of [find] that returns has done. *)
Lemma find_sound : forall fuel p i r p',
  find fuel p i = Ok (r, p') ->
  RootOf p i r
  /\ (forall x rx, RootOf p x rx -> RootOf p' x rx)
  /\ (forall k, JsMap.get k p' <> None <-> JsMap.get k p <> None).
Proof.
  induction fuel as [|fuel IH]; intros p i r p' Hf; [discriminate Hf|].
  cbn [find] in Hf. destruct (JsMap.get i p) as [q|] eqn:Eq; [|discriminate Hf].
  destruct (String.eqb q i) eqn:E.
  - apply String.eqb_eq in E. subst q. injection Hf as <- <-.
    split; [now apply RootOf_self|]. split; [auto|tauto].
  - apply String.eqb_neq in E.
    destruct (find fuel p q) as [[root p1]|e] eqn:Ef; [|discriminate Hf].
    cbn [bind] in Hf. injection Hf as <- <-.
    destruct (IH p q root p1 Ef) as (Hq & Hpres & Hdom).
    assert (Hi : RootOf p i root) by (eapply RootOf_step; eauto).
    split; [exact Hi|]. split.
    + intros x rx Hx. apply RootOf_compress; auto.
    + intros k. rewrite <- Hdom. rewrite JsMap_get_set.
      destruct (String.eqb i k) eqn:Eik; [|tauto].
      apply String.eqb_eq in Eik. subst k.
      split; [intros _|congruence]. apply Hdom. congruence.
Qed.

(** Linking the root [rI] under the root [rJ] moves the set of [rI] to
    [rJ] and keeps every other root. *)
Lemma RootOf_link p rI rJ x rx :
  JsMap.get rI p = Some rI -> JsMap.get rJ p = Some rJ -> rI <> rJ ->
  RootOf p x rx ->
  RootOf (JsMap.set rI rJ p) x (if String.eqb rx rI then rJ else rx).
Proof.
  intros HI HJ Hne Hx.
  assert (HJ' : RootOf (JsMap.set rI rJ p) rJ rJ).
  { apply RootOf_self. rewrite JsMap_get_set_other by exact Hne. exact HJ. }
  induction Hx as [x Hx|x j rx Hxj Hjx Hj IH].
  - destruct (String.eqb x rI) eqn:E.
    + apply String.eqb_eq in E. subst x.
      eapply RootOf_step; [apply JsMap_get_set_same|congruence|exact HJ'].
    + apply String.eqb_neq in E. apply RootOf_self.
      rewrite JsMap_get_set_other by congruence. exact Hx.
  - eapply RootOf_step; [|exact Hjx|exact IH].
    rewrite JsMap_get_set_other; [exact Hxj|].
    intros ->. rewrite HI in Hxj. injection Hxj as <-. contradiction.
Qed.

(** What a call of [union] that returns has done: the two terminals share
    a root, and so do all the terminals that shared one before. *)
Lemma union_sound fuel p i j p' :
  union fuel p i j = Ok p' ->
  SameRoot p' i j
  /\ (forall a b, SameRoot p a b -> SameRoot p' a b)
  /\ (forall x rx, RootOf p x rx -> exists rx', RootOf p' x rx')
  /\ (forall k, JsMap.get k p' <> None <-> JsMap.get k p <> None).
Proof.
  unfold union. intros Hu.
  destruct (find fuel p i) as [[rI p1]|e] eqn:E1; [|discriminate Hu]. cbn [bind] in Hu.
  destruct (find fuel p1 j) as [[rJ p2]|e] eqn:E2; [|discriminate Hu]. cbn [bind] in Hu.
  injection Hu as <-.
  destruct (find_sound _ _ _ _ _ E1) as (Hi & Hpres1 & Hdom1).
  destruct (find_sound _ _ _ _ _ E2) as (Hj & Hpres2 & Hdom2).
  assert (Hi2 : RootOf p2 i rI) by auto.
  assert (Hj2 : RootOf p2 j rJ) by auto.
  destruct (String.eqb rI rJ) eqn:E.
  - apply String.eqb_eq in E. subst rJ.
    split; [exists rI; auto|]. split; [|split].
    + intros a b (r & Ha & Hb). exists r. auto.
    + intros x rx Hx. exists rx. auto.
    + intros k. rewrite Hdom2. apply Hdom1.
  - apply String.eqb_neq in E.
    pose proof (RootOf_root _ _ _ Hi2) as HI.
    pose proof (RootOf_root _ _ _ Hj2) as HJ.
    pose proof (fun x rx => RootOf_link p2 rI rJ x rx HI HJ E) as Hlink.
    split; [|split; [|split]].
    + exists rJ. split.
      * specialize (Hlink i rI Hi2). now rewrite String.eqb_refl in Hlink.
      * specialize (Hlink j rJ Hj2).
        destruct (String.eqb rJ rI) eqn:E'; [|exact Hlink].
        apply String.eqb_eq in E'. congruence.
    + intros a b (r & Ha & Hb). eexists. split; apply Hlink; eauto.
    + intros x rx Hx. eexists. apply Hlink. eauto.
    + intros k. rewrite <- Hdom1, <- Hdom2. rewrite JsMap_get_set.
      destruct (String.eqb rI k) eqn:Eik; [|tauto].
      apply String.eqb_eq in Eik. subst k. split; congruence.
Qed.

End NodeJoinFacts.

Section IdentifyJoinFacts.
Context {num : Type}.
Import CircuitSolver BaseComponent.
Implicit Types (p : JsMap.t string).

Lemma unionWires_sound fuel : forall (wires : list (Wire.t num)) p p',
  unionWires fuel wires p = Ok p' ->
  (forall a b, SameRoot p a b -> SameRoot p' a b)
  /\ (forall x rx, RootOf p x rx -> exists rx', RootOf p' x rx')
  /\ (forall w, In w wires ->
        JsMap.get (Wire.fromTerminal w) p <> None ->
        JsMap.get (Wire.toTerminal w) p <> None ->
        SameRoot p' (Wire.fromTerminal w) (Wire.toTerminal w))
  /\ (forall k, JsMap.get k p' <> None <-> JsMap.get k p <> None).
Proof.
  unfold unionWires.
  induction wires as [|w wires IH]; intros p p' Hu; cbn in Hu.
  - injection Hu as <-. split; [auto|]. split; [eauto|]. split; [intros w []|tauto].
  - destruct (JsMap.has (Wire.fromTerminal w) p && JsMap.has (Wire.toTerminal w) p) eqn:E.
    + destruct (union fuel p (Wire.fromTerminal w) (Wire.toTerminal w)) as [p1|e] eqn:Eu;
        [|discriminate Hu].
      cbn [bind] in Hu.
      destruct (union_sound _ _ _ _ _ Eu) as (Hw & Hsame1 & Hroot1 & Hdom1).
      destruct (IH p1 p' Hu) as (Hsame & Hroot & Hall & Hdom).
      split; [auto|]. split; [|split].
      * intros x rx Hx. destruct (Hroot1 x rx Hx) as [rx1 Hx1]. eauto.
      * intros w' [<-|Hin] Hf Ht; [auto|]. apply Hall; [exact Hin| |]; now apply Hdom1.
      * intros k. rewrite Hdom. apply Hdom1.
    + cbn [bind] in Hu. destruct (IH p p' Hu) as (Hsame & Hroot & Hall & Hdom).
      split; [exact Hsame|]. split; [exact Hroot|]. split; [|exact Hdom].
      intros w' [<-|Hin] Hf Ht; [|now apply Hall].
      apply JsMap_has_true in Hf. apply JsMap_has_true in Ht.
      rewrite Hf, Ht in E. discriminate E.
Qed.

(** The two maps that the loop over the terminals builds agree: a terminal
    is mapped to the root of its set, and it is listed among the members
    of exactly the node it is mapped to. *)
Definition NodesAgree (s : JsMap.t string * JsMap.t (list string) * JsMap.t string) : Prop :=
  let '(parent, nodes, terminalToNode) := s in
  (forall t r, JsMap.get t terminalToNode = Some r ->
     RootOf parent t r
     /\ exists members, JsMap.get r nodes = Some members /\ In t members)
  /\ (forall r members t, JsMap.get r nodes = Some members -> In t members ->
        JsMap.get t terminalToNode = Some r).

Lemma addTerminal_sound fuel s t s' :
  addTerminal fuel s t = Ok s' ->
  NodesAgree s ->
  NodesAgree s'
  /\ (forall x rx, RootOf (fst (fst s)) x rx -> RootOf (fst (fst s')) x rx)
  /\ JsMap.get t (snd s') <> None
  /\ (forall t', JsMap.get t' (snd s) <> None -> JsMap.get t' (snd s') <> None).
Proof.
  destruct s as [[parent nodes] t2n]. unfold addTerminal. intros Ha (J1 & J2).
  destruct (find fuel parent t) as [[root p1]|e] eqn:Ef; [|discriminate Ha].
  cbn [bind] in Ha.
  destruct (find_sound _ _ _ _ _ Ef) as (Ht & Hpres & _).
  set (nodes1 := if JsMap.has root nodes then nodes else JsMap.set root [] nodes) in Ha.
  set (members := match JsMap.get root nodes1 with Some l => l | None => [] end) in Ha.
  injection Ha as <-. cbn [fst snd].
  assert (Hmem : forall m, JsMap.get root nodes = Some m -> members = m).
  { intros m Hm. subst members nodes1. unfold JsMap.has. rewrite Hm. now rewrite Hm. }
  assert (Hnone : JsMap.get root nodes = None -> members = []).
  { intros Hm. subst members nodes1. unfold JsMap.has. rewrite Hm.
    now rewrite JsMap_get_set_same. }
  assert (Hother : forall r, root <> r ->
            JsMap.get r (JsMap.set root (members ++ [t]) nodes1) = JsMap.get r nodes).
  { intros r Hr. rewrite JsMap_get_set_other by exact Hr. subst nodes1.
    destruct (JsMap.has root nodes); [reflexivity|].
    now rewrite JsMap_get_set_other by exact Hr. }
  split; [split|split; [exact Hpres|split]].
  - intros t' r' Hg. rewrite JsMap_get_set in Hg.
    destruct (String.eqb t t') eqn:E.
    + apply String.eqb_eq in E. subst t'. injection Hg as <-.
      split; [auto|]. exists (members ++ [t]).
      split; [apply JsMap_get_set_same|]. apply in_or_app. right. now left.
    + destruct (J1 t' r' Hg) as (Hr' & m & Hm & Hin). split; [auto|].
      destruct (String.eqb root r') eqn:Er.
      * apply String.eqb_eq in Er. subst r'. exists (members ++ [t]).
        split; [apply JsMap_get_set_same|]. rewrite (Hmem m Hm).
        apply in_or_app. now left.
      * apply String.eqb_neq in Er. exists m. rewrite Hother by exact Er. auto.
  - intros r ms t' Hg Hin. rewrite JsMap_get_set.
    destruct (String.eqb root r) eqn:Er.
    + apply String.eqb_eq in Er. subst r. rewrite JsMap_get_set_same in Hg.
      injection Hg as <-. apply in_app_or in Hin. destruct Hin as [Hin|[<-|[]]].
      * destruct (JsMap.get root nodes) as [m|] eqn:Em.
        -- rewrite (Hmem m eq_refl) in Hin. rewrite (J2 root m t' Em Hin).
           destruct (String.eqb t t'); reflexivity.
        -- rewrite (Hnone eq_refl) in Hin. destruct Hin.
      * now rewrite String.eqb_refl.
    + apply String.eqb_neq in Er. rewrite Hother in Hg by exact Er.
      pose proof (J2 r ms t' Hg Hin) as Hg'.
      destruct (String.eqb t t') eqn:E; [|exact Hg'].
      apply String.eqb_eq in E. subst t'.
      destruct (J1 t r Hg') as (Hr & _).
      f_equal. apply (RootOf_det parent t); assumption.
  - rewrite JsMap_get_set_same. congruence.
  - intros t' Hg. rewrite JsMap_get_set. destruct (String.eqb t t'); congruence.
Qed.

Lemma addTerminal_fold_sound fuel : forall l s s',
  forEachM (addTerminal fuel) l s = Ok s' ->
  NodesAgree s ->
  NodesAgree s'
  /\ (forall x rx, RootOf (fst (fst s)) x rx -> RootOf (fst (fst s')) x rx)
  /\ (forall t, In t l -> JsMap.get t (snd s') <> None)
  /\ (forall t', JsMap.get t' (snd s) <> None -> JsMap.get t' (snd s') <> None).
Proof.
  induction l as [|t l IH]; intros s s' Hf HJ; cbn in Hf.
  - injection Hf as <-. split; [exact HJ|]. split; [auto|]. split; [intros t []|auto].
  - destruct (addTerminal fuel s t) as [s1|e] eqn:Ea; [|discriminate Hf].
    cbn [bind] in Hf.
    destruct (addTerminal_sound _ _ _ _ Ea HJ) as (HJ1 & Hpres1 & Ht1 & Hmono1).
    destruct (IH s1 s' Hf HJ1) as (HJ' & Hpres & Hall & Hmono).
    split; [exact HJ'|]. split; [auto|]. split; [|auto].
    intros t' [<-|Hin]; auto.
Qed.

(** The run of [identifyNodes], as far as the nodes are concerned: the
    [parent] map before and after the loop over the terminals. *)
Lemma identifyNodes_sound (components : list (Component.t num))
    (wires : list (Wire.t num)) (st : Nodes) :
  identifyNodes components wires = Ok st ->
  exists p1 pf,
    unionWires (S (List.length wires)) wires (initParent components) = Ok p1
    /\ NodesAgree (pf, nodes st, terminalToNode st)
    /\ (forall x rx, RootOf p1 x rx -> RootOf pf x rx)
    /\ (forall t, JsMap.get t p1 <> None -> JsMap.get t (terminalToNode st) <> None).
Proof.
  unfold identifyNodes. intros Hi.
  destruct (unionWires _ wires _) as [p1|e] eqn:Eu; [|discriminate Hi]. cbn [bind] in Hi.
  destruct (forEachM _ (JsMap.keys p1) _) as [[[pf nds] t2n]|e] eqn:Ef; [|discriminate Hi].
  cbn [bind] in Hi.
  destruct (groundOfSource _ pf components) as [g|e]; [|discriminate Hi].
  cbn [bind] in Hi. injection Hi as <-. cbn [nodes terminalToNode].
  destruct (addTerminal_fold_sound _ _ _ _ Ef) as (HJ & Hpres & Hall & _).
  { split; [intros t r Hg; discriminate Hg|intros r ms t Hg; discriminate Hg]. }
  exists p1, pf. split; [reflexivity|]. split; [exact HJ|]. split; [exact Hpres|].
  intros t Ht. apply Hall. now apply JsMap_get_In_keys.
Qed.


(** Two terminals joined by a wire are one node: [identifyNodes] maps both
    ends of every wire between terminals of the circuit to the same node
    id. *)
Theorem identifyNodes_wire_joins_its_ends
    (components : list (Component.t num)) (wires : list (Wire.t num))
    (st : Nodes) (w : Wire.t num) :
  identifyNodes components wires = Ok st ->
  In w wires ->
  isTerminalOf components (Wire.fromTerminal w) ->
  isTerminalOf components (Wire.toTerminal w) ->
  exists node,
    JsMap.get (Wire.fromTerminal w) (terminalToNode st) = Some node
    /\ JsMap.get (Wire.toTerminal w) (terminalToNode st) = Some node.
Proof.
  intros Hi Hw (c1 & t1 & Hc1 & Ht1 & E1) (c2 & t2 & Hc2 & Ht2 & E2).
  destruct (identifyNodes_sound _ _ _ Hi) as (p1 & pf & Hu & (J1 & _) & Hpres & Hall).
  destruct (initParent_spec components) as [_ Hkeys].
  pose proof (Hkeys c1 t1 Hc1 Ht1) as Hk1. rewrite E1 in Hk1.
  pose proof (Hkeys c2 t2 Hc2 Ht2) as Hk2. rewrite E2 in Hk2.
  destruct (unionWires_sound _ _ _ _ Hu) as (_ & _ & Hjoin & Hdom).
  destruct (Hjoin w Hw Hk1 Hk2) as (r & Ha & Hb).
  apply Hpres in Ha. apply Hpres in Hb.
  pose proof (Hall _ (proj2 (Hdom _) Hk1)) as Hn1.
  pose proof (Hall _ (proj2 (Hdom _) Hk2)) as Hn2.
  destruct (JsMap.get (Wire.fromTerminal w) (terminalToNode st)) as [r1|] eqn:G1;
    [|congruence].
  destruct (JsMap.get (Wire.toTerminal w) (terminalToNode st)) as [r2|] eqn:G2;
    [|congruence].
  destruct (J1 _ _ G1) as (Hr1 & _). destruct (J1 _ _ G2) as (Hr2 & _).
  exists r. split; f_equal.
  - apply (RootOf_det pf (Wire.fromTerminal w)); assumption.
  - apply (RootOf_det pf (Wire.toTerminal w)); assumption.
Qed.

(** Every terminal of the circuit is in a node, and the two maps of the
    solver agree on it: the terminal is listed among the members of the
    node it is mapped to, and of no other node. *)
Theorem identifyNodes_terminal_in_its_node
    (components : list (Component.t num)) (wires : list (Wire.t num))
    (st : Nodes) (id : string) :
  identifyNodes components wires = Ok st ->
  isTerminalOf components id ->
  exists node members,
    JsMap.get id (terminalToNode st) = Some node
    /\ JsMap.get node (nodes st) = Some members
    /\ In id members
    /\ (forall node' members',
          JsMap.get node' (nodes st) = Some members' -> In id members' -> node' = node).
Proof.
  intros Hi (c & t & Hc & Ht & E).
  destruct (identifyNodes_sound _ _ _ Hi) as (p1 & pf & Hu & (J1 & J2) & Hpres & Hall).
  destruct (initParent_spec components) as [_ Hkeys].
  pose proof (Hkeys c t Hc Ht) as Hk. rewrite E in Hk.
  destruct (unionWires_sound _ _ _ _ Hu) as (_ & _ & _ & Hdom).
  pose proof (Hall _ (proj2 (Hdom _) Hk)) as Hn.
  destruct (JsMap.get id (terminalToNode st)) as [r|] eqn:G; [|congruence].
  destruct (J1 _ _ G) as (_ & ms & Hms & Hin).
  exists r, ms. split; [reflexivity|]. split; [exact Hms|]. split; [exact Hin|].
  intros r' ms' Hg' Hin'. pose proof (J2 r' ms' id Hg' Hin') as G'. congruence.
Qed.

End IdentifyJoinFacts.

Section NodeSplitFacts.
Context {num : Type}.
Import CircuitSolver BaseComponent.
Implicit Types (p : JsMap.t string).


(** Every key of [parent] has a root, and a terminal is connected to its
    root by wires. *)
Definition RootsConnected (wires : list (Wire.t num)) p : Prop :=
  (forall k, JsMap.get k p <> None -> exists r, RootOf p k r)
  /\ (forall x r, RootOf p x r -> Connected wires x r).

Lemma RootOf_key p x r : RootOf p x r -> JsMap.get x p <> None.
Proof. destruct 1; congruence. Qed.

Lemma find_RootsConnected wires fuel p i r p' :
  find fuel p i = Ok (r, p') -> RootsConnected wires p -> RootsConnected wires p'.
Proof.
  intros Hf (K1 & K2). destruct (find_sound _ _ _ _ _ Hf) as (_ & Hpres & Hdom).
  split.
  - intros k Hk. destruct (K1 k (proj1 (Hdom k) Hk)) as [rk Hrk]. eauto.
  - intros x rx Hx. pose proof (RootOf_key _ _ _ Hx) as Hk.
    destruct (K1 x (proj1 (Hdom x) Hk)) as [rk Hrk].
    rewrite (RootOf_det _ _ _ _ Hx (Hpres _ _ Hrk)). auto.
Qed.

Lemma union_RootsConnected wires fuel p (w : Wire.t num) p' :
  In w wires ->
  union fuel p (Wire.fromTerminal w) (Wire.toTerminal w) = Ok p' ->
  RootsConnected wires p -> RootsConnected wires p'.
Proof.
  unfold union. intros Hw Hu K.
  destruct (find fuel p _) as [[rI p1]|e] eqn:E1; [|discriminate Hu]. cbn [bind] in Hu.
  destruct (find fuel p1 _) as [[rJ p2]|e] eqn:E2; [|discriminate Hu]. cbn [bind] in Hu.
  injection Hu as <-.
  pose proof (find_RootsConnected wires _ _ _ _ _ E1 K) as K1.
  pose proof (find_RootsConnected wires _ _ _ _ _ E2 K1) as (K2a & K2b).
  destruct (find_sound _ _ _ _ _ E1) as (Hi & _ & _).
  destruct (find_sound _ _ _ _ _ E2) as (Hj & Hpres2 & _).
  assert (Hi2 : RootOf p2 (Wire.fromTerminal w) rI).
  { destruct K1 as (K1a & _).
    destruct (K1a _ (RootOf_key _ _ _ Hj)) as [? ?].
    apply Hpres2. destruct (find_sound _ _ _ _ _ E1) as (_ & Hpres1 & _). auto. }
  assert (Hj2 : RootOf p2 (Wire.toTerminal w) rJ) by auto.
  destruct (String.eqb rI rJ) eqn:E; [split; assumption|].
  apply String.eqb_neq in E.
  pose proof (RootOf_root _ _ _ Hi2) as HI.
  pose proof (RootOf_root _ _ _ Hj2) as HJ.
  pose proof (fun x rx => RootOf_link p2 rI rJ x rx HI HJ E) as Hlink.
  assert (Hdom : forall k, JsMap.get k (JsMap.set rI rJ p2) <> None -> JsMap.get k p2 <> None).
  { intros k. rewrite JsMap_get_set. destruct (String.eqb rI k) eqn:Eik; [|tauto].
    apply String.eqb_eq in Eik. subst k. congruence. }
  split.
  - intros k Hk. destruct (K2a k (Hdom k Hk)) as [rk Hrk]. eauto.
  - intros x r Hx. pose proof (RootOf_key _ _ _ Hx) as Hk.
    destruct (K2a x (Hdom x Hk)) as [rk Hrk].
    pose proof (Hlink x rk Hrk) as Hx'.
    rewrite (RootOf_det _ _ _ _ Hx Hx').
    destruct (String.eqb rk rI) eqn:Ek; [|auto].
    apply String.eqb_eq in Ek. subst rk.
    eapply Connected_trans; [apply K2b; exact Hrk|].
    eapply Connected_trans; [apply Connected_sym, K2b; exact Hi2|].
    eapply Connected_trans; [apply Connected_wire; exact Hw|].
    apply K2b. exact Hj2.
Qed.

Lemma unionWires_RootsConnected wires fuel : forall (l : list (Wire.t num)) p p',
  incl l wires ->
  unionWires fuel l p = Ok p' ->
  RootsConnected wires p -> RootsConnected wires p'.
Proof.
  unfold unionWires.
  induction l as [|w l IH]; intros p p' Hl Hu K; cbn in Hu.
  - now injection Hu as <-.
  - assert (Hl' : incl l wires) by (intros x Hx; apply Hl; now right).
    destruct (JsMap.has (Wire.fromTerminal w) p && JsMap.has (Wire.toTerminal w) p).
    + destruct (union fuel p _ _) as [p1|e] eqn:Eu; [|discriminate Hu].
      cbn [bind] in Hu. apply (IH p1 p' Hl' Hu).
      eapply union_RootsConnected; eauto. apply Hl. now left.
    + cbn [bind] in Hu. apply (IH p p' Hl' Hu K).
Qed.

Lemma addTerminal_fold_RootsConnected wires fuel : forall l s s',
  forEachM (addTerminal fuel) l s = Ok s' ->
  RootsConnected wires (fst (fst s)) -> RootsConnected wires (fst (fst s')).
Proof.
  induction l as [|t l IH]; intros s s' Hf K; cbn in Hf.
  - now injection Hf as <-.
  - destruct (addTerminal fuel s t) as [s1|e] eqn:Ea; [|discriminate Hf].
    cbn [bind] in Hf. apply (IH s1 s' Hf).
    destruct s as [[parent nds] t2n]. unfold addTerminal in Ea.
    destruct (find fuel parent t) as [[root p1]|e] eqn:Ef; [|discriminate Ea].
    cbn [bind] in Ea. injection Ea as <-. cbn [fst].
    eapply find_RootsConnected; eauto.
Qed.

(** The nodes split the circuit no coarser than the wires do: two
    terminals that [identifyNodes] maps to the same node are connected by
    a chain of wires. *)
Theorem identifyNodes_same_node_is_connected
    (components : list (Component.t num)) (wires : list (Wire.t num))
    (st : Nodes) (a b node : string) :
  identifyNodes components wires = Ok st ->
  JsMap.get a (terminalToNode st) = Some node ->
  JsMap.get b (terminalToNode st) = Some node ->
  Connected wires a b.
Proof.
  intros Hi Ha Hb.
  assert (K0 : RootsConnected wires (initParent components)).
  { destruct (initParent_spec components) as [Hself _].
    assert (Hroot : forall x r, RootOf (initParent components) x r -> r = x).
    { intros x r Hx. destruct Hx as [r Hr|x j r Hxj Hne _]; [reflexivity|].
      apply Hself in Hxj. contradiction. }
    split.
    - intros k Hk. destruct (JsMap.get k (initParent components)) as [v|] eqn:E;
        [|congruence].
      exists k. apply RootOf_self. now rewrite (Hself k v E) in E.
    - intros x r Hx. rewrite (Hroot x r Hx). apply Connected_refl. }
  unfold identifyNodes in Hi.
  destruct (unionWires _ wires _) as [p1|e] eqn:Eu; [|discriminate Hi]. cbn [bind] in Hi.
  destruct (forEachM _ (JsMap.keys p1) _) as [[[pf nds] t2n]|e] eqn:Ef; [|discriminate Hi].
  cbn [bind] in Hi.
  destruct (groundOfSource _ pf components) as [g|e]; [|discriminate Hi].
  cbn [bind] in Hi. injection Hi as <-. cbn [terminalToNode] in Ha, Hb.
  pose proof (unionWires_RootsConnected wires _ wires _ _ (incl_refl _) Eu K0) as K1.
  pose proof (addTerminal_fold_RootsConnected wires _ _ _ _ Ef K1) as (_ & K2).
  cbn [fst] in K2.
  destruct (addTerminal_fold_sound _ _ _ _ Ef) as ((J1 & _) & _).
  { split; [intros t r Hg; discriminate Hg|intros r ms t Hg; discriminate Hg]. }
  destruct (J1 _ _ Ha) as (Hra & _). destruct (J1 _ _ Hb) as (Hrb & _).
  eapply Connected_trans; [apply K2; exact Hra|].
  apply Connected_sym, K2. exact Hrb.
Qed.

End NodeSplitFacts.

(* ================================================================== *)
(** * More facts about the result of a solve                           *)
(* ================================================================== *)

Section JsMapFoldFacts.

Lemma JsMap_get_In {V : Type} (k : string) (v : V) (m : JsMap.t V) :
  JsMap.get k m = Some v -> In (k, v) m.
Proof.
  induction m as [|[k' v'] m IH]; cbn; [discriminate|].
  destruct (String.eqb k' k) eqn:E.
  - apply String.eqb_eq in E. subst k'. intros [= <-]. now left.
  - intros Hg. right. auto.
Qed.

(** A loop that sets one key per entry of a list with distinct keys. *)
Lemma fold_set_spec {A B : Type} (g : A -> B) :
  forall (l : list (string * A)) (m : JsMap.t B),
    NoDup (map fst l) ->
    let m' := fold_left (fun m e => JsMap.set (fst e) (g (snd e)) m) l m in
    (forall k a, In (k, a) l -> JsMap.get k m' = Some (g a))
    /\ (forall k, ~ In k (map fst l) -> JsMap.get k m' = JsMap.get k m).
Proof.
  induction l as [|[k0 a0] l IH]; intros m Hnd; cbn.
  - split; [intros k a []|auto].
  - inversion Hnd as [|? ? Hk0 Hnd']; subst.
    destruct (IH (JsMap.set k0 (g a0) m) Hnd') as [H1 H2]. cbv zeta in H1, H2.
    split.
    + intros k a [[= <- <-]|Hin]; [|now apply H1].
      rewrite (H2 k0 Hk0). apply JsMap_get_set_same.
    + intros k Hk. rewrite H2 by tauto. apply JsMap_get_set_other. tauto.
Qed.

End JsMapFoldFacts.

Section ResultFacts.
Context {num : Type} `{JsNumber num}.
Import CircuitSolver BaseComponent.
Local Open Scope js_scope.

Lemma assignIndex_fold_NoDup : forall (l : list string) (s : JsMap.t Z * Z),
  NoDup (JsMap.keys (fst s)) -> NoDup (JsMap.keys (fst (fold_left assignIndex l s))).
Proof.
  induction l as [|a l IH]; intros [ni idx] Hnd; cbn [fold_left]; [exact Hnd|].
  apply IH. unfold assignIndex.
  destruct (JsMap.get a ni) as [[|q|[q|q|]]|]; cbn [fst];
    try exact Hnd; now apply JsMap_keys_set_NoDup.
Qed.

Lemma markGround_NoDup (g : option string) (l : list string) :
  NoDup (JsMap.keys (markGround g l)).
Proof.
  rewrite markGround_groundChoice. destruct (groundChoice g l); cbn; repeat constructor.
  intros [].
Qed.

(** The voltage that the solve reports for a node: 0 for the ground, the
    entry of the solution vector for the others. *)
Definition voltageOfIndex (x : Vector) (idx : Z) : num :=
  if Z.eqb idx (-1) then of_Q 0 else vget x (Z.to_nat idx).

Lemma nodeVoltages_fold (x : Vector) : forall (l : list (string * Z)) (nv : JsMap.t num),
  fold_left
    (fun nodeVoltages (e : string * Z) =>
       let '(nodeId, idx) := e in
       if Z.eqb idx (-1) then JsMap.set nodeId (of_Q 0) nodeVoltages
       else JsMap.set nodeId (vget x (Z.to_nat idx)) nodeVoltages) l nv
  = fold_left (fun m e => JsMap.set (fst e) (voltageOfIndex x (snd e)) m) l nv.
Proof.
  induction l as [|[k idx] l IH]; intros nv; cbn [fold_left]; [reflexivity|].
  rewrite IH. unfold voltageOfIndex. cbn [fst snd].
  destruct (Z.eqb idx (-1)); reflexivity.
Qed.

(** The read-out of [solveMNA], phase by phase. *)
Lemma solveMNA_inv (st : Nodes) (components : list (Component.t num))
    (wires : list (Wire.t num)) (res : SimulationResult num) :
  solveMNA st components wires = Ok res ->
  exists (x : Vector) (numNodes : nat) (voltageSources : list (Component.t num)),
    nodeVoltages res
    = fold_left (fun m e => JsMap.set (fst e) (voltageOfIndex x (snd e)) m)
        (nodeIndex st) JsMap.empty
    /\ forEachM (extractComponent st numNodes voltageSources x (nodeVoltages res))
         components (JsMap.empty, JsMap.empty)
       = Ok (componentCurrents res, componentVoltages res).
Proof.
  unfold solveMNA. intros E.
  destruct (forEachM (stampComponent st) components _) as [G|]; [|discriminate E].
  cbn [bind] in E.
  destruct (forEachM (stampVoltageSource st _) _ _) as [[[G' I'] k]|]; [|discriminate E].
  cbn [bind] in E.
  rewrite nodeVoltages_fold in E.
  match type of E with
  | context [forEachM (extractComponent st ?n ?vs ?x ?nv) components ?s0] =>
      destruct (forEachM (extractComponent st n vs x nv) components s0)
        as [[cc cv]|] eqn:Ex; [|discriminate E];
      exists x, n, vs
  end.
  cbn [bind] in E. destruct (fold_left _ wires _) as [wc wv].
  injection E as <-. cbn [nodeVoltages componentCurrents componentVoltages].
  split; [reflexivity|exact Ex].
Qed.

(** The ground of a solved circuit is at 0 V, and every node has a
    voltage in the result. *)
Theorem solve_ground_is_at_zero_volt
    (components : list (Component.t num)) (wires : list (Wire.t num))
    (res : SimulationResult num) :
  solve components wires = Ok res ->
  exists st,
    identifyNodes components wires = Ok st
    /\ (forall g, chosenGround components st = Some g ->
          JsMap.get g (nodeVoltages res) = Some (of_Q 0))
    /\ (forall node, In node (JsMap.keys (nodes st)) ->
          JsMap.get node (nodeVoltages res) <> None).
Proof.
  unfold solve. intros Hs.
  destruct (identifyNodes_run components wires) as (nds & t2n & Hrun & Hnd & _).
  rewrite Hrun in Hs. cbn [bind] in Hs.
  eexists. split; [exact Hrun|].
  destruct (solveMNA_inv _ _ _ _ Hs) as (x & n & vs & Hnv & _).
  cbn [nodeIndex] in Hnv. cbn [nodes].
  set (src := sourceNode components (mk_Nodes nds t2n [])) in *.
  set (ni := assignIndices (JsMap.keys nds) (markGround src (JsMap.keys nds))) in *.
  assert (Hni : NoDup (map fst ni)).
  { subst ni. unfold assignIndices. apply assignIndex_fold_NoDup. apply markGround_NoDup. }
  destruct (fold_set_spec (voltageOfIndex x) ni JsMap.empty Hni) as [H1 _].
  cbv zeta in H1. rewrite <- Hnv in H1.
  assert (Hground : forall g, groundChoice src (JsMap.keys nds) = Some g ->
            JsMap.get g ni = Some (-1)%Z
            /\ (forall k id,
                  nth_error (filter (fun id => negb (String.eqb id g)) (JsMap.keys nds)) k
                  = Some id -> JsMap.get id ni = Some (Z.of_nat k))).
  { intros g Hg. subst ni. rewrite markGround_groundChoice, Hg.
    apply assignIndices_spec. exact Hnd. }
  split.
  - intros g Hg. unfold chosenGround in Hg. cbn [nodes] in Hg.
    rewrite (sourceNode_terminalToNode components _ (mk_Nodes nds t2n [])) in Hg
      by reflexivity.
    destruct (Hground g Hg) as [Hm _].
    rewrite (H1 g _ (JsMap_get_In _ _ _ Hm)). reflexivity.
  - intros node Hnode.
    destruct (groundChoice src (JsMap.keys nds)) as [g|] eqn:Eg.
    + destruct (Hground g eq_refl) as [Hm Hidx].
      destruct (String.eqb node g) eqn:E.
      * apply String.eqb_eq in E. subst node.
        rewrite (H1 g _ (JsMap_get_In _ _ _ Hm)). discriminate.
      * assert (Hf : In node (filter (fun id => negb (String.eqb id g)) (JsMap.keys nds))).
        { apply filter_In. split; [exact Hnode|]. now rewrite E. }
        destruct (In_nth_error _ _ Hf) as [k Hk].
        rewrite (H1 node _ (JsMap_get_In _ _ _ (Hidx k node Hk))). discriminate.
    + exfalso. unfold groundChoice in Eg.
      destruct (JsMap.keys nds) as [|n0 l]; [destruct Hnode|].
      destruct src as [g0|]; [destruct (nonEmpty g0)|]; discriminate.
Qed.

(** The loop that reads the component values out: a resistive component
    gets its voltage drop and, as its current, that drop divided by its
    resistance. *)
Lemma extractComponent_fold (st : Nodes) (n : nat) (vs : list (Component.t num))
    (x : Vector) (nv : JsMap.t num) :
  forall (l : list (Component.t num)) (s s' : JsMap.t num * JsMap.t num),
    forEachM (extractComponent st n vs x nv) l s = Ok s' ->
    NoDup (map (fun c => id c) l) ->
    (forall c, In c l ->
       exists vDrop,
         JsMap.get (id c) (snd s') = Some vDrop
         /\ forall r, resistanceOf c = Some r ->
              JsMap.get (id c) (fst s') = Some (vDrop / r))
    /\ (forall k, ~ In k (map (fun c => id c) l) ->
          JsMap.get k (fst s') = JsMap.get k (fst s)
          /\ JsMap.get k (snd s') = JsMap.get k (snd s)).
Proof.
  induction l as [|c l IH]; intros s s' Hf Hnd; cbn in Hf.
  - injection Hf as <-. split; [intros c []|auto].
  - inversion Hnd as [|? ? Hc Hnd']; subst.
    destruct (extractComponent st n vs x nv s c) as [s1|e] eqn:E1; [|discriminate Hf].
    cbn [bind] in Hf. destruct (IH s1 s' Hf Hnd') as [H1 H2].
    destruct s as [cc cv]. unfold extractComponent in E1.
    destruct (terminalId c 0) as [t0|]; [|discriminate E1]. cbn [bind] in E1.
    destruct (terminalId c 1) as [t1|]; [|discriminate E1]. cbn [bind] in E1.
    match type of E1 with
    | context [JsMap.set (id c) ?v cv] => set (vDrop := v) in E1
    end.
    assert (Hs1 : JsMap.get (id c) (snd s1) = Some vDrop
                  /\ (forall r, resistanceOf c = Some r ->
                        JsMap.get (id c) (fst s1) = Some (vDrop / r))
                  /\ (forall k, k <> id c ->
                        JsMap.get k (fst s1) = JsMap.get k cc
                        /\ JsMap.get k (snd s1) = JsMap.get k cv)).
    { destruct (resistanceOf c) as [r|].
      - injection E1 as <-. cbn [fst snd]. rewrite !JsMap_get_set_same.
        split; [reflexivity|]. split; [intros r' [= <-]; reflexivity|].
        intros k Hk. rewrite !JsMap_get_set_other by congruence. auto.
      - assert (Hcv : snd s1 = JsMap.set (id c) vDrop cv
                      /\ forall k, k <> id c -> JsMap.get k (fst s1) = JsMap.get k cc).
        { destruct (isVoltageSource c); [destruct (findIndex vs (id c))|];
            injection E1 as <-; cbn [fst snd]; split; auto.
          intros k Hk. apply JsMap_get_set_other. congruence. }
        destruct Hcv as [-> Hcc]. rewrite JsMap_get_set_same.
        split; [reflexivity|]. split; [intros r' [=]|].
        intros k Hk. rewrite JsMap_get_set_other by congruence. auto. }
    destruct Hs1 as (Hv & Hr & Hoth).
    split.
    + intros c' [<-|Hin]; [|now apply H1].
      destruct (H2 (id c) Hc) as [Hcc Hcv]. exists vDrop.
      split; [now rewrite Hcv|]. intros r Hres. rewrite Hcc. auto.
    + intros k Hk. cbn [map] in Hk.
      destruct (H2 k) as [Hcc Hcv]; [intros Hin; apply Hk; now right|].
      destruct (Hoth k) as [Hcc1 Hcv1]; [intros ->; apply Hk; now left|].
      cbn [fst snd]. split; congruence.
Qed.

(** Ohm's law in the result of a solve: for a circuit whose components
    have distinct ids, every component gets a voltage drop, and a component
    of a resistive kind gets as its current that drop divided by the
    resistance the solver uses for it. *)
Theorem solve_reports_ohms_law
    (components : list (Component.t num)) (wires : list (Wire.t num))
    (res : SimulationResult num) (c : Component.t num) :
  solve components wires = Ok res ->
  NoDup (map (fun c => id c) components) ->
  In c components ->
  exists vDrop,
    JsMap.get (id c) (componentVoltages res) = Some vDrop
    /\ forall r, resistanceOf c = Some r ->
         JsMap.get (id c) (componentCurrents res) = Some (vDrop / r).
Proof.
  unfold solve. intros Hs Hnd Hc.
  destruct (identifyNodes components wires) as [st|]; [|discriminate Hs].
  cbn [bind] in Hs.
  destruct (solveMNA_inv _ _ _ _ Hs) as (x & n & vs & _ & Hex).
  destruct (extractComponent_fold _ _ _ _ _ _ _ _ Hex Hnd) as [H1 _].
  exact (H1 c Hc).
Qed.

End ResultFacts.

(* ================================================================== *)
(** * Facts about the editing actions of the store                     *)
(* ================================================================== *)

Section ActionFacts.
Context {num : Type} `{JsNumber num}.
Import Store BaseComponent.


Lemma filter_all {A : Type} (f : A -> bool) (l : list A) :
  (forall x, In x l -> f x = true) -> filter f l = l.
Proof.
  induction l as [|a l IH]; intros Hf; cbn; [reflexivity|].
  rewrite (Hf a (or_introl eq_refl)). f_equal. apply IH. intros x Hx. apply Hf. now right.
Qed.

Lemma findTerminal_In (components : list (Component.t num)) (tid : string)
    (t : Terminal.t num) :
  findTerminal components tid = Some t ->
  Terminal.id t = tid /\ exists c, In c components /\ In t (terminals c).
Proof.
  unfold findTerminal. intros Hf. apply find_some in Hf. destruct Hf as [Hin Heq].
  apply String.eqb_eq in Heq. split; [exact Heq|].
  apply in_flat_map in Hin. exact Hin.
Qed.

(** [removeComponent] takes the component out of the circuit and out of
    the selection, and leaves every wire in place, the wires of the removed
    component included: their terminals are looked up after the component
    is gone. *)
Theorem removeComponent_keeps_every_wire (cid : string) (s : Editor num) :
  terminalsOwned (components (circuit s)) ->
  let s' := removeComponent cid s in
  wires (circuit s') = wires (circuit s)
  /\ components (circuit s')
     = filter (fun c => negb (String.eqb (id c) cid)) (components (circuit s))
  /\ (forall c, In c (components (circuit s')) -> id c <> cid)
  /\ ~ In cid (selectedComponentIds s').
Proof.
  intros Hown. cbv zeta. unfold removeComponent. cbn.
  split; [|split; [reflexivity|split]].
  - apply filter_all. intros w _.
    assert (Hno : forall tid,
              notOwnedBy cid
                (findTerminal
                   (filter (fun c => negb (String.eqb (id c) cid)) (components (circuit s)))
                   tid) = true).
    { intros tid. destruct (findTerminal _ tid) as [t|] eqn:Ef; [|reflexivity].
      apply findTerminal_In in Ef. destruct Ef as (_ & c & Hc & Ht).
      apply filter_In in Hc. destruct Hc as [Hc Hne].
      cbn. rewrite (Hown c t Hc Ht). exact Hne. }
    now rewrite !Hno.
  - intros c Hc. apply filter_In in Hc. destruct Hc as [_ Hne].
    apply negb_true_iff, String.eqb_neq in Hne. exact Hne.
  - intros Hin. apply filter_In in Hin. destruct Hin as [_ Hne].
    now rewrite String.eqb_refl in Hne.
Qed.

(** The components after [addComponent]. *)
Lemma addComponent_components
    (tempId newId : string) (type : ComponentType.t) (s : Editor num) :
  match ComponentFactory.createComponent newId type with
  | Some c =>
      components (circuit (addComponent tempId newId type s))
      = components (circuit s) ++ [c]
  | None => addComponent tempId newId type s = s
  end.
Proof.
  destruct type; cbn; auto.
Qed.

Lemma createComponent_owned (cid : string) (type : ComponentType.t) (c : Component.t num) :
  ComponentFactory.createComponent cid type = Some c ->
  id c = cid /\ forall t, In t (terminals c) -> Terminal.componentId t = cid.
Proof.
  destruct type; cbn; try discriminate; intros [= <-]; cbn;
    (split; [reflexivity|]); intros t Ht;
    repeat (destruct Ht as [<-|Ht]; [reflexivity|]); destruct Ht.
Qed.

(** The editing actions keep the ownership of the terminals: it holds in
    the initial store and after [addComponent], [removeComponent],
    [addWire] and [removeWire]. *)
Theorem editing_keeps_terminals_owned :
  terminalsOwned (components (circuit (initialState (num := num))))
  /\ (forall (s : Editor num), terminalsOwned (components (circuit s)) ->
        (forall tempId newId type,
            terminalsOwned (components (circuit (addComponent tempId newId type s))))
        /\ (forall cid, terminalsOwned (components (circuit (removeComponent cid s))))
        /\ (forall uuid a b, terminalsOwned (components (circuit (addWire uuid a b s))))
        /\ (forall wid, terminalsOwned (components (circuit (removeWire wid s))))).
Proof.
  split; [intros c t []|].
  intros s Hown. split; [|split; [|split]].
  - intros tempId newId type.
    pose proof (addComponent_components tempId newId type s) as Ha.
    destruct (ComponentFactory.createComponent newId type) as [c|] eqn:Ec.
    + rewrite Ha. intros c' t Hc' Ht. apply in_app_or in Hc'.
      destruct Hc' as [Hc'|[<-|[]]]; [now apply Hown|].
      destruct (createComponent_owned _ _ _ Ec) as [-> Hall]. now apply Hall.
    + now rewrite Ha.
  - intros cid c t Hc Ht. cbn in Hc. apply filter_In in Hc. apply Hown; tauto.
  - intros uuid a b. unfold addWire.
    destruct (findTerminal _ a); [destruct (findTerminal _ b)|]; exact Hown.
  - intros wid. exact Hown.
Qed.

End ActionFacts.

Section WiringFacts.
Context {num : Type} `{JsNumber num}.
Import Store BaseComponent CircuitSolver.

(** Drawing a wire between two terminals of the circuit makes them one
    node for the solver; a wire to a terminal that does not exist is not
    added. *)
Theorem addWire_joins_the_terminals
    (uuid a b : string) (s : Editor num) :
  let s' := addWire uuid a b s in
  match findTerminal (components (circuit s)) a,
        findTerminal (components (circuit s)) b with
  | Some _, Some _ =>
      wires (circuit s') = wires (circuit s) ++ [Wire.mk uuid a b (of_Q 0) (of_Q 0)]
      /\ forall st,
           identifyNodes (components (circuit s')) (wires (circuit s')) = Ok st ->
           exists node,
             JsMap.get a (terminalToNode st) = Some node
             /\ JsMap.get b (terminalToNode st) = Some node
  | _, _ => s' = s
  end.
Proof.
  cbv zeta. unfold addWire.
  destruct (findTerminal (components (circuit s)) a) as [ta|] eqn:Ea; [|reflexivity].
  destruct (findTerminal (components (circuit s)) b) as [tb|] eqn:Eb; [|reflexivity].
  cbn. split; [reflexivity|]. intros st Hi.
  apply findTerminal_In in Ea. destruct Ea as (Ha & ca & Hca & Hta).
  apply findTerminal_In in Eb. destruct Eb as (Hb & cb & Hcb & Htb).
  set (w := Wire.mk uuid a b (of_Q 0) (of_Q 0)) in *.
  destruct (identifyNodes_sound _ _ _ Hi) as (p1 & pf & Hu & (J1 & _) & Hpres & Hall).
  destruct (initParent_spec (components (circuit s))) as [_ Hkeys].
  pose proof (Hkeys ca ta Hca Hta) as Hk1. rewrite Ha in Hk1.
  pose proof (Hkeys cb tb Hcb Htb) as Hk2. rewrite Hb in Hk2.
  destruct (unionWires_sound _ _ _ _ Hu) as (_ & _ & Hjoin & Hdom).
  destruct (Hjoin w) as (r & Hra & Hrb); [apply in_or_app; right; now left|exact Hk1|exact Hk2|].
  cbn [Wire.fromTerminal Wire.toTerminal w] in Hra, Hrb.
  apply Hpres in Hra. apply Hpres in Hrb.
  pose proof (Hall _ (proj2 (Hdom _) Hk1)) as Hn1.
  pose proof (Hall _ (proj2 (Hdom _) Hk2)) as Hn2.
  destruct (JsMap.get a (terminalToNode st)) as [r1|] eqn:G1; [|congruence].
  destruct (JsMap.get b (terminalToNode st)) as [r2|] eqn:G2; [|congruence].
  destruct (J1 _ _ G1) as (Hr1 & _). destruct (J1 _ _ G2) as (Hr2 & _).
  exists r. split; f_equal.
  - apply (RootOf_det pf a); assumption.
  - apply (RootOf_det pf b); assumption.
Qed.

(** The selection never lists a component twice: the actions that change
    it keep it free of duplicates. *)
Theorem selection_has_no_duplicates (s : Editor num) :
  NoDup (selectedComponentIds s) ->
  (forall cid multiSelect, NoDup (selectedComponentIds (selectComponent cid multiSelect s)))
  /\ (forall tempId newId type,
        NoDup (selectedComponentIds (addComponent tempId newId type s)))
  /\ (forall cid, NoDup (selectedComponentIds (removeComponent cid s)))
  /\ NoDup (selectedComponentIds (deselectAll s)).
Proof.
  intros Hnd.
  assert (Hone : forall x : string, NoDup [x]).
  { intros x. constructor; [intros []|constructor]. }
  split; [|split; [|split]].
  - intros cid [|]; unfold selectComponent; [|apply Hone].
    destruct (isSelected cid s) eqn:E; cbn.
    + now apply NoDup_filter.
    + apply NoDup_app; [exact Hnd|apply Hone|].
      intros x Hx [Heq|[]]. subst x. unfold isSelected in E.
      assert (existsb (String.eqb cid) (selectedComponentIds s) = true).
      { apply existsb_exists. exists cid. split; [exact Hx|apply String.eqb_refl]. }
      congruence.
  - intros tempId newId type. unfold addComponent.
    destruct (ComponentFactory.createComponent tempId type); [apply Hone|exact Hnd].
  - intros cid. cbn. now apply NoDup_filter.
  - constructor.
Qed.

End WiringFacts.

(* ================================================================== *)
(** * More facts about the step coordinator                            *)
(* ================================================================== *)

Section TickFacts.
Context {num : Type} `{JsNumber num}.
Variable simulate : num -> JsMap.t num -> Component.t num -> Component.t num.
Variable checkErrors : Component.t num -> list (CircuitError num).
Variable uuidv4 : string.
Variable Date_now : num.
Variable errorMessage : JsError -> string.
Import Store.


(** The error list after the loop over the reported errors: the known
    errors, then some of the reported ones. *)
Lemma reportError_fold_errors (errs0 : list (CircuitError num)) : forall errors h,
  exists added,
    fst (fold_left reportError errs0 (errors, h)) = errors ++ added
    /\ incl added errs0
    /\ (ErrorsDistinct errors -> ErrorsDistinct (errors ++ added)).
Proof.
  induction errs0 as [|e l IH]; intros errors h; cbn [fold_left].
  - exists []. rewrite app_nil_r. split; [reflexivity|]. split; [intros x []|auto].
  - unfold reportError at 2.
    set (known := existsb _ errors).
    destruct (IH (if known then errors else errors ++ [e])
                (if stopSimulation e then true else h)) as (added & Hf & Hincl & Hd).
    destruct known eqn:Ek.
    + exists added. split; [exact Hf|]. split; [|exact Hd].
      intros x Hx. right. now apply Hincl.
    + exists (e :: added). rewrite Hf, <- app_assoc. split; [reflexivity|].
      split; [intros x [<-|Hx]; [now left|right; now apply Hincl]|].
      intros [D1 D2]. change (errors ++ e :: added) with (errors ++ [e] ++ added).
      rewrite app_assoc. apply Hd.
      assert (Hnew : forall e', In e' errors ->
                err_id e' <> err_id e /\ message e' <> message e).
      { intros e' He'. subst known.
        assert (Hb : (String.eqb (message e') (message e)
                      || String.eqb (err_id e') (err_id e))%bool = false).
        { destruct (_ || _)%bool eqn:Eb; [|reflexivity].
          assert (existsb
                    (fun e0 => (String.eqb (message e0) (message e)
                                || String.eqb (err_id e0) (err_id e))%bool) errors = true).
          { apply existsb_exists. eauto. }
          congruence. }
        apply orb_false_iff in Hb. destruct Hb as [Hm Hi].
        apply String.eqb_neq in Hm. apply String.eqb_neq in Hi. auto. }
      split; rewrite map_app; cbn [map].
      * apply NoDup_app; [exact D1|constructor; [intros []|constructor]|].
        intros x Hx [<-|[]]. apply in_map_iff in Hx. destruct Hx as (e' & He & Hin).
        destruct (Hnew e' Hin). congruence.
      * apply NoDup_app; [exact D2|constructor; [intros []|constructor]|].
        intros x Hx [<-|[]]. apply in_map_iff in Hx. destruct Hx as (e' & He & Hin).
        destruct (Hnew e' Hin). congruence.
Qed.

(** The same for the loop over the components: every added error was
    reported by one of them. *)
Lemma checkComponent_fold_errors dt nv comps : forall visited errors h,
  exists added,
    snd (fst (fold_left (checkComponent simulate checkErrors dt nv) comps
                (visited, errors, h)))
    = errors ++ added
    /\ (forall e, In e added ->
          exists c, In c comps /\ In e (checkErrors (simulate dt nv c)))
    /\ (ErrorsDistinct errors -> ErrorsDistinct (errors ++ added)).
Proof.
  induction comps as [|c l IH]; intros visited errors h; cbn [fold_left].
  - exists []. rewrite app_nil_r. split; [reflexivity|]. split; [intros e []|auto].
  - unfold checkComponent at 2.
    destruct (reportError_fold_errors (checkErrors (simulate dt nv c)) errors h)
      as (added1 & Hf1 & Hincl1 & Hd1).
    destruct (fold_left reportError _ (errors, h)) as [errors1 h1].
    cbn [fst] in Hf1. subst errors1.
    destruct (IH (visited ++ [simulate dt nv c]) (errors ++ added1) h1)
      as (added2 & Hf2 & Hincl2 & Hd2).
    exists (added1 ++ added2). rewrite Hf2, app_assoc.
    split; [reflexivity|]. split.
    + intros e He. apply in_app_or in He. destruct He as [He|He].
      * exists c. split; [now left|now apply Hincl1].
      * destruct (Hincl2 e He) as (c' & Hc' & He'). exists c'. split; [now right|exact He'].
    + intros D. auto.
Qed.

Lemma filter_keeps_distinct_keys {E K : Type} (key : E -> K) (keep : E -> bool) :
  forall errs : list E,
  NoDup (map key errs) -> NoDup (map key (filter keep errs)).
Proof.
  intros errs. induction errs as [|e errs IH]; cbn; [auto|]. intros Hnd.
  inversion Hnd as [|? ? He Hnd']; subst.
  destruct (keep e); cbn; [|auto]. constructor; [|auto].
  intros Hin. apply He. apply in_map_iff in Hin. destruct Hin as (x & Hx & Hin).
  apply filter_In in Hin. apply in_map_iff. exists x. tauto.
Qed.

(** A tick that no component halts leaves the run going and keeps, of the
    error list, the halting errors that were known before the tick: every
    warning, old or reported in this tick, is dropped at the end of the
    tick. *)
Theorem stepSimulation_drops_warnings_of_a_running_tick
    (deltaTime : num) (state : CircuitStore num)
    (result : CircuitSolver.SimulationResult num) :
  running (simulation state) = true ->
  CircuitSolver.solve (components state) (wires state) = Ok result ->
  let dt := mul deltaTime (speed (simulation state)) in
  let updated :=
    map (fun c => simulate dt (CircuitSolver.nodeVoltages result) (updateComponent result c))
      (components state) in
  (forall c e, In c updated -> In e (checkErrors c) -> stopSimulation e = false) ->
  let state' :=
    stepSimulation simulate checkErrors uuidv4 Date_now errorMessage deltaTime state in
  running (simulation state') = true
  /\ errors (simulation state')
     = filter (fun e => stopSimulation e) (errors (simulation state)).
Proof.
  intros Hrun Hsolve dt updated Hnone. cbv zeta.
  unfold stepSimulation. rewrite Hrun, Hsolve. cbn. fold dt.
  pose proof (checkComponent_fold simulate checkErrors dt (CircuitSolver.nodeVoltages result)
                (map (updateComponent result) (components state))
                [] (errors (simulation state)) false) as E.
  destruct (checkComponent_fold_errors dt (CircuitSolver.nodeVoltages result)
              (map (updateComponent result) (components state))
              [] (errors (simulation state)) false) as (added & Ha & Hadded & _).
  cbv zeta in E.
  destruct (fold_left _ (map (updateComponent result) (components state)) _)
    as [[comps errs] h] eqn:F.
  cbn in E, Ha. destruct E as [_ E2]. subst errs.
  assert (Hquiet : forall e, In e added -> stopSimulation e = false).
  { intros e He. destruct (Hadded e He) as (c & Hc & Hin).
    apply in_map_iff in Hc. destruct Hc as (c0 & <- & Hc0).
    apply (Hnone (simulate dt (CircuitSolver.nodeVoltages result) (updateComponent result c0))).
    - subst updated. apply in_map_iff. eauto.
    - exact Hin. }
  assert (Hh : h = false).
  { rewrite E2. apply not_true_is_false. intros Hex.
    apply existsb_exists in Hex. destruct Hex as (c & Hc & Hex).
    apply existsb_exists in Hex. destruct Hex as (e & He & Hstop).
    apply in_map_iff in Hc. destruct Hc as (c0 & <- & Hc0).
    rewrite (Hnone (simulate dt (CircuitSolver.nodeVoltages result) (updateComponent result c0)) e)
      in Hstop; [discriminate| |exact He].
    subst updated. apply in_map_iff. eauto. }
  clear E2. subst h. cbn.
  assert (Hfilter : filter (fun e => stopSimulation e) (errors (simulation state) ++ added)
                    = filter (fun e => stopSimulation e) (errors (simulation state))).
  { rewrite filter_app.
    assert (filter (fun e => stopSimulation e) added = []) as ->.
    { clear - Hquiet. induction added as [|e l IH]; cbn; [reflexivity|].
      rewrite (Hquiet e (or_introl eq_refl)). apply IH. intros x Hx. apply Hquiet. now right. }
    apply app_nil_r. }
  destruct (List.length (errors (simulation state) ++ added)) eqn:El; cbn.
  - split; [exact Hrun|]. apply length_zero_iff_nil in El.
    apply app_eq_nil in El. destruct El as [E1 E3]. rewrite E1, E3. reflexivity.
  - split; [exact Hrun|exact Hfilter].
Qed.

(** A tick keeps the error list free of duplicates: if no two errors
    share an id or a message before it, none do after it. *)
Theorem stepSimulation_keeps_errors_distinct
    (deltaTime : num) (state : CircuitStore num) :
  ErrorsDistinct (errors (simulation state)) ->
  ErrorsDistinct
    (errors (simulation
       (stepSimulation simulate checkErrors uuidv4 Date_now errorMessage deltaTime state))).
Proof.
  intros D. unfold stepSimulation.
  destruct (running (simulation state)); [|exact D].
  destruct (CircuitSolver.solve (components state) (wires state)) as [result|e]; cbn.
  - match goal with
    | |- context [fold_left ?f ?l (?v, ?errs0, ?h0)] =>
        destruct (checkComponent_fold_errors
                    (mul deltaTime (speed (simulation state)))
                    (CircuitSolver.nodeVoltages result) l v errs0 h0)
          as (added & Ha & _ & Hd);
        destruct (fold_left f l (v, errs0, h0)) as [[comps errs] h]
    end.
    cbn in Ha. subst errs. specialize (Hd D).
    destruct h; cbn; [exact Hd|].
    destruct (List.length (errors (simulation state) ++ added)); cbn; [exact Hd|].
    destruct Hd as [D1 D2]. split; now apply filter_keeps_distinct_keys.
  - destruct (errors (simulation state)) as [|e0 l] eqn:El; cbn.
    + split; constructor; auto; constructor.
    + rewrite El. exact D.
Qed.

(** A circuit that holds a component with fewer than two terminals (a
    ground reference has one) cannot be simulated: the solve throws, no
    component is updated, and a tick from an empty error list stops the
    run with one synthetic halting error. *)
Theorem stepSimulation_stops_on_a_short_component
    (deltaTime : num) (state : CircuitStore num) (c : Component.t num) :
  running (simulation state) = true ->
  In c (components state) ->
  List.length (BaseComponent.terminals c) < 2 ->
  let state' :=
    stepSimulation simulate checkErrors uuidv4 Date_now errorMessage deltaTime state in
  components state' = components state
  /\ wires state' = wires state
  /\ (errors (simulation state) = [] ->
      running (simulation state') = false
      /\ exists err, errors (simulation state') = [err]
                     /\ stopSimulation err = true /\ componentIds err = []).
Proof.
  intros Hrun Hc Hlen. cbv zeta.
  destruct (CircuitSolver.solve (components state) (wires state)) as [res|e] eqn:Es.
  - exfalso. pose proof (proj1 (solve_Ok_iff _ _) (ex_intro _ res Es) c Hc). lia.
  - unfold stepSimulation. rewrite Hrun, Es. cbn.
    split; [reflexivity|]. split; [reflexivity|].
    intros ->. cbn. split; [reflexivity|]. eexists. repeat split.
Qed.

End TickFacts.

(* ================================================================== *)
(** * More facts about the component state models                      *)
(* ================================================================== *)

Section ExactFacts.
Local Open Scope R_scope.

Lemma Exact_gt_true (a b : R) : Exact.gt a b = true <-> a > b.
Proof. unfold Exact.gt. destruct (Rgt_dec a b); split; auto; discriminate. Qed.

Lemma Exact_gt_false (a b : R) : Exact.gt a b = false <-> a <= b.
Proof.
  unfold Exact.gt. destruct (Rgt_dec a b); split; auto; try discriminate; lra.
Qed.

Lemma Exact_lt_true (a b : R) : Exact.lt a b = true <-> a < b.
Proof. unfold Exact.lt. destruct (Rlt_dec a b); split; auto; discriminate. Qed.

Lemma Exact_lt_false (a b : R) : Exact.lt a b = false <-> b <= a.
Proof.
  unfold Exact.lt. destruct (Rlt_dec a b); split; auto; try discriminate; lra.
Qed.

(** [x || d] on real numbers. *)
Lemma num_or_nonzero (x d : R) : x <> 0 -> num_or (Some x) d = x.
Proof. intros Hx. unfold num_or. cbn. now rewrite truthy_nonzero. Qed.

Lemma num_or_zero (d : R) : num_or (Some 0) d = d.
Proof. unfold num_or. cbn. now rewrite truthy_zero. Qed.

(** [x || 0] is [x]. *)
Lemma num_or_default_zero (x : R) : num_or (Some x) (of_Q 0) = x.
Proof.
  unfold num_or. cbn. unfold Exact.truthy.
  destruct (Req_dec_T x 0); [|reflexivity]. rewrite Q2R_zero. auto.
Qed.

End ExactFacts.

Section CheckErrorsFacts.
Context {num : Type} `{JsNumber num}.
Import BaseComponent.
Local Open Scope js_scope.

(** When the checks of a component halt the run. *)
Lemma Inductor_checkErrors_halting Number_toFixed Number_toString Date_now
    (this : Inductor.t num) :
  anyHalting (Inductor.checkErrors Number_toFixed Number_toString Date_now this)
  = (Math_abs (num_or (Some (Inductor.current (properties this))) (of_Q 0))
     > num_or (Some (Inductor.maxCurrent (properties this))) (of_Q 10)).
Proof.
  unfold Inductor.checkErrors, anyHalting. cbv zeta.
  destruct (Math_abs _ > num_or _ _); destruct (num_or _ _ > of_Q 10); reflexivity.
Qed.

Lemma LED_checkErrors_halting Number_toFixed Date_now (this : LED.t num) :
  anyHalting (LED.checkErrors Number_toFixed Date_now this)
  = (LED.current (properties this) > LED.maxCurrent (properties this)).
Proof.
  unfold LED.checkErrors, anyHalting. cbv zeta.
  destruct (LED.current _ > LED.maxCurrent _); destruct (LED.voltage _ < _); reflexivity.
Qed.

Lemma Resistor_checkErrors_halting `{JsNumberLe num} Number_toFixed Date_now
    (this : Resistor.t num) :
  let p := properties this in
  anyHalting (Resistor.checkErrors Number_toFixed Date_now this)
  = ((num_or (Some (Resistor.power p)) (of_Q 0) > of_Q 10)
     || (Math_abs (num_or (Some (Resistor.current p)) (of_Q 0)) > of_Q 10)
     || (num_or (Some (Resistor.temperature p)) (of_Q 0) > of_Q 150))%bool.
Proof.
  unfold Resistor.checkErrors, anyHalting. cbv zeta.
  destruct (num_or (Some (Resistor.power _)) _ > of_Q 10);
    destruct (_ && _)%bool;
    destruct (Math_abs _ > of_Q 10);
    destruct (num_or (Some (Resistor.temperature _)) _ > of_Q 150); reflexivity.
Qed.

Lemma Battery_checkErrors_halting Number_toFixed Date_now (this : Battery.t num) :
  let p := properties this in
  anyHalting (Battery.checkErrors Number_toFixed Date_now this)
  = ((num_or (Some (Battery.chargePercent p)) (of_Q 0) < of_Q 5)
     || (Math_abs (num_or (Some (Battery.current p)) (of_Q 0))
         > num_or (Some (Battery.maxCurrent p)) (of_Q 5)))%bool.
Proof.
  unfold Battery.checkErrors, anyHalting. cbv zeta.
  destruct (num_or _ _ < of_Q 5); destruct (Math_abs _ > num_or _ _); reflexivity.
Qed.

End CheckErrorsFacts.

Section InductorFacts.
Local Open Scope R_scope.
Import BaseComponent.
Variable Number_toFixed : R -> nat -> string.
Variable Number_toString : R -> string.
Variable Date_now : nat -> R.

(** The current of an inductor is clamped to its rating in every tick, so
    the saturation check, the only halting check of
    [Inductor.checkErrors], never fires on the state that the inductor's
    own tick leaves. *)
Theorem Inductor_tick_never_saturates
    (deltaTime : R) (nv : JsMap.t R) (this : Inductor.t R) t0 t1 rest :
  terminals this = t0 :: t1 :: rest ->
  0 <= Inductor.maxCurrent (properties this) ->
  let this' := Inductor.simulate deltaTime nv this in
  Rabs (Inductor.current (properties this')) <= Inductor.maxCurrent (properties this)
  /\ Inductor.maxCurrent (properties this') = Inductor.maxCurrent (properties this)
  /\ anyHalting (Inductor.checkErrors Number_toFixed Number_toString Date_now this') = false.
Proof.
  intros Ht Hm this'.
  set (m := Inductor.maxCurrent (properties this)) in *.
  assert (Hcur : exists i, Inductor.current (properties this') = Rmax (- m) (Rmin m i)
                           /\ Inductor.maxCurrent (properties this') = m).
  { subst this'. unfold Inductor.simulate. rewrite Ht.
    cbn -[num_or Inductor.inductanceOrDefault of_Q]. eauto. }
  destruct Hcur as (i & Hi & Hm').
  assert (Hclamp : Rabs (Inductor.current (properties this')) <= m).
  { rewrite Hi. apply Rabs_le. split.
    - apply Rmax_l.
    - apply Rmax_lub; [lra|apply Rmin_l]. }
  split; [exact Hclamp|]. split; [exact Hm'|].
  rewrite Inductor_checkErrors_halting, Hm', num_or_default_zero.
  apply Exact_gt_false. destruct (Req_dec_T m 0) as [E|E].
  - rewrite E in *. rewrite num_or_zero. cbn. unfold Q2R. cbn. lra.
  - rewrite num_or_nonzero by exact E. exact Hclamp.
Qed.

End InductorFacts.

Section LEDFacts.
Local Open Scope R_scope.
Import BaseComponent.
Variable Number_toFixed : R -> nat -> string.
Variable Date_now : nat -> R.

(** An LED with a positive current limit never exceeds it: after every
    tick the current is between 0 and [maxCurrent], the brightness between
    0 and 1, and the over-current check, the only halting check of
    [LED.checkErrors], does not fire. *)
Theorem LED_tick_stays_within_its_current_limit
    (deltaTime : R) (nv : JsMap.t R) (this : LED.t R) t0 t1 rest :
  terminals this = t0 :: t1 :: rest ->
  0 < LED.maxCurrent (properties this) ->
  let this' := LED.simulate deltaTime nv this in
  0 <= LED.current (properties this') <= LED.maxCurrent (properties this)
  /\ 0 <= LED.brightness (properties this') <= 1
  /\ anyHalting (LED.checkErrors Number_toFixed Date_now this') = false.
Proof.
  intros Ht Hm this'.
  set (m := LED.maxCurrent (properties this)) in *.
  assert (Hm' : LED.maxCurrent (properties this') = m).
  { subst this'. unfold LED.simulate. rewrite Ht. cbn -[num_or of_Q].
    destruct (Exact.gt _ _); reflexivity. }
  assert (Hq1 : Q2R 0.01 = 1 / 100) by (unfold Q2R; cbn; lra).
  assert (Hq2 : Q2R 1 = 1) by (unfold Q2R; cbn; lra).
  assert (Hcb : 0 <= LED.current (properties this') <= m
                /\ 0 <= LED.brightness (properties this') <= 1).
  { subst this'. unfold LED.simulate. rewrite Ht. cbn -[num_or of_Q]. fold m.
    rewrite (num_or_nonzero m) by lra.
    destruct (Exact.gt _ _) eqn:E; cbn -[num_or of_Q].
    - apply Exact_gt_true in E.
      match goal with |- context [Rmin (?e * of_Q 0.01) m] => set (x := e) in * end.
      assert (Hx : 0 < x) by (subst x; lra).
      cbn [of_Q R_JsNumber]. rewrite Hq1, Hq2.
      assert (H0 : 0 <= Rmin (x * (1 / 100)) m <= m).
      { split; [apply Rmin_glb; nra|apply Rmin_r]. }
      split; [exact H0|]. split.
      + apply Rmin_glb; [|lra]. apply Rmult_le_pos; [lra|].
        left. now apply Rinv_0_lt_compat.
      + apply Rmin_r.
    - cbn [of_Q R_JsNumber]. rewrite Q2R_zero. lra. }
  destruct Hcb as [Hc Hb]. split; [exact Hc|]. split; [exact Hb|].
  rewrite LED_checkErrors_halting, Hm'. apply Exact_gt_false. lra.
Qed.

End LEDFacts.

Section ResistorFacts.
Local Open Scope R_scope.
Import BaseComponent.
Variable Number_toFixed : R -> nat -> string.
Variable Date_now : nat -> R.

(** When a resistor halts the run.  A tick sets the temperature to
    25 + 50 × power, so the checks of [Resistor.checkErrors] on the state
    that the tick leaves halt the run exactly when the power is above
    2.5 W (150 °C) or the current above 10 A. *)
Theorem Resistor_tick_halts_iff_hot_or_overcurrent
    (deltaTime : R) (nv : JsMap.t R) (this : Resistor.t R) t0 t1 rest :
  terminals this = t0 :: t1 :: rest ->
  let this' := Resistor.simulate deltaTime nv this in
  let p' := properties this' in
  Resistor.temperature p' = 25 + Resistor.power p' * 50
  /\ (anyHalting (Resistor.checkErrors Number_toFixed Date_now this') = true
      <-> (Resistor.power p' > 5 / 2 \/ Rabs (Resistor.current p') > 10)).
Proof.
  intros Ht this' p'.
  assert (Q25 : Q2R 25 = 25) by (unfold Q2R; cbn; lra).
  assert (Q50 : Q2R 50 = 50) by (unfold Q2R; cbn; lra).
  assert (Q10 : Q2R 10 = 10) by (unfold Q2R; cbn; lra).
  assert (Q150 : Q2R 150 = 150) by (unfold Q2R; cbn; lra).
  assert (Htemp : Resistor.temperature p' = 25 + Resistor.power p' * 50).
  { subst p' this'. unfold Resistor.simulate. rewrite Ht. cbn -[num_or of_Q].
    cbn [of_Q R_JsNumber]. now rewrite Q25, Q50. }
  split; [exact Htemp|].
  pose proof (Resistor_checkErrors_halting Number_toFixed Date_now this') as Hh.
  cbv zeta in Hh. fold p' in Hh. rewrite Hh, !num_or_default_zero.
  cbn [of_Q R_JsNumber gt Math_abs]. rewrite Q10, Q150, Htemp.
  rewrite !orb_true_iff, !Exact_gt_true. intuition lra.
Qed.

End ResistorFacts.

Section BatteryFacts2.
Local Open Scope R_scope.
Import BaseComponent.


Lemma Battery_tick_bounds
    (deltaTime : R) (nv : JsMap.t R) (this : Battery.t R) t0 t1 rest :
  terminals this = t0 :: t1 :: rest ->
  0 <= deltaTime ->
  Battery_charge_in_range (properties this) ->
  let p := properties this in
  let p' := properties (Battery.simulate deltaTime nv this) in
  Battery_charge_in_range p'
  /\ Battery.capacity p' = Battery.capacity p
  /\ Battery.chargeRemaining p' <= Battery.chargeRemaining p
  /\ 7 / 10 * Battery.voltage p <= Battery.voltage p' <= Battery.voltage p
  /\ exists t0' t1', terminals (Battery.simulate deltaTime nv this) = t0' :: t1' :: rest.
Proof.
  intros Ht Hdt (Hcap & Hch & Hv). cbv zeta.
  unfold Battery.simulate. rewrite Ht. cbn -[of_Q].
  set (i := (Battery.voltage (properties this)
             - (voltageAt nv (Terminal.id t0) - voltageAt nv (Terminal.id t1)))
            / Battery.internalResistance (properties this)).
  unfold Battery_charge_in_range.
  assert (Q0 : Q2R 0 = 0) by apply Q2R_zero.
  assert (Q07 : Q2R 0.7 = 7 / 10) by (unfold Q2R; cbn; lra).
  assert (Q100 : Q2R 100 = 100) by (unfold Q2R; cbn; lra).
  assert (Q1000 : Q2R 1000 = 1000) by (unfold Q2R; cbn; lra).
  assert (Q3600 : Q2R 3600 = 3600) by (unfold Q2R; cbn; lra).
  cbn [of_Q R_JsNumber]. rewrite Q0.
  destruct (Exact.gt i 0) eqn:E; cbn -[of_Q]; cbn [of_Q R_JsNumber];
    [|repeat split; eauto; lra].
  apply Exact_gt_true in E. rewrite ?Q0, ?Q07, ?Q100, ?Q1000, ?Q3600.
  set (c := Battery.chargeRemaining (properties this)) in *.
  set (cap := Battery.capacity (properties this)) in *.
  set (v := Battery.voltage (properties this)) in *.
  set (used := i * deltaTime * 1000 / 3600).
  assert (Hused : 0 <= used) by (subst used; nra).
  set (c' := Rmax 0 (c - used)).
  assert (Hc' : 0 <= c' <= c).
  { subst c'. split; [apply Rmax_l|apply Rmax_lub; lra]. }
  set (f := Rmax (7 / 10) (c' / cap * 100 / 100)).
  assert (Hf : 7 / 10 <= f <= 1).
  { subst f. split; [apply Rmax_l|]. apply Rmax_lub; [lra|].
    replace (c' / cap * 100 / 100) with (c' / cap) by (field; lra).
    unfold Rdiv. apply Rmult_le_reg_r with cap; [lra|].
    rewrite Rmult_assoc, Rinv_l by lra. lra. }
  repeat split; eauto; try lra; try nra.
Qed.

(** A battery never gains charge or voltage by ticking.  Along every run
    of ticks with non-negative time steps, from a state with the charge
    between 0 and the capacity, the remaining charge stays in that range
    and does not grow, and the nominal voltage does not grow either; only
    [recharge] restores the charge, and it leaves the voltage as it is. *)
Theorem Battery_run_never_gains_charge (ticks : list (R * JsMap.t R)) :
  forall (this : Battery.t R) t0 t1 rest,
  terminals this = t0 :: t1 :: rest ->
  (forall tick, In tick ticks -> 0 <= fst tick) ->
  Battery_charge_in_range (properties this) ->
  let p := properties this in
  let q := properties (runTicks Battery.simulate ticks this) in
  0 <= Battery.chargeRemaining q <= Battery.chargeRemaining p
  /\ 0 <= Battery.voltage q <= Battery.voltage p
  /\ Battery.chargeRemaining (properties (Battery.recharge (runTicks Battery.simulate ticks this)))
     = Battery.capacity p
  /\ Battery.voltage (properties (Battery.recharge (runTicks Battery.simulate ticks this)))
     = Battery.voltage q.
Proof.
  induction ticks as [|[dt nv] ticks IH]; intros this t0 t1 rest Ht Hdt Hr; cbv zeta.
  - cbn. destruct Hr as (Hcap & Hch & Hv). repeat split; lra.
  - cbn [runTicks fold_left fst snd].
    destruct (Battery_tick_bounds dt nv this t0 t1 rest Ht) as (Hr1 & Hcap1 & Hc1 & Hv1 & Ht1);
      [apply (Hdt (dt, nv)); now left|exact Hr|].
    destruct Ht1 as (t0' & t1' & Ht1).
    destruct (IH (Battery.simulate dt nv this) t0' t1' rest Ht1) as (Hc & Hv & Hrc & Hrv);
      [intros tick Hin; apply Hdt; now right|exact Hr1|].
    unfold runTicks in *. cbv zeta in Hc, Hv, Hrc, Hrv.
    destruct Hr as (Hcap & Hch & Hv0).
    repeat split; lra.
Qed.

End BatteryFacts2.

Section FuseFacts2.
Context {num : Type} `{JsNumber num}.
Local Open Scope js_scope.
Import BaseComponent.


Lemma Fuse_tick_within_rating
    (dt : num) (nv : JsMap.t num) (this : Fuse.t num) t0 t1 rest :
  terminals this = t0 :: t1 :: rest ->
  Fuse.blown (properties this) = false ->
  (Fuse_currentRatio (Fuse.rating (properties this)) (Terminal.id t0) (Terminal.id t1) nv
   > of_Q 1) = false ->
  let this' := Fuse.simulate dt nv this in
  Fuse.blown (properties this') = false
  /\ Fuse.rating (properties this') = Fuse.rating (properties this)
  /\ Fuse.heatAccumulated (properties this')
     = Math_max (of_Q 0) (Fuse.heatAccumulated (properties this) - dt * of_Q 0.5)
  /\ id this' = id this /\ type this' = type this
  /\ exists t0' t1',
       terminals this' = t0' :: t1' :: rest
       /\ Terminal.id t0' = Terminal.id t0 /\ Terminal.id t1' = Terminal.id t1.
Proof.
  intros Ht Hb Hr. cbv zeta. unfold Fuse.simulate. rewrite Ht. cbn.
  rewrite Hb. cbn. unfold Fuse_currentRatio in Hr. rewrite Hr. cbn. rewrite Hb.
  repeat split. eexists _, _. split; [reflexivity|]. split; reflexivity.
Qed.

(** A fuse that is never loaded above its rating never blows: along every
    run of ticks in which the current ratio does not exceed 1, the fuse
    stays intact, reports no error, and the solver keeps stamping it with
    the resistance 0.01. *)
Theorem Fuse_within_rating_never_blows
    (Number_toString : num -> string) (Date_now : num)
    (ticks : list (num * JsMap.t num)) :
  forall (this : Fuse.t num) t0 t1 rest,
  terminals this = t0 :: t1 :: rest ->
  type this = ComponentType.FUSE ->
  Fuse.blown (properties this) = false ->
  (forall tick, In tick ticks ->
     (Fuse_currentRatio (Fuse.rating (properties this))
        (Terminal.id t0) (Terminal.id t1) (snd tick) > of_Q 1) = false) ->
  let this' := runTicks Fuse.simulate ticks this in
  Fuse.blown (properties this') = false
  /\ Fuse.checkErrors Number_toString Date_now this' = []
  /\ CircuitSolver.resistanceOf (Component.of_instance Component.PFuse this')
     = Some (of_Q 0.01).
Proof.
  induction ticks as [|[dt nv] ticks IH]; intros this t0 t1 rest Ht Hty Hb Hr; cbv zeta.
  - cbn. unfold Fuse.checkErrors, CircuitSolver.resistanceOf. cbn. rewrite Hty, Hb. auto.
  - cbn [runTicks fold_left fst snd].
    destruct (Fuse_tick_within_rating dt nv this t0 t1 rest Ht Hb)
      as (Hb1 & Hr1 & _ & _ & Hty1 & t0' & t1' & Ht1 & E0 & E1).
    { apply (Hr (dt, nv)). now left. }
    apply (IH (Fuse.simulate dt nv this) t0' t1' rest Ht1); [congruence|exact Hb1|].
    intros tick Hin. rewrite Hr1, E0, E1. apply Hr. now right.
Qed.

End FuseFacts2.

Section SwitchFacts.
Context {num : Type} `{JsNumber num}.
Local Open Scope js_scope.
Import BaseComponent.

(** The solver and the switch agree on the resistance: a tick sets it to
    0.01 when the switch is closed and to 1e9 when it is open, which is
    the value that the solver stamps; [toggle] moves the stamp from one
    value to the other, and two toggles give the switch back. *)
Theorem Switch_resistance_follows_the_state
    (dt : num) (nv : JsMap.t num) (this : Switch.t num) t0 t1 rest :
  terminals this = t0 :: t1 :: rest ->
  type this = ComponentType.SWITCH ->
  let this' := Switch.simulate dt nv this in
  let stamp (s : Switch.t num) :=
    CircuitSolver.resistanceOf (Component.of_instance Component.PSwitch s) in
  Switch.resistance (properties this')
  = (if Switch.closed (properties this) then of_Q 0.01 else of_Q 1000000000)
  /\ stamp this' = Some (Switch.resistance (properties this'))
  /\ stamp (Switch.toggle this)
     = Some (if Switch.closed (properties this) then of_Q 1000000000 else of_Q 0.01)
  /\ Switch.toggle (Switch.toggle this) = this.
Proof.
  intros Ht Hty. cbv zeta. unfold Switch.simulate. rewrite Ht.
  unfold CircuitSolver.resistanceOf, Switch.toggle. cbn. rewrite Hty.
  destruct this as [i ty ts [c v cu r m pw]]. cbn in *.
  destruct c; cbn; auto.
Qed.

End SwitchFacts.

Section RealComponentFacts.
Local Open Scope R_scope.
Local Open Scope string_scope.
Import BaseComponent.

(** A lamp at its rated voltage runs at its rated power: the tick of a new
    lamp with the ratings V and P, with V volts across it, gives the
    power P, the current P / V and the brightness 1, and the lamp does
    not burn out. *)
Theorem Lamp_at_rated_voltage
    (deltaTime : R) (nv : JsMap.t R) (id : string) (V P : R) :
  V <> 0 -> 0 < P ->
  voltageAt nv (id ++ "-t1") - voltageAt nv (id ++ "-t2") = V ->
  let p' := properties (Lamp.simulate deltaTime nv (Lamp.new id V P)) in
  Lamp.power p' = P
  /\ Lamp.current p' = P / V
  /\ Lamp.brightness p' = 1
  /\ Lamp.broken p' = false.
Proof.
  intros HV HP Hnv. cbv zeta.
  assert (Q001 : Q2R 0.01 = 1 / 100) by (unfold Q2R; cbn; lra).
  assert (Q15 : Q2R 1.5 = 3 / 2) by (unfold Q2R; cbn; lra).
  unfold Lamp.simulate, Lamp.new. cbn [terminals createTerminal Terminal.id].
  change (id ++ "-" ++ "t1") with (id ++ "-t1").
  change (id ++ "-" ++ "t2") with (id ++ "-t2").
  cbn -[of_Q voltageAt Lamp.syncRatings]. rewrite Hnv.
  unfold Lamp.syncRatings. cbn -[of_Q].
  assert (Hsync : Exact.gt (Rabs (V * V / P - V * V / P)) (of_Q 0.01) = false).
  { apply Exact_gt_false. cbn [of_Q R_JsNumber]. rewrite Q001.
    replace (V * V / P - V * V / P) with 0 by lra. rewrite Rabs_R0. lra. }
  rewrite Hsync. cbn -[of_Q].
  assert (Hcur : V / (V * V / P) = P / V) by (field; lra).
  assert (Hpow : Rabs (V * (V / (V * V / P))) = P).
  { rewrite Hcur. replace (V * (P / V)) with P by (field; lra).
    apply Rabs_pos_eq. lra. }
  rewrite Hpow. cbn [of_Q R_JsNumber]. rewrite Q15.
  assert (Hno : Exact.gt P (P * (3 / 2)) = false) by (apply Exact_gt_false; lra).
  rewrite Hno. cbn.
  split; [reflexivity|]. split; [exact Hcur|]. split; [|reflexivity].
  replace (P / P) with 1 by (field; lra).
  rewrite sqrt_1. apply Rmin_left. lra.
Qed.

(** At a steady voltage a capacitor draws no current: when the voltage
    across it is the one of the previous tick, the tick gives the current
    0 and the power 0, whatever the time step, and the charge C × V. *)
Theorem Capacitor_steady_voltage_draws_no_current
    (deltaTime : R) (nv : JsMap.t R) (this : Capacitor.t R) t0 t1 rest :
  terminals this = t0 :: t1 :: rest ->
  voltageAt nv (Terminal.id t0) - voltageAt nv (Terminal.id t1)
  = Capacitor.voltage (properties this) ->
  let p := properties this in
  let p' := properties (Capacitor.simulate deltaTime nv this) in
  Capacitor.current p' = 0
  /\ Capacitor.power p' = 0
  /\ Capacitor.voltage p' = Capacitor.voltage p
  /\ Capacitor.charge p' = Capacitor.capacitanceOrDefault p * Capacitor.voltage p.
Proof.
  intros Ht Hv. cbv zeta. unfold Capacitor.simulate. rewrite Ht.
  cbn -[num_or of_Q Capacitor.capacitanceOrDefault]. rewrite Hv, num_or_default_zero.
  unfold Capacitor.capacitanceOrDefault. cbn -[num_or of_Q].
  set (C := num_or (Some (Capacitor.capacitance (properties this))) (of_Q 0.0001)).
  set (v := Capacitor.voltage (properties this)).
  assert (Hz : C * ((v - v) / Rmax deltaTime (of_Q 0.001)) = 0).
  { unfold Rdiv. replace (v - v) with 0 by lra. lra. }
  rewrite Hz. repeat split; lra.
Qed.

(** The wiper of a potentiometer is clamped: after [setPosition], whatever
    the argument, the position is between 0 and 100, and the next tick
    gives a resistance between 0 and [maxResistance] and divides the
    voltage by at least 0.01. *)
Theorem Potentiometer_wiper_is_clamped
    (percent deltaTime : R) (nv : JsMap.t R) (this : Potentiometer.t R) t0 t1 rest :
  terminals this = t0 :: t1 :: rest ->
  0 <= Potentiometer.maxResistance (properties this) ->
  let this' := Potentiometer.simulate deltaTime nv (Potentiometer.setPosition percent this) in
  let p' := properties this' in
  Potentiometer.position p' = Rmax 0 (Rmin 100 percent)
  /\ 0 <= Potentiometer.position p' <= 100
  /\ Potentiometer.value p'
     = Potentiometer.maxResistance (properties this) * Potentiometer.position p' / 100
  /\ 0 <= Potentiometer.value p' <= Potentiometer.maxResistance (properties this)
  /\ Potentiometer.current p'
     = Potentiometer.voltage p' / Rmax (Potentiometer.value p') (1 / 100).
Proof.
  intros Ht Hm. cbv zeta.
  assert (Q0 : Q2R 0 = 0) by apply Q2R_zero.
  assert (Q100 : Q2R 100 = 100) by (unfold Q2R; cbn; lra).
  assert (Q001 : Q2R 0.01 = 1 / 100) by (unfold Q2R; cbn; lra).
  unfold Potentiometer.simulate, Potentiometer.setPosition. cbn [set_properties terminals].
  rewrite Ht. cbn -[num_or of_Q]. cbn [of_Q R_JsNumber]. rewrite Q0, Q100, Q001.
  set (m := Potentiometer.maxResistance (properties this)) in *.
  set (pos := Rmax 0 (Rmin 100 percent)).
  assert (Hpos : 0 <= pos <= 100).
  { subst pos. split; [apply Rmax_l|]. apply Rmax_lub; [lra|apply Rmin_l]. }
  split; [reflexivity|]. split; [exact Hpos|]. split; [reflexivity|].
  split; [|reflexivity]. split; [|]; nra.
Qed.

(** The three regimes of the diode: after a tick of a diode with a
    positive current limit and a non-negative breakdown voltage, the diode
    is marked conducting exactly when its current is not 0, and the
    current never exceeds the limit. *)
Theorem Diode_conducts_iff_current_flows
    (deltaTime : R) (nv : JsMap.t R) (this : Diode.t R) t0 t1 rest :
  terminals this = t0 :: t1 :: rest ->
  0 < Diode.maxCurrent (properties this) ->
  0 <= Diode.reverseBreakdown (properties this) ->
  let p' := properties (Diode.simulate deltaTime nv this) in
  (Diode.conducting p' = true <-> Diode.current p' <> 0)
  /\ Diode.current p' <= Diode.maxCurrent (properties this)
  /\ Diode.power p' = Rabs (Diode.voltage p' * Diode.current p').
Proof.
  intros Ht Hm Hrb. cbv zeta.
  assert (Q0 : Q2R 0 = 0) by apply Q2R_zero.
  assert (Q10 : Q2R 10 = 10) by (unfold Q2R; cbn; lra).
  assert (Q01 : Q2R 0.1 = 1 / 10) by (unfold Q2R; cbn; lra).
  assert (Q50 : Q2R 50 = 50) by (unfold Q2R; cbn; lra).
  unfold Diode.simulate. rewrite Ht. cbn -[num_or of_Q].
  set (v := voltageAt nv (Terminal.id t0) - voltageAt nv (Terminal.id t1)).
  set (m := Diode.maxCurrent (properties this)) in *.
  set (rb := Diode.reverseBreakdown (properties this)) in *.
  rewrite (num_or_nonzero m) by lra.
  assert (Hrb' : 0 < num_or (Some rb) (of_Q 50)).
  { destruct (Req_dec_T rb 0) as [E|E].
    - rewrite E, num_or_zero. cbn [of_Q R_JsNumber]. lra.
    - rewrite num_or_nonzero by exact E. lra. }
  set (rb' := num_or (Some rb) (of_Q 50)) in *.
  destruct (Exact.gt v _) eqn:E1; cbn -[num_or of_Q].
  - apply Exact_gt_true in E1.
    match goal with |- context [Rmin (?e * of_Q 10) m] => set (x := e) in * end.
    cbn [of_Q R_JsNumber]. rewrite Q10.
    assert (Hx : 0 < Rmin (x * 10) m <= m).
    { split; [apply Rmin_glb_lt; subst x; lra|apply Rmin_r]. }
    split; [split; [intros _|reflexivity]|split; [|reflexivity]]; lra.
  - destruct (Exact.lt v (- rb')) eqn:E2; cbn -[num_or of_Q].
    + apply Exact_lt_true in E2. cbn [of_Q R_JsNumber]. rewrite Q01.
      assert (Habs : Rabs v = - v) by (apply Rabs_left; lra).
      rewrite Habs.
      split; [split; [intros _|reflexivity]|split; [|reflexivity]]; lra.
    + cbn [of_Q R_JsNumber]. rewrite Q0.
      split; [split; [discriminate|intros Hc; now elim Hc]|split; [lra|reflexivity]].
Qed.

End RealComponentFacts.

Section WaveformFacts.
Local Open Scope R_scope.
Variable Math_sin : R -> R.
Variable Math_PI : R.

Lemma mod1_range (x : R) : 0 <= x -> 0 <= Exact.mod1 x < 1.
Proof.
  intros Hx. unfold Exact.mod1. destruct (Rlt_dec x 0); [lra|].
  destruct (base_fp x). lra.
Qed.

(** The square, pulse and triangle waves stay within the amplitude around
    the offset: for these waveforms the generator's output differs from
    the offset by at most |voltage|; for the triangle this needs the
    phase argument to be non-negative, as [%] keeps the sign of its left
    operand. *)
Theorem waveformOutput_stays_within_the_amplitude
    (time voltage : R) (w : WaveformConfig R) :
  wf_type w = WaveformType.SQUARE \/ wf_type w = WaveformType.PULSE
  \/ (wf_type w = WaveformType.TRIANGLE
      /\ 0 <= frequency w * time + phase w / (2 * Math_PI)) ->
  Rabs (VoltageSource.waveformOutput Math_sin Math_PI time voltage w - offset w)
  <= Rabs voltage.
Proof.
  intros Hw. unfold VoltageSource.waveformOutput.
  assert (Q0 : Q2R 0 = 0) by apply Q2R_zero.
  assert (Q2 : Q2R 2 = 2) by (unfold Q2R; cbn; lra).
  assert (Q05 : Q2R 0.5 = 1 / 2) by (unfold Q2R; cbn; lra).
  assert (Q4 : Q2R 4 = 4) by (unfold Q2R; cbn; lra).
  assert (Q3 : Q2R 3 = 3) by (unfold Q2R; cbn; lra).
  assert (Q1 : Q2R 1 = 1) by apply Q2R_one.
  destruct Hw as [E|[E|[E Harg]]]; rewrite E; cbn -[Exact.mod1 Exact.lt];
    rewrite ?Q0, ?Q2, ?Q05, ?Q4, ?Q3, ?Q1.
  - destruct (Exact.lt _ _).
    + replace (voltage + offset w - offset w) with voltage by lra. lra.
    + replace (- voltage + offset w - offset w) with (- voltage) by lra.
      rewrite Rabs_Ropp. lra.
  - destruct (Exact.lt _ _).
    + replace (voltage + offset w - offset w) with voltage by lra. lra.
    + replace (0 + offset w - offset w) with 0 by lra. rewrite Rabs_R0. apply Rabs_pos.
  - pose proof (mod1_range _ Harg) as Hp.
    set (ph := Exact.mod1 _) in *.
    destruct (Exact.lt ph (1 / 2)) eqn:El.
    + apply Exact_lt_true in El.
      replace (voltage * (4 * ph - 1) + offset w - offset w)
        with (voltage * (4 * ph - 1)) by lra.
      rewrite Rabs_mult. rewrite <- (Rmult_1_r (Rabs voltage)) at 2.
      apply Rmult_le_compat_l; [apply Rabs_pos|]. apply Rabs_le. lra.
    + apply Exact_lt_false in El.
      replace (voltage * (3 - 4 * ph) + offset w - offset w)
        with (voltage * (3 - 4 * ph)) by lra.
      rewrite Rabs_mult. rewrite <- (Rmult_1_r (Rabs voltage)) at 2.
      apply Rmult_le_compat_l; [apply Rabs_pos|]. apply Rabs_le. lra.
Qed.

End WaveformFacts.

(* ================================================================== *)
(** * More facts about the factory                                     *)
(* ================================================================== *)

Section FactoryFacts2.
Context {num : Type} `{JsNumber num}.
Import BaseComponent.
Local Open Scope string_scope.

Lemma append_inj_r (a b c : string) : a ++ b = a ++ c -> b = c.
Proof.
  induction a as [|ch a IH]; cbn; [auto|]. intros [= E]. auto.
Qed.

(** The factory builds a component exactly for the types that
    [getAvailableComponents] lists. *)
Theorem createComponent_iff_available (cid : string) (ty : ComponentType.t) :
  (exists c : Component.t num, ComponentFactory.createComponent cid ty = Some c)
  <-> In ty ComponentFactory.getAvailableComponents.
Proof.
  split.
  - intros [c Hc]. destruct ty; cbn in Hc; try discriminate; cbn; tauto.
  - intros Hin. cbn in Hin.
    repeat (destruct Hin as [<-|Hin]; [cbn; eauto|]). destruct Hin.
Qed.

(** Every component that the factory builds carries the id it was asked
    for; each of its terminals is owned by it and has the id
    [<component id>-<terminal name>], and no two of its terminals share an
    id. *)
Theorem createComponent_terminals_are_wellformed
    (cid : string) (ty : ComponentType.t) (c : Component.t num) :
  ComponentFactory.createComponent cid ty = Some c ->
  id c = cid
  /\ (forall t, In t (terminals c) ->
        Terminal.componentId t = cid
        /\ Terminal.id t = cid ++ "-" ++ Terminal.name t)
  /\ NoDup (map (fun t => Terminal.id t) (terminals c)).
Proof.
  intros Hc.
  assert (Hnd2 : forall a b : string, a <> b -> NoDup [cid ++ "-" ++ a; cid ++ "-" ++ b]).
  { intros a b Hab. constructor; [|constructor; [intros []|constructor]].
    intros [E|[]]. apply append_inj_r in E. apply append_inj_r in E. congruence. }
  destruct ty; cbn in Hc; try discriminate; injection Hc as <-; cbn;
    (split; [reflexivity|]);
    (split; [intros t Ht; repeat (destruct Ht as [<-|Ht]; [cbn; auto|]); destruct Ht|]);
    try (apply Hnd2; discriminate).
  constructor; [intros []|constructor].
Qed.

(** No two component types have the same display name. *)
Theorem getComponentName_is_injective (a b : ComponentType.t) :
  ComponentFactory.getComponentName a = ComponentFactory.getComponentName b -> a = b.
Proof.
  destruct a; destruct b; intros E; try reflexivity; discriminate E.
Qed.

End FactoryFacts2.

(* ================================================================== *)
(** * Gaussian elimination solves the system                           *)
(* ================================================================== *)

Section ArrayFacts.
Context {A : Type}.

Lemma nth_upd_same (i : nat) (v d : A) (l : list A) :
  i < List.length l -> nth i (upd i v l) d = v.
Proof.
  revert i; induction l as [|a l IH]; intros [|i] Hi; cbn in *; try lia; auto.
  apply IH. lia.
Qed.

Lemma nth_upd_other (i j : nat) (v d : A) (l : list A) :
  i <> j -> nth j (upd i v l) d = nth j l d.
Proof.
  revert i j; induction l as [|a l IH]; intros [|i] [|j] Hij; cbn; auto; try lia.
Qed.

End ArrayFacts.

Section GaussCorrect.
Import CircuitSolver.
Local Open Scope R_scope.

Implicit Types (A U : Matrix (num := R)) (b x : Vector (num := R)).

(** An [n] × [n] matrix. *)
Definition Square (n : nat) A : Prop :=
  List.length A = n /\ forall i, (i < n)%nat -> List.length (nth i A []) = n.

(** Column [c] is zero below the diagonal, for every column before [k]. *)
Definition LowerZero (n k : nat) A : Prop :=
  forall r c, (c < k)%nat -> (c < r)%nat -> (r < n)%nat -> mget A r c = 0.


Lemma fold_add_acc (f : nat -> R) (l : list nat) (a : R) :
  fold_left (fun s j => s + f j) l a = a + fold_left (fun s j => s + f j) l 0.
Proof.
  revert a; induction l as [|j l IH]; intros a; cbn; [lra|].
  rewrite (IH (a + f j)), (IH (0 + f j)). lra.
Qed.

Lemma bigsum_S (f : nat -> R) (lo len : nat) :
  bigsum f lo (S len) = f lo + bigsum f (S lo) len.
Proof.
  unfold bigsum. cbn [seq fold_left]. rewrite fold_add_acc. lra.
Qed.

Lemma bigsum_0 (f : nat -> R) (lo : nat) : bigsum f lo 0 = 0.
Proof. reflexivity. Qed.

Lemma bigsum_ext (f g : nat -> R) : forall len lo,
  (forall j, (lo <= j < lo + len)%nat -> f j = g j) ->
  bigsum f lo len = bigsum g lo len.
Proof.
  induction len as [|len IH]; intros lo Hfg; [reflexivity|].
  rewrite !bigsum_S, (Hfg lo) by lia. f_equal. apply IH. intros j Hj. apply Hfg. lia.
Qed.

Lemma bigsum_zero (f : nat -> R) (len lo : nat) :
  (forall j, (lo <= j < lo + len)%nat -> f j = 0) -> bigsum f lo len = 0.
Proof.
  revert lo; induction len as [|len IH]; intros lo Hf; [reflexivity|].
  rewrite bigsum_S, (Hf lo) by lia. rewrite IH; [lra|]. intros j Hj. apply Hf. lia.
Qed.

Lemma bigsum_lin (f g : nat -> R) (k : R) : forall len lo,
  bigsum (fun j => f j + k * g j) lo len = bigsum f lo len + k * bigsum g lo len.
Proof.
  induction len as [|len IH]; intros lo; [unfold bigsum; cbn; lra|].
  rewrite !bigsum_S, IH. lra.
Qed.

Lemma bigsum_split (f : nat -> R) : forall len1 len2 lo,
  bigsum f lo (len1 + len2) = bigsum f lo len1 + bigsum f (lo + len1) len2.
Proof.
  induction len1 as [|len1 IH]; intros len2 lo.
  - cbn [Nat.add]. rewrite bigsum_0, Nat.add_0_r. lra.
  - cbn [Nat.add]. rewrite !bigsum_S, IH.
    replace (S lo + len1)%nat with (lo + S len1)%nat by lia. lra.
Qed.

(** ** Reads after writes *)

Lemma mset_Square n A i j v : Square n A -> Square n (mset A i j v).
Proof.
  intros [Hl Hr]. unfold mset. split; [now rewrite upd_length|].
  intros i' Hi'. destruct (Nat.eq_dec i i') as [<-|Hne].
  - rewrite nth_upd_same by lia. rewrite upd_length. now apply Hr.
  - rewrite nth_upd_other by exact Hne. now apply Hr.
Qed.

Lemma mget_mset n A i j v i' j' :
  Square n A -> (i < n)%nat -> (j < n)%nat ->
  mget (mset A i j v) i' j'
  = if (Nat.eqb i' i && Nat.eqb j' j)%bool then v else mget A i' j'.
Proof.
  intros [Hl Hr] Hi Hj. unfold mget, mset.
  destruct (Nat.eqb_spec i' i) as [->|Hne]; cbn [andb].
  - rewrite nth_upd_same by lia.
    destruct (Nat.eqb_spec j' j) as [->|Hnej].
    + apply nth_upd_same. rewrite Hr; lia.
    + apply nth_upd_other. congruence.
  - rewrite nth_upd_other by congruence. reflexivity.
Qed.

Lemma vget_upd b i v i' :
  (i < List.length b)%nat ->
  vget (upd i v b) i' = if Nat.eqb i' i then v else vget b i'.
Proof.
  intros Hi. unfold vget. destruct (Nat.eqb_spec i' i) as [->|Hne].
  - now apply nth_upd_same.
  - apply nth_upd_other. congruence.
Qed.


(** ** The loops, entry by entry *)

Ltac nat_cases :=
  repeat match goal with
         | |- context [Nat.eqb ?a ?b] => destruct (Nat.eqb_spec a b)
         | |- context [Nat.leb ?a ?b] => destruct (Nat.leb_spec a b)
         | |- context [Nat.ltb ?a ?b] => destruct (Nat.ltb_spec a b)
         end; cbn [andb]; try lia; try congruence; subst; auto.

(** The entries after the row swap of columns [lo .. lo+len-1]. *)
Lemma swap_cols_spec n i p : forall len lo A,
  Square n A -> (i < n)%nat -> (p < n)%nat -> (lo + len <= n)%nat ->
  let B :=
    fold_left
      (fun A k =>
         let tmp := mget A p k in
         let A := mset A p k (mget A i k) in
         mset A i k tmp)
      (seq lo len) A in
  Square n B
  /\ forall r c,
       mget B r c
       = if (Nat.leb lo c && Nat.ltb c (lo + len))%bool
         then (if Nat.eqb r i then mget A p c
               else if Nat.eqb r p then mget A i c else mget A r c)
         else mget A r c.
Proof.
  induction len as [|len IH]; intros lo A HA Hi Hp Hlen; cbn [seq fold_left].
  - split; [exact HA|]. intros r c. nat_cases.
  - set (A1 := mset (mset A p lo (mget A i lo)) i lo (mget A p lo)).
    assert (HA1 : Square n A1) by (subst A1; auto using mset_Square).
    assert (E1 : forall r c,
              mget A1 r c
              = if Nat.eqb c lo
                then (if Nat.eqb r i then mget A p c
                      else if Nat.eqb r p then mget A i c else mget A r c)
                else mget A r c).
    { intros r c. subst A1.
      rewrite (mget_mset n) by (auto using mset_Square; lia).
      rewrite (mget_mset n) by (auto; lia). nat_cases. }
    destruct (IH (S lo) A1 HA1 Hi Hp ltac:(lia)) as [HB EB]. cbv zeta in HB, EB.
    split; [exact HB|]. intros r c. rewrite EB, !E1. nat_cases.
Qed.

(** The entries after the row operation on row [k], columns
    [lo .. lo+len-1]: the entry of column [i] is set to 0 and the others
    get [cst] times the entry of row [i] added. *)
Lemma elim_row_spec n i k (cst : R) : forall len lo A,
  Square n A -> (i < n)%nat -> (k < n)%nat -> k <> i -> (lo + len <= n)%nat ->
  let B :=
    fold_left
      (fun A j =>
         if Nat.eqb i j then mset A k j (of_Q 0)
         else mset A k j (add (mget A k j) (mul cst (mget A i j))))
      (seq lo len) A in
  Square n B
  /\ forall r c,
       mget B r c
       = if (Nat.eqb r k && Nat.leb lo c && Nat.ltb c (lo + len))%bool
         then (if Nat.eqb c i then 0 else mget A r c + cst * mget A i c)
         else mget A r c.
Proof.
  induction len as [|len IH]; intros lo A HA Hi Hk Hki Hlen; cbn [seq fold_left].
  - split; [exact HA|]. intros r c. nat_cases.
  - set (A1 := if Nat.eqb i lo then mset A k lo (of_Q 0)
               else mset A k lo (add (mget A k lo) (mul cst (mget A i lo)))).
    assert (HA1 : Square n A1) by (subst A1; destruct (Nat.eqb i lo); auto using mset_Square).
    assert (E1 : forall r c,
              mget A1 r c
              = if (Nat.eqb r k && Nat.eqb c lo)%bool
                then (if Nat.eqb c i then 0 else mget A r c + cst * mget A i c)
                else mget A r c).
    { intros r c. subst A1. destruct (Nat.eqb_spec i lo) as [->|Hne];
        rewrite (mget_mset n) by (auto; lia); cbn [of_Q add mul R_JsNumber];
        rewrite ?Q2R_zero; nat_cases. }
    destruct (IH (S lo) A1 HA1 Hi Hk Hki ltac:(lia)) as [HB EB]. cbv zeta in HB, EB.
    split; [exact HB|]. intros r c. rewrite EB, !E1. nat_cases.
Qed.

(** The multiplier of row [r] in the elimination of column [i]. *)
Definition multiplier A (i r : nat) : R := - mget A r i / mget A i i.

(** The system after the elimination of column [i] in the rows
    [lo .. lo+len-1]. *)
Lemma eliminate_rows_spec n i : forall len lo A b,
  Square n A -> List.length b = n -> (i < lo)%nat -> (lo + len <= n)%nat ->
  let s :=
    fold_left
      (fun (s : Matrix * Vector) k =>
         let '(A, b) := s in
         let c := div (neg (mget A k i)) (mget A i i) in
         let A :=
           fold_left
             (fun A j =>
                if Nat.eqb i j then mset A k j (of_Q 0)
                else mset A k j (add (mget A k j) (mul c (mget A i j))))
             (range i n) A in
         (A, upd k (add (vget b k) (mul c (vget b i))) b))
      (seq lo len) (A, b) in
  Square n (fst s) /\ List.length (snd s) = n
  /\ (forall r c,
        mget (fst s) r c
        = if (Nat.leb lo r && Nat.ltb r (lo + len) && Nat.leb i c && Nat.ltb c n)%bool
          then (if Nat.eqb c i then 0
                else mget A r c + multiplier A i r * mget A i c)
          else mget A r c)
  /\ (forall r,
        vget (snd s) r
        = if (Nat.leb lo r && Nat.ltb r (lo + len))%bool
          then vget b r + multiplier A i r * vget b i
          else vget b r).
Proof.
  induction len as [|len IH]; intros lo A b HA Hb Hi Hlen; cbn [seq fold_left].
  - cbn [fst snd]. split; [exact HA|]. split; [exact Hb|].
    split; [intros r c|intros r]; nat_cases.
  - set (cst := div (neg (mget A lo i)) (mget A i i)).
    destruct (elim_row_spec n i lo cst (n - i) i A HA ltac:(lia) ltac:(lia) ltac:(lia)
                ltac:(lia)) as [HA1 E1].
    cbv zeta in HA1, E1. unfold range.
    set (A1 := fold_left _ (seq i (n - i)) A) in *.
    set (b1 := upd lo (add (vget b lo) (mul cst (vget b i))) b).
    assert (Hb1 : List.length b1 = n) by (subst b1; now rewrite upd_length).
    assert (Eb1 : forall r, vget b1 r
                            = if Nat.eqb r lo then vget b lo + cst * vget b i else vget b r).
    { intros r. subst b1. rewrite vget_upd by lia. reflexivity. }
    destruct (IH (S lo) A1 b1 HA1 Hb1 ltac:(lia) ltac:(lia)) as (HS & HL & EA & Eb).
    cbv zeta in HS, HL, EA, Eb. unfold range in *.
    split; [exact HS|]. split; [exact HL|].
    assert (Hm : forall r, r <> lo -> multiplier A1 i r = multiplier A i r).
    { intros r Hr. unfold multiplier. rewrite !E1.
      replace (Nat.eqb r lo) with false by (symmetry; now apply Nat.eqb_neq).
      replace (Nat.eqb i lo) with false by (symmetry; apply Nat.eqb_neq; lia).
      reflexivity. }
    assert (Hc : cst = multiplier A i lo) by reflexivity.
    split.
    + intros r c. rewrite EA, !E1.
      replace (i + (n - i))%nat with n by lia.
      destruct (Nat.eqb_spec r lo) as [->|Hr].
      * replace (Nat.eqb i lo) with false by (symmetry; apply Nat.eqb_neq; lia).
        rewrite Hc. nat_cases.
      * rewrite (Hm r Hr).
        replace (Nat.eqb i lo) with false by (symmetry; apply Nat.eqb_neq; lia).
        nat_cases.
    + intros r. rewrite Eb, !Eb1.
      replace (Nat.eqb i lo) with false by (symmetry; apply Nat.eqb_neq; lia).
      destruct (Nat.eqb_spec r lo) as [->|Hr].
      * rewrite Hc. nat_cases.
      * rewrite (Hm r Hr). nat_cases.
Qed.


(** The pivot row is one of the rows [i .. n-1]. *)
Lemma findPivot_range A (n i : nat) : (i < n)%nat -> (i <= findPivot A n i < n)%nat.
Proof.
  intros Hi. unfold findPivot, range.
  assert (G : forall l (s : R * nat),
            (i <= snd s < n)%nat -> (forall k, In k l -> (i <= k < n)%nat) ->
            (i <= snd (fold_left
                         (fun (s : R * nat) k =>
                            let '(maxEl, maxRow) := s in
                            if gt (Math_abs (mget A k i)) maxEl
                            then (Math_abs (mget A k i), k) else (maxEl, maxRow))
                         l s) < n)%nat).
  { induction l as [|k l IH]; intros [m r] Hs Hl; cbn [fold_left]; [exact Hs|].
    apply IH; [|intros k' Hk'; apply Hl; now right].
    destruct (gt _ _); cbn [snd]; [apply Hl; now left|exact Hs]. }
  apply G; [cbn; lia|]. intros k Hk. apply in_seq in Hk. lia.
Qed.

(** One step of the forward elimination: the pivot search, the row swap
    and the elimination of column [i]. *)
Definition eliminationStep (n : nat) (s : Matrix * Vector) (i : nat) : Matrix * Vector :=
  let '(A, b) := s in
  let maxRow := findPivot A n i in
  let '(A, b) := swapRows A b n i maxRow in
  eliminate A b n i.

Lemma forwardElimination_steps (n : nat) A b :
  forwardElimination n A b = fold_left (eliminationStep n) (seq 0 n) (A, b).
Proof.
  unfold forwardElimination, range. now rewrite Nat.sub_0_r.
Qed.

Lemma eliminationStep_spec n i A b :
  Square n A -> List.length b = n -> (i < n)%nat -> LowerZero n i A ->
  let s := eliminationStep n (A, b) i in
  Square n (fst s) /\ List.length (snd s) = n
  /\ LowerZero n (S i) (fst s)
  /\ (forall r c, (r < i)%nat -> mget (fst s) r c = mget A r c)
  /\ (mget (fst s) i i <> 0 ->
      forall x, Solves n (fst s) (snd s) x -> Solves n A b x).
Proof.
  intros HA Hb Hi HL. cbv zeta. unfold eliminationStep.
  destruct (findPivot_range A n i Hi) as [Hp1 Hp2].
  set (p := findPivot A n i) in *.
  unfold swapRows, range.
  destruct (swap_cols_spec n i p (n - i) i A HA Hi Hp2 ltac:(lia)) as [HAs Es].
  cbv zeta in HAs, Es. set (As := fold_left _ (seq i (n - i)) A) in *.
  set (bs := upd i (vget b p) (upd p (vget b i) b)).
  assert (Hbs : List.length bs = n) by (subst bs; now rewrite !upd_length).
  assert (Ebs : forall r, vget bs r
                          = if Nat.eqb r i then vget b p
                            else if Nat.eqb r p then vget b i else vget b r).
  { intros r. subst bs. rewrite vget_upd by (rewrite upd_length; lia).
    rewrite vget_upd by lia. reflexivity. }
  unfold eliminate, range.
  destruct (eliminate_rows_spec n i (n - S i) (S i) As bs HAs Hbs ltac:(lia) ltac:(lia))
    as (HAe & Hbe & Ee & Ebe).
  cbv zeta in HAe, Hbe, Ee, Ebe. unfold range in *. cbv beta iota zeta.
  match type of HAe with Square n (fst ?t) => set (se := t) in * end.
  (* the swapped matrix, entry by entry *)
  assert (Es' : forall r c, (c < n)%nat ->
            mget As r c
            = if Nat.eqb r i then mget A p c
              else if Nat.eqb r p then mget A i c else mget A r c).
  { intros r c Hc. rewrite Es. destruct (Nat.leb_spec i c) as [Hic|Hic].
    - replace (Nat.ltb c (i + (n - i))) with true by (symmetry; apply Nat.ltb_lt; lia).
      reflexivity.
    - cbn [andb]. destruct (Nat.eqb_spec r i) as [->|Hri].
      + rewrite (HL i c), (HL p c) by lia. reflexivity. 
      + destruct (Nat.eqb_spec r p) as [->|Hrp]; [|reflexivity].
        rewrite (HL i c), (HL p c) by lia. reflexivity. }
  split; [exact HAe|]. split; [exact Hbe|]. split; [|split].
  - intros r c Hc Hcr Hr. rewrite Ee.
    destruct (Nat.leb_spec (S i) r) as [Hir|Hir]; cbn [andb].
    + replace (Nat.ltb r (S i + (n - S i))) with true by (symmetry; apply Nat.ltb_lt; lia).
      cbn [andb]. destruct (Nat.leb_spec i c) as [Hic|Hic]; cbn [andb].
      * assert (c = i) by lia. subst c.
        replace (Nat.ltb i n) with true by (symmetry; apply Nat.ltb_lt; lia).
        now rewrite Nat.eqb_refl.
      * rewrite Es' by lia.
        replace (Nat.eqb r i) with false by (symmetry; apply Nat.eqb_neq; lia).
        destruct (Nat.eqb r p); apply HL; lia.
    + rewrite Es' by lia. destruct (Nat.eqb_spec r i) as [->|Hri]; [apply HL; lia|].
      destruct (Nat.eqb_spec r p) as [->|Hrp]; apply HL; lia.
  - intros r c Hr. rewrite Ee.
    replace (Nat.leb (S i) r) with false by (symmetry; apply Nat.leb_gt; lia).
    cbn [andb]. rewrite Es.
    replace (Nat.eqb r i) with false by (symmetry; apply Nat.eqb_neq; lia).
    replace (Nat.eqb r p) with false by (symmetry; apply Nat.eqb_neq; lia).
    destruct (_ && _)%bool; reflexivity.
  - intros Hpiv x Hx.
    assert (Erow : forall r, (r <= i)%nat -> forall c, mget (fst se) r c = mget As r c).
    { intros r Hr c. rewrite Ee.
      replace (Nat.leb (S i) r) with false by (symmetry; apply Nat.leb_gt; lia).
      reflexivity. }
    assert (Hpiv' : mget As i i <> 0) by (rewrite <- Erow by lia; exact Hpiv).
    (* [x] solves the swapped system *)
    assert (Hs : Solves n As bs x).
    { assert (Hi' : rowTimes n As x i = vget bs i).
      { pose proof (Hx i Hi) as Hxi. rewrite Ebe in Hxi.
        replace (Nat.leb (S i) i) with false in Hxi by (symmetry; apply Nat.leb_gt; lia).
        cbn [andb] in Hxi. rewrite <- Hxi. unfold rowTimes. apply bigsum_ext.
        intros j _. now rewrite Erow by lia. }
      intros r Hr. destruct (Nat.le_gt_cases r i) as [Hri|Hri].
      - pose proof (Hx r Hr) as Hxr. rewrite Ebe in Hxr.
        replace (Nat.leb (S i) r) with false in Hxr by (symmetry; apply Nat.leb_gt; lia).
        cbn [andb] in Hxr. rewrite <- Hxr. unfold rowTimes. apply bigsum_ext.
        intros j _. now rewrite Erow by lia.
      - pose proof (Hx r Hr) as Hxr. rewrite Ebe in Hxr.
        replace (Nat.leb (S i) r) with true in Hxr by (symmetry; apply Nat.leb_le; lia).
        replace (Nat.ltb r (S i + (n - S i))) with true in Hxr
          by (symmetry; apply Nat.ltb_lt; lia).
        cbn [andb] in Hxr.
        assert (Hsum : rowTimes n (fst se) x r
                       = rowTimes n As x r + multiplier As i r * rowTimes n As x i).
        { unfold rowTimes. rewrite <- bigsum_lin. apply bigsum_ext. intros j Hj.
          rewrite Ee.
          replace (Nat.leb (S i) r) with true by (symmetry; apply Nat.leb_le; lia).
          replace (Nat.ltb r (S i + (n - S i))) with true
            by (symmetry; apply Nat.ltb_lt; lia).
          replace (Nat.ltb j n) with true by (symmetry; apply Nat.ltb_lt; lia).
          cbn [andb]. destruct (Nat.leb_spec i j) as [Hij|Hij]; cbn [andb].
          - destruct (Nat.eqb_spec j i) as [->|Hji]; [|ring].
            unfold multiplier. field. exact Hpiv'.
          - assert (Hz : mget As i j = 0).
            { rewrite Es' by lia. rewrite Nat.eqb_refl. apply HL; lia. }
            rewrite Hz. ring. }
        rewrite Hsum, Hi' in Hxr. lra. }
    (* and so the system before the swap *)
    intros r Hr.
    assert (Hrow : forall r', (r' < n)%nat ->
              (forall c, (c < n)%nat -> mget A r c = mget As r' c) ->
              vget b r = vget bs r' -> rowTimes n A x r = vget b r).
    { intros r' Hr' Hm Hv. rewrite Hv, <- (Hs r' Hr'). unfold rowTimes.
      apply bigsum_ext. intros j Hj. rewrite Hm by lia. reflexivity. }
    destruct (Nat.eqb_spec r i) as [->|Hri].
    + apply (Hrow p Hp2).
      * intros c Hc. rewrite Es' by exact Hc.
        destruct (Nat.eqb_spec p i) as [->|Hpi]; [reflexivity|].
        now rewrite Nat.eqb_refl.
      * rewrite Ebs. destruct (Nat.eqb_spec p i) as [->|Hpi]; [reflexivity|].
        now rewrite Nat.eqb_refl.
    + destruct (Nat.eqb_spec r p) as [->|Hrp].
      * apply (Hrow i Hi).
        -- intros c Hc. rewrite Es' by exact Hc. now rewrite Nat.eqb_refl.
        -- rewrite Ebs. now rewrite Nat.eqb_refl.
      * apply (Hrow r Hr).
        -- intros c Hc. rewrite Es' by exact Hc.
           replace (Nat.eqb r i) with false by (symmetry; now apply Nat.eqb_neq).
           replace (Nat.eqb r p) with false by (symmetry; now apply Nat.eqb_neq).
           reflexivity.
        -- rewrite Ebs.
           replace (Nat.eqb r i) with false by (symmetry; now apply Nat.eqb_neq).
           replace (Nat.eqb r p) with false by (symmetry; now apply Nat.eqb_neq).
           reflexivity.
Qed.


(** The forward elimination from column [k] on: the result is upper
    triangular, and a solution of the eliminated system solves the system
    it started from, provided that no pivot is 0. *)
Lemma forwardElimination_from n : forall len k A b,
  (k + len = n)%nat -> Square n A -> List.length b = n -> LowerZero n k A ->
  let s := fold_left (eliminationStep n) (seq k len) (A, b) in
  Square n (fst s) /\ List.length (snd s) = n
  /\ LowerZero n n (fst s)
  /\ (forall r c, (r < k)%nat -> mget (fst s) r c = mget A r c)
  /\ ((forall i, (k <= i < n)%nat -> mget (fst s) i i <> 0) ->
      forall x, Solves n (fst s) (snd s) x -> Solves n A b x).
Proof.
  induction len as [|len IH]; intros k A b Hk HA Hb HL; cbn [seq fold_left].
  - cbv zeta. cbn [fst snd]. assert (k = n) by lia. subst k.
    split; [exact HA|]. split; [exact Hb|]. split; [exact HL|]. split; auto.
  - destruct (eliminationStep_spec n k A b HA Hb ltac:(lia) HL)
      as (HA1 & Hb1 & HL1 & Hrows1 & Hsol1).
    cbv zeta in HA1, Hb1, HL1, Hrows1, Hsol1.
    destruct (eliminationStep n (A, b) k) as [A1 b1]. cbn [fst snd] in *.
    destruct (IH (S k) A1 b1 ltac:(lia) HA1 Hb1 HL1) as (HS & HLn & HLZ & Hrows & Hsol).
    cbv zeta in HS, HLn, HLZ, Hrows, Hsol.
    split; [exact HS|]. split; [exact HLn|]. split; [exact HLZ|]. split.
    + intros r c Hr. rewrite Hrows by lia. now apply Hrows1.
    + intros Hpiv x Hx. apply Hsol1.
      * rewrite <- Hrows by lia. apply Hpiv. lia.
      * apply Hsol; [|exact Hx]. intros i Hi. apply Hpiv. lia.
Qed.

(** One step of the back substitution. *)
Definition backStep (n : nat) A b x (i : nat) : Vector :=
  upd i ((vget b i - bigsum (fun j => mget A i j * vget x j) (S i) (n - S i))
         / mget A i i) x.

Lemma backSubstitution_steps (n : nat) A b :
  backSubstitution n A b
  = fold_right (fun i x => backStep n A b x i) (repeat 0 n) (seq 0 n).
Proof.
  unfold backSubstitution, range. rewrite Nat.sub_0_r.
  rewrite <- (rev_involutive (seq 0 n)) at 2.
  rewrite (fold_left_rev_right (fun i x => backStep n A b x i)).
  cbn [of_Q R_JsNumber]. rewrite Q2R_zero.
  reflexivity.
Qed.

Lemma backSubstitution_from n A b (x0 : Vector) :
  List.length x0 = n ->
  (forall i, (i < n)%nat -> mget A i i <> 0) ->
  forall len k, (k + len = n)%nat ->
  let x := fold_right (fun i x => backStep n A b x i) x0 (seq k len) in
  List.length x = n
  /\ forall r, (k <= r < n)%nat ->
       mget A r r * vget x r + bigsum (fun j => mget A r j * vget x j) (S r) (n - S r)
       = vget b r.
Proof.
  intros Hx0 Hd. induction len as [|len IH]; intros k Hk; cbn [seq fold_right].
  - split; [exact Hx0|]. intros r Hr. lia.
  - destruct (IH (S k) ltac:(lia)) as [Hl Hrows]. cbv zeta in Hl, Hrows.
    set (x1 := fold_right _ x0 (seq (S k) len)) in *.
    set (v := (vget b k - bigsum (fun j => mget A k j * vget x1 j) (S k) (n - S k))
              / mget A k k).
    change (backStep n A b x1 k) with (upd k v x1).
    split; [now rewrite upd_length|].
    assert (Hsame : forall r, (k <= r)%nat ->
              bigsum (fun j => mget A r j * vget (upd k v x1) j) (S r) (n - S r)
              = bigsum (fun j => mget A r j * vget x1 j) (S r) (n - S r)).
    { intros r Hr. apply bigsum_ext. intros j Hj. rewrite vget_upd by lia.
      replace (Nat.eqb j k) with false by (symmetry; apply Nat.eqb_neq; lia).
      reflexivity. }
    intros r Hr. rewrite Hsame by lia. rewrite vget_upd by lia.
    destruct (Nat.eqb_spec r k) as [->|Hrk].
    + subst v. field. apply Hd. lia.
    + apply Hrows. lia.
Qed.

(** The back substitution solves an upper triangular system with no 0 on
    its diagonal. *)
Lemma backSubstitution_solves n A b :
  Square n A -> List.length b = n -> LowerZero n n A ->
  (forall i, (i < n)%nat -> mget A i i <> 0) ->
  Solves n A b (backSubstitution n A b).
Proof.
  intros HA Hb HL Hd. rewrite backSubstitution_steps.
  destruct (backSubstitution_from n A b (repeat 0 n) (repeat_length _ _) Hd n 0 eq_refl)
    as [_ Hrows].
  cbv zeta in Hrows. set (x := fold_right _ _ _) in *.
  intros r Hr. rewrite <- (Hrows r) by lia. unfold rowTimes.
  replace n with (r + S (n - S r))%nat at 1 by lia.
  rewrite bigsum_split, bigsum_S. cbn [Nat.add].
  rewrite bigsum_zero; [lra|].
  intros j Hj. rewrite (HL r j) by lia. ring.
Qed.

(** Gaussian elimination solves the system it is given: for a square
    system over the real numbers in which the elimination meets no pivot
    equal to 0, every row of [A] times the returned vector gives the entry
    of [b]. *)
Theorem gaussianElimination_solves_the_system (n : nat) A b :
  List.length A = n ->
  (forall row, In row A -> List.length row = n) ->
  List.length b = n ->
  (forall i, (i < n)%nat -> mget (fst (forwardElimination n A b)) i i <> 0) ->
  Solves n A b (gaussianElimination A b).
Proof.
  intros Hl Hrows Hb Hpiv.
  assert (HA : Square n A).
  { split; [exact Hl|]. intros i Hi. apply Hrows. apply nth_In. lia. }
  unfold gaussianElimination. rewrite Hl.
  rewrite forwardElimination_steps in *.
  destruct (forwardElimination_from n n 0 A b eq_refl HA Hb)
    as (HU & Hc & HLZ & _ & Hsol).
  { intros r c Hc. lia. }
  cbv zeta in HU, Hc, HLZ, Hsol.
  destruct (fold_left (eliminationStep n) (seq 0 n) (A, b)) as [U c]. cbn [fst snd] in *.
  apply Hsol; [intros i Hi; apply Hpiv; lia|].
  apply backSubstitution_solves; auto.
Qed.

End GaussCorrect.

(* ================================================================== *)
(** * Concrete runs                                                    *)
(* ================================================================== *)

(** The statements above at concrete inputs, and the runs that separate
    the program from the specification.  Unless the reals are named, the
    numbers are binary64 floats, so every value below is the value the
    program computes. *)

Section FloatRuns.
Local Open Scope string_scope.
Import BaseComponent CircuitSolver.

(** ** Linear solver *)

(** The smallest singular system. *)
Example gaussianElimination_zero_pivot :
  gaussianElimination [[of_Q 0]] [of_Q 0 : float] = [PrimFloat.nan].
Proof. vm_compute. reflexivity. Qed.

(** C1, counterexample.  Two resistors with no wire: the second one floats
    (no path to the ground, the matrix is singular).  The solve does not
    fail; it returns node voltages that are [NaN]. *)
Lemma floating_network_returns_NaN_voltages :
  exists res,
    solve [resistorOf "R1" (of_Q 1000 : float); resistorOf "R2" (of_Q 1000)] [] = Ok res
    /\ map (fun kv => (fst kv, PrimFloat.is_nan (snd kv))) (nodeVoltages res)
       = [("R1-terminal1", false); ("R1-terminal2", true);
          ("R2-terminal1", true); ("R2-terminal2", true)].
Proof. eexists. split; vm_compute; reflexivity. Qed.

(** ** Ground selection *)

Definition batteryOf (id : string) : Component.t float :=
  Component.of_instance Component.PBattery (Battery.new id (of_Q 9) (of_Q 500)).

(** C2, counterexample.  A battery and a resistor in a loop, no dedicated
    voltage source: the ground (index -1) is the first node discovered, the
    one that holds the battery's first (positive) terminal, and the node of
    the battery's second terminal is row 0. *)
Lemma battery_does_not_select_the_ground :
  exists st,
    identifyNodes
      [batteryOf "B1"; resistorOf "R1" (of_Q 1000)]
      [wireOf "w1" "B1-positive" "R1-terminal1"; wireOf "w2" "R1-terminal2" "B1-negative"]
    = Ok st
    /\ indexOfTerminal st "B1-negative" = Some 0%Z
    /\ indexOfTerminal st "B1-positive" = Some (-1)%Z.
Proof. eexists. split; [|split]; vm_compute; reflexivity. Qed.

(** ** Resistor across a source *)

(** The example of the specification: 5 V across 1000 Ω. *)
Example solve_5V_1000ohm :
  exists res,
    solve (sourceAcrossResistor (of_Q 5 : float) (of_Q 1000)) loopWires = Ok res
    /\ JsMap.get "R1" (componentCurrents res) = Some (of_Q 0.005)
    /\ JsMap.get "R1" (componentVoltages res) = Some (of_Q 5).
Proof. eexists. split; [|split]; vm_compute; reflexivity. Qed.

(** C3, the failing input.  A source set to 0 V: the stamp reads
    [voltage || 5], so the resistor gets 5 V and 5 mA instead of 0 V and
    0 A. *)
Lemma zero_volt_source_is_solved_as_5V :
  exists res,
    solve (sourceAcrossResistor (of_Q 0 : float) (of_Q 1000)) loopWires = Ok res
    /\ JsMap.get "R1" (componentCurrents res) = Some (of_Q 0.005)
    /\ JsMap.get "R1" (componentVoltages res) = Some (of_Q 5).
Proof. eexists. split; [|split]; vm_compute; reflexivity. Qed.

(** The general statement at 5 V across 1000 Ω, over the reals. *)
Lemma solve_resistor_across_source_witness :
  exists res,
    solve (sourceAcrossResistor 5%R 1000%R) loopWires = Ok res
    /\ JsMap.get "R1" (componentCurrents res) = Some (5 / 1000)%R
    /\ JsMap.get "R1" (componentVoltages res) = Some 5%R.
Proof. apply (solve_resistor_across_source 5%R 1000%R); lra. Defined.

(** ** Voltage source *)

(** A 5 V pulse source: 1 Hz, duty cycle 0.5. *)
Definition pulseSource : VoltageSource.t float :=
  BaseComponent.set_properties
    (VoltageSource.mk_properties (of_Q 5) (of_Q 0) (of_Q 1)
       (Some (mk_WaveformConfig WaveformType.PULSE (of_Q 1) (of_Q 0.5) (of_Q 0) (of_Q 0)))
       (of_Q 0) None)
    (VoltageSource.new "V1").

Definition PI64 : float := of_Q 3.141592653589793.

(** C4, counterexample.  The same source, the same node voltages and the
    same [deltaTime], at the clock readings 250 ms and 750 ms: the outputs
    are 5 V and 0 V.  (The pulse branch does not call [Math.sin].) *)
Lemma pulse_output_follows_the_wall_clock :
  VoltageSource.voltage
    (properties (VoltageSource.simulate (fun x => x) PI64 (of_Q 250) (of_Q 0.016) [] pulseSource))
  = of_Q 5
  /\ VoltageSource.voltage
       (properties (VoltageSource.simulate (fun x => x) PI64 (of_Q 750) (of_Q 0.016) [] pulseSource))
     = of_Q 0.
Proof. split; vm_compute; reflexivity. Qed.

(** A source at 0 V is an input that the program makes itself: in its low
    phase the pulse generator writes 0 V into the source, and the solve of
    that source with the 1000 Ω resistor stamps 5 V. *)
Example pulse_low_phase_is_solved_as_5V :
  let vs :=
    VoltageSource.simulate (fun x => x) PI64 (of_Q 750) (of_Q 0.016) [] pulseSource in
  VoltageSource.voltage (properties vs) = of_Q 0
  /\ exists res,
       solve [Component.of_instance Component.PVoltageSource vs;
              resistorOf "R1" (of_Q 1000)] loopWires = Ok res
       /\ JsMap.get "R1" (componentVoltages res) = Some (of_Q 5)
       /\ JsMap.get "R1" (componentCurrents res) = Some (of_Q 0.005).
Proof.
  cbv zeta. split; [vm_compute; reflexivity|].
  eexists. split; [|split]; vm_compute; reflexivity.
Qed.

(** C4, witness: the default source is DC; the clock does not matter. *)
Lemma VoltageSource_output_is_clock_driven_witness :
  VoltageSource.simulate (fun x => x) PI64 (of_Q 250) (of_Q 0.016) [] (VoltageSource.new "V1")
  = VoltageSource.simulate (fun x => x) PI64 (of_Q 750) (of_Q 0.001) [] (VoltageSource.new "V1").
Proof.
  apply (proj2 (VoltageSource_output_is_clock_driven (fun x => x) PI64 []
                  (VoltageSource.new "V1"))).
  reflexivity.
Defined.

(** ** Fuse *)

Definition fuse1A : Fuse.t float := Fuse.new "F1" (of_Q 1).

(** 0.03 V across the 0.01 Ω of the intact fuse: 3 A. *)
Definition nv3A : JsMap.t float := [("F1-in", of_Q 0.03); ("F1-out", of_Q 0)].

(** C5, witness.  The 1 A fuse carrying 3 A, one tick of 0.1 s: the heat
    grows by 3² × 0.1 and the fuse is still intact. *)
Lemma fuse_1A_carrying_3A_first_tick :
  let p' := properties (Fuse.simulate (of_Q 0.1) nv3A fuse1A) in
  Fuse.heatAccumulated p' = add (of_Q 0) (mul (mul (of_Q 3) (of_Q 3)) (of_Q 0.1))
  /\ Fuse.blown p' = false
  /\ Fuse.current p' = of_Q 3.
Proof.
  pose proof (Fuse_heat_accumulates_then_blown_is_terminal (of_Q 0.1) nv3A fuse1A
                _ _ _ eq_refl eq_refl) as [Hintact _].
  cbv zeta in Hintact. specialize (Hintact eq_refl eq_refl).
  exact Hintact.
Defined.

(** The third tick of 0.1 s takes the heat above 2: the fuse blows, and
    one tick later it is open. *)
Example fuse_1A_carrying_3A_blows_on_third_tick :
  let tick := (of_Q 0.1 : float, nv3A) in
  Fuse.blown (properties (runTicks Fuse.simulate [tick; tick] fuse1A)) = false
  /\ Fuse.blown (properties (runTicks Fuse.simulate [tick; tick; tick] fuse1A)) = true
  /\ Fuse.current (properties (runTicks Fuse.simulate [tick; tick; tick; tick] fuse1A)) = of_Q 0
  /\ Fuse.resistance (properties (runTicks Fuse.simulate [tick; tick; tick; tick] fuse1A))
     = of_Q 1000000000.
Proof. repeat split; vm_compute; reflexivity. Qed.

(** ** Lamp *)

Definition lamp12V : Lamp.t float := Lamp.new "L1" (of_Q 12) (of_Q 60).

(** The 12 V, 60 W lamp with 20 V across it: the power is above 90 W, the
    lamp burns out in that tick. *)
Lemma lamp_12V_at_20V_burns_out :
  let p' := properties (Lamp.simulate (of_Q 0.016) [("L1-t1", of_Q 20)] lamp12V) in
  Lamp.broken p' = true /\ Lamp.brightness p' = of_Q 1.5.
Proof.
  pose proof (Lamp_breaks_once_and_stays_dark (of_Q 0.016) [("L1-t1", of_Q 20)] lamp12V
                _ _ _ eq_refl) as [Hintact _].
  cbv zeta in Hintact. destruct (Hintact eq_refl) as (Hbr & _ & _ & _ & Hs).
  destruct (Hs eq_refl) as (_ & Hbk).
  split.
  - rewrite Hbk. vm_compute. reflexivity.
  - rewrite Hbr. vm_compute. reflexivity.
Defined.

(** The same lamp after its [powerRating] has been edited to 59.9 W: the
    resistance (2.4 Ω) and the burn-out limit (90 W) are still the ones the
    constructor computed for 60 W. *)
Definition lampDerated : Lamp.t float :=
  let p := properties lamp12V in
  set_properties
    (Lamp.mk_properties (Lamp.voltageRating p) (of_Q 59.9) (Lamp.resistance p)
       (Lamp.voltage p) (Lamp.current p) (Lamp.power p) (Lamp.brightness p)
       (Lamp.broken p) (Lamp.maxPower p))
    lamp12V.

(** C6, the failing input.  The edited lamp with 14.69 V across it: the
    new resistance V²/P differs from 2.4 Ω by less than 0.01, so the tick
    does not re-synchronise the limit; the power of the tick exceeds
    1.5 × 59.9 W, and the lamp is not broken, in this tick or in the next
    ones. *)
Lemma derated_lamp_is_not_burnt_out :
  let nv := [("L1-t1", of_Q 14.69); ("L1-t2", of_Q 0)] in
  let this' := Lamp.simulate (of_Q 0.016) nv lampDerated in
  let p' := properties this' in
  gt (Lamp.power p') (mul (Lamp.powerRating p') (of_Q 1.5)) = true
  /\ Lamp.broken p' = false
  /\ Lamp.maxPower p' = of_Q 90
  /\ Lamp.broken
       (properties
          (runTicks Lamp.simulate [(of_Q 0.016, nv); (of_Q 0.016, nv); (of_Q 0.016, nv)]
             this'))
     = false.
Proof. cbv zeta. repeat split; vm_compute; reflexivity. Qed.

(** ** Battery *)

Definition battery9V : Battery.t float := Battery.new "B1" (of_Q 9) (of_Q 500).

(** The terminals at 8.9 V and 0 V: a discharge current of about 1 A. *)
Definition nvLoad : JsMap.t float := [("B1-positive", of_Q 8.9); ("B1-negative", of_Q 0)].

(** C7, counterexample.  A full 9 V battery, one tick of 1 s at about 1 A:
    the remaining fraction is far above the floor 0.7, and the nominal
    voltage is already below 9 V. *)
Lemma battery_voltage_sags_above_the_floor :
  let p' := properties (Battery.simulate (of_Q 1) nvLoad battery9V) in
  gt (Battery.current p') (of_Q 0) = true
  /\ gt (div (Battery.chargePercent p') (of_Q 100)) (of_Q 0.99) = true
  /\ lt (Battery.voltage p') (of_Q 9) = true.
Proof. repeat split; vm_compute; reflexivity. Qed.

(** C7, witness: the same tick. *)
Lemma Battery_discharge_scales_voltage_witness :
  let p := properties battery9V in
  let p' := properties (Battery.simulate (of_Q 1) nvLoad battery9V) in
  Battery.voltage p'
  = mul (Battery.voltage p)
      (Math_max (of_Q 0.7) (div (Battery.chargePercent p') (of_Q 100))).
Proof.
  pose proof (Battery_discharge_scales_voltage_every_tick (of_Q 1) nvLoad battery9V
                _ _ _ eq_refl) as (_ & Hdis & _).
  cbv zeta in Hdis. destruct (Hdis ltac:(vm_compute; reflexivity)) as (_ & _ & Hv).
  exact Hv.
Defined.

(** ** Terminals *)

(** C8, counterexample.  The ground reference is created with one
    terminal. *)
Lemma ground_reference_has_one_terminal :
  option_map (fun c : Component.t float => List.length (terminals c))
    (ComponentFactory.createComponent "G1" ComponentType.GROUND)
  = Some 1.
Proof. reflexivity. Qed.

(** The solver stamps a ground reference as a voltage source and reads its
    second terminal: with a ground reference in the circuit the solve
    throws. *)
Example solve_throws_on_ground_reference :
  solve
    (sourceAcrossResistor (of_Q 5 : float) (of_Q 1000)
     ++ [Component.of_instance Component.PGround (Ground.new "G1")])
    loopWires
  = Throw TypeError.
Proof. vm_compute. reflexivity. Qed.

(** C8, witness: a battery. *)
Lemma createComponent_terminal_count_witness :
  List.length (terminals (batteryOf "B1")) = 2.
Proof.
  exact (proj1 (proj2 (proj2
           (createComponent_terminal_count "B1" ComponentType.BATTERY (batteryOf "B1")
              eq_refl)))).
Defined.

(** ** Step coordinator *)

(** The methods of the instances of a store that holds fuses only. *)
Definition fuseSimulate (dt : float) (nv : JsMap.t float) (c : Component.t float)
  : Component.t float :=
  match properties c with
  | Component.PFuse p =>
      Component.of_instance Component.PFuse
        (Fuse.simulate dt nv (mk (id c) (type c) (terminals c) p))
  | _ => c
  end.

Definition fuseCheckErrors (c : Component.t float) : list (CircuitError float) :=
  match properties c with
  | Component.PFuse p =>
      Fuse.checkErrors (fun _ => "1") (of_Q 0) (mk (id c) (type c) (terminals c) p)
  | _ => []
  end.

(** A running store with one fuse that has blown. *)
Definition blownFuseStore : Store.CircuitStore float :=
  Store.mk_CircuitStore
    [Component.of_instance Component.PFuse
       (set_properties (Fuse.set_blown true (properties fuse1A)) fuse1A)]
    []
    (Store.mk_SimulationState true (of_Q 0) (of_Q 0.001) (of_Q 1) []).

(** The solve of that store: both nodes at 0 V, no current. *)
Definition blownFuseResult : SimulationResult float :=
  mk_SimulationResult
    [("F1-in", of_Q 0); ("F1-out", of_Q 0)]
    [("F1", of_Q 0)]
    [("F1", of_Q 0)]
    [] [].

Lemma blownFuse_solve :
  solve (Store.components blownFuseStore) (Store.wires blownFuseStore) = Ok blownFuseResult.
Proof. vm_compute. reflexivity. Qed.

(** C9, witness.  The tick stops the run, and the fuse in the stopped state
    carries the tick's update (resistance 1e9). *)
Lemma blown_fuse_stops_the_run_after_its_update :
  let state' :=
    Store.stepSimulation fuseSimulate fuseCheckErrors "id" (of_Q 0) (fun _ => "")
      (of_Q 0.016) blownFuseStore in
  Store.running (Store.simulation state') = false
  /\ map (fun c => Component.resistance (properties c)) (Store.components state')
     = [Some (of_Q 1000000000)].
Proof.
  pose proof (stepSimulation_halts_after_all_updates fuseSimulate fuseCheckErrors
                "id" (of_Q 0) (fun _ => "") (of_Q 0.016) blownFuseStore blownFuseResult
                eq_refl blownFuse_solve) as (Hcomps & Hstop & _).
  cbv zeta in Hcomps, Hstop. cbv zeta. split.
  - apply Hstop. vm_compute.
    eexists. eexists. split; [left; reflexivity|]. split; [left; reflexivity|reflexivity].
  - rewrite Hcomps. vm_compute. reflexivity.
Defined.

(** ** Capacitor *)

(** On binary64, a 100 µF capacitor with 5 V across it: a [deltaTime] of 0,
    of -1 or of -∞ gives the divisor 0.001 and a finite current. *)
Example capacitor_binary64_degenerate_deltaTime :
  let this := Capacitor.new "C1" (of_Q 0.0001 : float) in
  let nv := [("C1-positive", of_Q 5); ("C1-negative", of_Q 0)] in
  map (fun dt =>
         (PrimFloat.eqb (Math_max dt (of_Q 0.001)) (of_Q 0.001),
          Float64.finite
            (Capacitor.current (properties (Capacitor.simulate dt nv this)))))
      [of_Q 0; of_Q (-1); PrimFloat.neg_infinity]
  = [(true, true); (true, true); (true, true)].
Proof. vm_compute. reflexivity. Qed.

(** C10, counterexample.  A 100 µF capacitor, [deltaTime] 16 ms, the
    terminals at 2^1023 V (a finite binary64 number) and 0 V: the quotient
    ΔV / 0.016 overflows, the current is +∞.  And with 5 V across it and a
    [deltaTime] that is NaN, the divisor and the current are NaN. *)
Lemma capacitor_current_is_not_always_finite :
  let this := Capacitor.new "C1" (of_Q 0.0001 : float) in
  let vBig : float := FloatOps.Z.ldexp PrimFloat.one 1023%Z in
  Float64.finite vBig = true
  /\ Capacitor.current
       (properties
          (Capacitor.simulate (of_Q 0.016) [("C1-positive", vBig); ("C1-negative", of_Q 0)]
             this))
     = PrimFloat.infinity
  /\ PrimFloat.is_nan
       (Capacitor.current
          (properties
             (Capacitor.simulate PrimFloat.nan
                [("C1-positive", of_Q 5); ("C1-negative", of_Q 0)] this)))
     = true.
Proof. cbv zeta. repeat split; vm_compute; reflexivity. Qed.

End FloatRuns.

Section RealRuns.
Local Open Scope string_scope.
Import BaseComponent.

(** C10, witness, over the reals: a 100 µF capacitor, [deltaTime] 0, the
    terminals at 5 V and 0 V; the current is C × 5 / 0.001. *)
Lemma capacitor_at_zero_deltaTime :
  let this := Capacitor.new "C1" (1 / 10000)%R in
  let nv := [("C1-positive", 5%R); ("C1-negative", 0%R)] in
  (Math_max 0%R (of_Q 0.001) >= 0.001)%R
  /\ Capacitor.current (properties (Capacitor.simulate 0%R nv this)) = (1 / 2)%R.
Proof.
  destruct Capacitor_divisor_is_clamped as (Hc & Hr & _).
  pose proof (Hc R _ 0%R [("C1-positive", 5%R); ("C1-negative", 0%R)]
                (Capacitor.new "C1" (1 / 10000)%R) _ _ _ eq_refl) as Hc0.
  destruct (Hr 0%R) as (Hd & _).
  cbv zeta in *. split; [exact Hd|].
  rewrite Hc0. cbn. unfold Exact.truthy, Q2R. cbn.
  repeat match goal with
         | |- context [Req_dec_T ?a ?b] => destruct (Req_dec_T a b); try lra
         end;
    cbn; rewrite ?Rmax_right by lra; try field; try lra.
Defined.

End RealRuns.

(* ================================================================== *)
(** * Concrete runs of the further facts                               *)
(* ================================================================== *)

Section LoopRuns.
Local Open Scope string_scope.
Import BaseComponent CircuitSolver.

(** ** The loop of a 5 V source and a 1000 Ω resistor *)

Definition loopCircuit : list (Component.t float) :=
  sourceAcrossResistor (of_Q 5) (of_Q 1000).

(** The nodes of the loop: the two wires leave two nodes, and the one of
    the source's negative terminal is the ground. *)
Definition loopNodes : Nodes :=
  mk_Nodes
    [("R1-terminal1", ["V1-positive"; "R1-terminal1"]);
     ("V1-negative", ["V1-negative"; "R1-terminal2"])]
    [("V1-positive", "R1-terminal1"); ("V1-negative", "V1-negative");
     ("R1-terminal1", "R1-terminal1"); ("R1-terminal2", "V1-negative")]
    [("V1-negative", (-1)%Z); ("R1-terminal1", 0%Z)].

Lemma loopNodes_run : identifyNodes loopCircuit loopWires = Ok loopNodes.
Proof. vm_compute. reflexivity. Qed.

(** The solve of the loop: 5 V across the resistor, 5 mA through it. *)
Definition loopResult : SimulationResult float :=
  mk_SimulationResult
    [("V1-negative", of_Q 0); ("R1-terminal1", of_Q 5)]
    [("V1", of_Q (-0.005)); ("R1", of_Q 0.005)]
    [("V1", of_Q 5); ("R1", of_Q 5)]
    [("w1", of_Q 0.005); ("w2", of_Q 0.005)]
    [("w1", of_Q 5); ("w2", of_Q 0)].

Lemma loopResult_run : solve loopCircuit loopWires = Ok loopResult.
Proof. vm_compute. reflexivity. Qed.

(** The wire [w1] joins the source's positive terminal and the resistor's
    first terminal. *)
Lemma identifyNodes_wire_joins_its_ends_loop :
  exists node,
    JsMap.get "V1-positive" (terminalToNode loopNodes) = Some node
    /\ JsMap.get "R1-terminal1" (terminalToNode loopNodes) = Some node.
Proof.
  apply (identifyNodes_wire_joins_its_ends loopCircuit loopWires loopNodes
           (wireOf "w1" "V1-positive" "R1-terminal1") loopNodes_run).
  - left. reflexivity.
  - eexists. eexists. split; [left; reflexivity|]. split; [left; reflexivity|reflexivity].
  - eexists. eexists. split; [right; left; reflexivity|].
    split; [left; reflexivity|reflexivity].
Defined.

(** The resistor's second terminal lies in the ground node and in no
    other. *)
Lemma identifyNodes_terminal_in_its_node_loop :
  exists node members,
    JsMap.get "R1-terminal2" (terminalToNode loopNodes) = Some node
    /\ JsMap.get node (nodes loopNodes) = Some members
    /\ In "R1-terminal2" members
    /\ (forall node' members',
          JsMap.get node' (nodes loopNodes) = Some members' ->
          In "R1-terminal2" members' -> node' = node).
Proof.
  apply (identifyNodes_terminal_in_its_node loopCircuit loopWires loopNodes
           "R1-terminal2" loopNodes_run).
  eexists. eexists. split; [right; left; reflexivity|].
  split; [right; left; reflexivity|reflexivity].
Defined.

(** Two terminals of one node of the loop are joined by wires. *)
Lemma identifyNodes_same_node_is_connected_loop :
  Connected (loopWires (num := float)) "V1-negative" "R1-terminal2".
Proof.
  apply (identifyNodes_same_node_is_connected loopCircuit loopWires loopNodes
           "V1-negative" "R1-terminal2" "V1-negative" loopNodes_run);
    reflexivity.
Defined.

(** The ground of the loop is at 0 V. *)
Lemma solve_ground_is_at_zero_volt_loop :
  exists st,
    identifyNodes loopCircuit loopWires = Ok st
    /\ (forall g, chosenGround loopCircuit st = Some g ->
          JsMap.get g (nodeVoltages loopResult) = Some (of_Q 0))
    /\ (forall node, In node (JsMap.keys (nodes st)) ->
          JsMap.get node (nodeVoltages loopResult) <> None).
Proof.
  exact (solve_ground_is_at_zero_volt loopCircuit loopWires loopResult loopResult_run).
Defined.

(** The current reported for the resistor of the loop is its voltage drop
    over its resistance. *)
Lemma solve_reports_ohms_law_loop :
  exists vDrop,
    JsMap.get "R1" (componentVoltages loopResult) = Some vDrop
    /\ forall r, resistanceOf (resistorOf "R1" (of_Q 1000)) = Some r ->
         JsMap.get "R1" (componentCurrents loopResult) = Some (div vDrop r).
Proof.
  apply (solve_reports_ohms_law loopCircuit loopWires loopResult
           (resistorOf "R1" (of_Q 1000)) loopResult_run).
  - constructor; [intros [E|[]]; discriminate E|].
    constructor; [intros []|constructor].
  - right. left. reflexivity.
Defined.

End LoopRuns.

Section EditorRuns.
Local Open Scope string_scope.
Import BaseComponent CircuitSolver Store.

(** ** The editor holding the loop, with the resistor selected *)

Definition loopEditor : Editor float :=
  mk_Editor
    (mk_CircuitStore loopCircuit loopWires
       (mk_SimulationState false (of_Q 0) (of_Q 0.001) (of_Q 1) []))
    SELECT ["R1"] None noWireDrawing.

(** Removing the resistor of the loop leaves both wires in the store,
    the two that end at the resistor. *)
Lemma removeComponent_keeps_every_wire_loop :
  wires (circuit (removeComponent "R1" loopEditor)) = loopWires.
Proof.
  assert (Howned : terminalsOwned (components (circuit loopEditor))).
  { intros c t [<-|[<-|[]]] [<-|[<-|[]]]; reflexivity. }
  exact (proj1 (removeComponent_keeps_every_wire "R1" loopEditor Howned)).
Defined.

(** Adding the source to the selection of the loop editor. *)
Lemma selection_has_no_duplicates_loop :
  NoDup (selectedComponentIds (selectComponent "V1" true loopEditor)).
Proof.
  assert (Hsel : NoDup (selectedComponentIds loopEditor)).
  { constructor; [intros []|constructor]. }
  exact (proj1 (selection_has_no_duplicates loopEditor Hsel) "V1" true).
Defined.

(** ** Ticks *)

(** The loop, running, with one warning listed. *)
Definition warnedStore : CircuitStore float :=
  mk_CircuitStore loopCircuit loopWires
    (mk_SimulationState true (of_Q 0) (of_Q 0.001) (of_Q 1)
       [mk_CircuitError "e1" ErrorSeverity.WARNING "warm" ["R1"] (of_Q 0) false]).

(** The tick goes on running and the warning is gone. *)
Lemma stepSimulation_drops_warnings_of_a_running_tick_loop :
  let state' :=
    stepSimulation fuseSimulate fuseCheckErrors "id" (of_Q 0) (fun _ => "")
      (of_Q 0.016) warnedStore in
  running (simulation state') = true /\ errors (simulation state') = [].
Proof.
  apply (stepSimulation_drops_warnings_of_a_running_tick fuseSimulate fuseCheckErrors
           "id" (of_Q 0) (fun _ => "") (of_Q 0.016) warnedStore loopResult eq_refl
           loopResult_run).
  intros c e [<-|[<-|[]]] He; destruct He.
Defined.

(** A tick of the store with the blown fuse. *)
Lemma stepSimulation_keeps_errors_distinct_fuse :
  ErrorsDistinct
    (errors (simulation
       (stepSimulation fuseSimulate fuseCheckErrors "id" (of_Q 0) (fun _ => "")
          (of_Q 0.016) blownFuseStore))).
Proof.
  apply (stepSimulation_keeps_errors_distinct fuseSimulate fuseCheckErrors "id" (of_Q 0)
           (fun _ => "") (of_Q 0.016) blownFuseStore).
  split; constructor.
Defined.

(** The loop with a ground reference, running. *)
Definition groundedStore : CircuitStore float :=
  mk_CircuitStore
    (loopCircuit ++ [Component.of_instance Component.PGround (Ground.new "G1")])
    loopWires
    (mk_SimulationState true (of_Q 0) (of_Q 0.001) (of_Q 1) []).

(** The first tick stops the run with one error that names no
    component. *)
Lemma stepSimulation_stops_on_a_short_component_ground :
  let state' :=
    stepSimulation fuseSimulate fuseCheckErrors "id" (of_Q 0) (fun _ => "")
      (of_Q 0.016) groundedStore in
  running (simulation state') = false
  /\ exists err, errors (simulation state') = [err]
                 /\ stopSimulation err = true /\ componentIds err = [].
Proof.
  assert (Hshort : List.length
                     (terminals (Component.of_instance Component.PGround
                                   (Ground.new (num := float) "G1"))) < 2).
  { cbn. lia. }
  exact (proj2 (proj2
           (stepSimulation_stops_on_a_short_component fuseSimulate fuseCheckErrors
              "id" (of_Q 0) (fun _ => "") (of_Q 0.016) groundedStore
              (Component.of_instance Component.PGround (Ground.new "G1"))
              eq_refl ltac:(right; right; left; reflexivity) Hshort))
         eq_refl).
Defined.

End EditorRuns.

Section ComponentRuns.
Local Open Scope string_scope.
Local Open Scope R_scope.
Import BaseComponent.

(** ** Components, over the reals *)

Ltac real_side := cbn; unfold Q2R; cbn; lra.

(** A 1 mH inductor with 5 V across it for one second. *)
Lemma Inductor_tick_never_saturates_coil :
  let coil := Inductor.new "L1" (1 / 1000) in
  let this' :=
    Inductor.simulate 1 [("L1-terminal1", 5); ("L1-terminal2", 0)] coil in
  Rabs (Inductor.current (properties this')) <= Inductor.maxCurrent (properties coil)
  /\ Inductor.maxCurrent (properties this') = Inductor.maxCurrent (properties coil)
  /\ anyHalting
       (Inductor.checkErrors (fun _ _ => "1") (fun _ => "1") (fun _ => 0) this')
     = false.
Proof.
  apply (Inductor_tick_never_saturates (fun _ _ => "1") (fun _ => "1") (fun _ => 0)
           1 [("L1-terminal1", 5); ("L1-terminal2", 0)] (Inductor.new "L1" (1 / 1000))
           _ _ _ eq_refl).
  real_side.
Defined.

(** A red LED with 5 V across it. *)
Lemma LED_tick_stays_within_its_current_limit_red :
  let led := LED.new "D1" "red" 2 in
  let this' := LED.simulate 1 [("D1-anode", 5); ("D1-cathode", 0)] led in
  0 <= LED.current (properties this') <= LED.maxCurrent (properties led)
  /\ 0 <= LED.brightness (properties this') <= 1
  /\ anyHalting (LED.checkErrors (fun _ _ => "1") (fun _ => 0) this') = false.
Proof.
  apply (LED_tick_stays_within_its_current_limit (fun _ _ => "1") (fun _ => 0)
           1 [("D1-anode", 5); ("D1-cathode", 0)] (LED.new "D1" "red" 2)
           _ _ _ eq_refl).
  real_side.
Defined.

(** A 1000 Ω resistor with 5 V across it. *)
Lemma Resistor_tick_halts_iff_hot_or_overcurrent_1k :
  let this' :=
    Resistor.simulate 1 [("R1-terminal1", 5); ("R1-terminal2", 0)]
      (Resistor.new "R1" 1000) in
  let p' := properties this' in
  Resistor.temperature p' = 25 + Resistor.power p' * 50
  /\ (anyHalting (Resistor.checkErrors (fun _ _ => "1") (fun _ => 0) this') = true
      <-> (Resistor.power p' > 5 / 2 \/ Rabs (Resistor.current p') > 10)).
Proof.
  exact (Resistor_tick_halts_iff_hot_or_overcurrent (fun _ _ => "1") (fun _ => 0)
           1 [("R1-terminal1", 5); ("R1-terminal2", 0)] (Resistor.new "R1" 1000)
           _ _ _ eq_refl).
Defined.

(** A 9 V, 500 mAh battery, one tick of one second under load. *)
Lemma Battery_run_never_gains_charge_9V :
  let this := Battery.new "B1" 9 500 in
  let ticks := [(1, [("B1-positive", 89 / 10); ("B1-negative", 0)])] in
  let q := properties (runTicks Battery.simulate ticks this) in
  0 <= Battery.chargeRemaining q <= Battery.chargeRemaining (properties this)
  /\ 0 <= Battery.voltage q <= Battery.voltage (properties this).
Proof.
  assert (Hrange : Battery_charge_in_range (properties (Battery.new "B1" 9 500))).
  { unfold Battery_charge_in_range. cbn. lra. }
  assert (Hticks : forall tick : R * JsMap.t R,
             In tick [(1, [("B1-positive", 89 / 10); ("B1-negative", 0)])] ->
             0 <= fst tick).
  { intros tick [<-|[]]. cbn. lra. }
  pose proof (Battery_run_never_gains_charge
                [(1, [("B1-positive", 89 / 10); ("B1-negative", 0)])]
                (Battery.new "B1" 9 500) _ _ _ eq_refl Hticks Hrange) as (H1 & H2 & _).
  split; [exact H1|exact H2].
Defined.

(** A 12 V, 60 W lamp at 12 V. *)
Lemma Lamp_at_rated_voltage_12V :
  let p' :=
    properties (Lamp.simulate 1 [("L1-t1", 12); ("L1-t2", 0)] (Lamp.new "L1" 12 60)) in
  Lamp.power p' = 60
  /\ Lamp.current p' = 60 / 12
  /\ Lamp.brightness p' = 1
  /\ Lamp.broken p' = false.
Proof.
  apply (Lamp_at_rated_voltage 1 [("L1-t1", 12); ("L1-t2", 0)] "L1" 12 60);
    [lra|lra|].
  unfold voltageAt. cbn. unfold Exact.truthy.
  repeat match goal with
         | |- context [Req_dec_T ?a ?b] => destruct (Req_dec_T a b); try lra
         end.
Defined.

(** A discharged 100 µF capacitor with no voltage across it. *)
Lemma Capacitor_steady_voltage_draws_no_current_idle :
  let this := Capacitor.new "C1" (1 / 10000) in
  let p' := properties (Capacitor.simulate 1 [] this) in
  Capacitor.current p' = 0 /\ Capacitor.power p' = 0.
Proof.
  assert (Hv : voltageAt (num := R) [] "C1-positive" - voltageAt [] "C1-negative"
               = Capacitor.voltage (properties (Capacitor.new "C1" (1 / 10000)))).
  { real_side. }
  pose proof (Capacitor_steady_voltage_draws_no_current 1 []
                (Capacitor.new "C1" (1 / 10000)) _ _ _ eq_refl Hv) as (H1 & H2 & _).
  split; [exact H1|exact H2].
Defined.

(** A 1000 Ω potentiometer asked for the position 150. *)
Lemma Potentiometer_wiper_is_clamped_150 :
  let pot := Potentiometer.new "P1" 1000 50 in
  let p' :=
    properties (Potentiometer.simulate 1 [] (Potentiometer.setPosition 150 pot)) in
  Potentiometer.position p' = Rmax 0 (Rmin 100 150)
  /\ 0 <= Potentiometer.position p' <= 100.
Proof.
  pose proof (Potentiometer_wiper_is_clamped 150 1 []
                (Potentiometer.new "P1" 1000 50) _ _ _ eq_refl ltac:(cbn; lra))
    as (H1 & H2 & _).
  split; [exact H1|exact H2].
Defined.

(** A silicon diode with 5 V across it. *)
Lemma Diode_conducts_iff_current_flows_silicon :
  let p' :=
    properties (Diode.simulate 1 [("D1-anode", 5); ("D1-cathode", 0)]
                  (Diode.new "D1" (7 / 10))) in
  (Diode.conducting p' = true <-> Diode.current p' <> 0)
  /\ Diode.current p' <= Diode.maxCurrent (properties (Diode.new "D1" (7 / 10)))
  /\ Diode.power p' = Rabs (Diode.voltage p' * Diode.current p').
Proof.
  apply (Diode_conducts_iff_current_flows 1 [("D1-anode", 5); ("D1-cathode", 0)]
           (Diode.new "D1" (7 / 10)) _ _ _ eq_refl); real_side.
Defined.

(** A 5 V square wave of 1 Hz, at the time 0.25 s. *)
Lemma waveformOutput_stays_within_the_amplitude_square :
  Rabs (VoltageSource.waveformOutput sin PI (1 / 4) 5
          (mk_WaveformConfig WaveformType.SQUARE 1 (1 / 2) 0 0) - 0)
  <= Rabs 5.
Proof.
  apply (waveformOutput_stays_within_the_amplitude sin PI (1 / 4) 5
           (mk_WaveformConfig WaveformType.SQUARE 1 (1 / 2) 0 0)).
  left. reflexivity.
Defined.

End ComponentRuns.

Section ComponentFloatRuns.
Local Open Scope string_scope.
Import BaseComponent.

(** ** Components, on binary64 *)

(** A 1 A fuse carrying 0.5 A for one tick. *)
Lemma Fuse_within_rating_never_blows_half_load :
  let this' :=
    runTicks Fuse.simulate [(of_Q 0.016, [("F1-in", of_Q 0.005); ("F1-out", of_Q 0)])]
      fuse1A in
  Fuse.blown (properties this') = false
  /\ Fuse.checkErrors (fun _ => "1") (of_Q 0) this' = []
  /\ CircuitSolver.resistanceOf (Component.of_instance Component.PFuse this')
     = Some (of_Q 0.01).
Proof.
  apply (Fuse_within_rating_never_blows (fun _ => "1") (of_Q 0)
           [(of_Q 0.016, [("F1-in", of_Q 0.005); ("F1-out", of_Q 0)])]
           fuse1A _ _ _ eq_refl eq_refl eq_refl).
  intros tick [<-|[]]. vm_compute. reflexivity.
Defined.

(** A closed switch. *)
Lemma Switch_resistance_follows_the_state_closed :
  let sw : Switch.t float := Switch.new "S1" true in
  Switch.resistance (properties (Switch.simulate (of_Q 0.016) [] sw)) = of_Q 0.01
  /\ Switch.toggle (Switch.toggle sw) = sw.
Proof.
  pose proof (Switch_resistance_follows_the_state (of_Q 0.016) []
                (Switch.new (num := float) "S1" true) _ _ _ eq_refl eq_refl)
    as (H1 & _ & _ & H4).
  split; [exact H1|exact H4].
Defined.

(** The battery [B1] of the factory. *)
Lemma createComponent_terminals_are_wellformed_battery :
  id (batteryOf "B1") = "B1"
  /\ (forall t, In t (terminals (batteryOf "B1")) ->
        Terminal.componentId t = "B1"
        /\ Terminal.id t = "B1" ++ "-" ++ Terminal.name t)
  /\ NoDup (map (fun t => Terminal.id t) (terminals (batteryOf "B1"))).
Proof.
  exact (createComponent_terminals_are_wellformed "B1" ComponentType.BATTERY
           (batteryOf "B1") eq_refl).
Defined.

(** The name of the resistor is the name of no other type. *)
Lemma getComponentName_is_injective_resistor :
  ComponentType.RESISTOR = ComponentType.RESISTOR.
Proof.
  exact (getComponentName_is_injective ComponentType.RESISTOR ComponentType.RESISTOR
           eq_refl).
Defined.

End ComponentFloatRuns.

Section SolverRuns.
Local Open Scope R_scope.
Import CircuitSolver.

(** ** The linear solver, over the reals *)

(** The system 2x + y = 3, x + 3y = 5. *)
Lemma gaussianElimination_solves_the_system_2x2 :
  Solves 2 [[2; 1]; [1; 3]] [3; 5] (gaussianElimination [[2; 1]; [1; 3]] [3; 5]).
Proof.
  apply (gaussianElimination_solves_the_system 2 [[2; 1]; [1; 3]] [3; 5]).
  - reflexivity.
  - intros row [<-|[<-|[]]]; reflexivity.
  - reflexivity.
  - intros i Hi.
    assert (P0 : findPivot [[2; 1]; [1; 3]] 2 0 = 0%nat).
    { unfold findPivot. cbn. unfold Exact.gt.
      destruct (Rgt_dec (Rabs 1) (Rabs 2)) as [Hgt|_]; [|reflexivity].
      rewrite !Rabs_right in Hgt by lra. lra. }
    unfold forwardElimination. cbn [range seq fold_left Nat.sub].
    rewrite P0. cbn.
    destruct i as [|[|i]]; cbn; [lra|lra|lia].
Defined.

End SolverRuns.
